(** * DIY Visionary Assistant: the generation orchestrator

    A shallow embedding of the client-side controller of the application
    (the two [App] components, [StepVisualizer] and [SummaryPlayer]) and
    the properties of its visual consistency pipeline.

    React state is a record; an event handler is a function on that record.
    A handler that awaits the Generation Gateway is split at the [await]:
    its first half returns the new state together with the Gateway calls
    it issued, its second half takes the outcome of the call ([None] when
    the promise rejects) and returns the state after [catch]/[finally]. *)

From Stdlib Require Import QArith Qround.
From Stdlib Require SpecFloat.
From stdpp Require Import base option list gmap strings pretty numbers.

Local Open Scope Z_scope.
Local Open Scope string_scope.

(** ** JavaScript values *)

(** [!!s] for a string: only the empty string is falsy. *)
Definition truthy_string (s : string) : bool :=
  if decide (s = "") then false else true.

(** [!!x] for [x : string | null | undefined]. *)
Definition truthy (x : option string) : bool :=
  match x with
  | Some s => truthy_string s
  | None => false
  end.

(** [!!x] for [x : boolean | undefined]. *)
Definition truthy_bool (x : option bool) : bool :=
  match x with
  | Some b => b
  | None => false
  end.

(** What a synchronous handler body can do: return normally, or throw a
    [TypeError] on a property read of [undefined]. [IllTyped] marks the one
    path on which the body would store [undefined] into a [string[]]; the
    typed arrays of the model have no such value. *)
Inductive Completion (A : Type) : Type :=
  | Returned (a : A)
  | TypeError
  | IllTyped.
Arguments Returned {A} a.
Arguments TypeError {A}.
Arguments IllTyped {A}.

(** ** types.ts *)

Inductive Category := tool | consumable | furniture | decor.

Record Material := {
  name : string;
  quantity : string;
  estimatedCost : string;
  category : Category
}.

Inductive Difficulty := Easy | Medium | Hard.

Record Step := {
  stepNumber : Z;
  title : string;
  instruction : string;
  substeps : list string;
  safetyWarning : option string;
  tip : option string;
  visualizationPrompt : string;
  difficulty : Difficulty;
  estimatedTime : string
}.

Record DIYPlan := {
  projectTitle : string;
  description : string;
  styleAnalysis : string;
  planEstimatedTime : string;
  estimatedTotalCost : string;
  materials : list Material;
  steps : list Step
}.

Inductive AppState := INPUT | ANALYZING | RESULT | ERROR.

#[global] Instance AppState_eq_dec : EqDecision AppState.
Proof. solve_decision. Defined.

Definition is_RESULT (a : AppState) : bool :=
  match a with RESULT => true | _ => false end.

Definition set_substeps (l : list string) (s : Step) : Step :=
  {| stepNumber := stepNumber s; title := title s;
     instruction := instruction s; substeps := l;
     safetyWarning := safetyWarning s; tip := tip s;
     visualizationPrompt := visualizationPrompt s;
     difficulty := difficulty s; estimatedTime := estimatedTime s |}.

Definition set_steps (l : list Step) (p : DIYPlan) : DIYPlan :=
  {| projectTitle := projectTitle p; description := description p;
     styleAnalysis := styleAnalysis p;
     planEstimatedTime := planEstimatedTime p;
     estimatedTotalCost := estimatedTotalCost p;
     materials := materials p; steps := l |}.

(** [plan.steps[plan.steps.length - 1]]; [undefined] for an empty list. *)
Definition lastStep (p : DIYPlan) : option Step :=
  steps p !! (length (steps p) - 1)%nat.

(** ** The Generation Gateway (services/geminiService.ts)

    Only the requests are recorded; the answers are inputs of the second
    half of each handler. *)

Record StepImageOptions := {
  lighting : option string;
  cameraAngle : option string
}.

Inductive GatewayCall :=
  | generateStepImage (prompt : string) (referenceImage : option string)
      (options : option StepImageOptions) (previousContext : option string)
  | generateVariantImage (baseImage : option string)
      (angle lightingText styleContext : string)
  | generateProductImage (itemName styleContext : string)
  | generateRoomTourVideo (styleContext : string) (image : string)
  | generateNightTourVideo (image : string)
  | generateProjectSummaryAudio (plan : DIYPlan).

Definition isStepImageCall (c : GatewayCall) : bool :=
  match c with generateStepImage _ _ _ _ => true | _ => false end.

(** The prompt of a step-image request. *)
Definition visualizationPromptOf (c : GatewayCall) : string :=
  match c with generateStepImage prompt _ _ _ => prompt | _ => "" end.

(** ** The step visuals store

    [stepVisuals : Record<number, string>] holds one image per step number.
    A property key is a string: the number [n] is stored under
    [String(n)], and [Object.keys] gives those strings back. Two numbers
    have the same key only when they are equal, so the store is a map over
    the numbers; what is written out here is [parseInt] of a key. *)

(** The step numbers whose key is their plain decimal numeral. From
    [10^21] on, [String(n)] is in exponent form, as in [1e+21] or
    [-2.5e+22]. *)
Definition plainKey (n : Z) : Prop := Z.abs n < 10 ^ 21.

#[global] Instance plainKey_dec (n : Z) : Decision (plainKey n).
Proof. unfold plainKey. apply _. Defined.

(** The first decimal digit of a positive integer. *)
Fixpoint leadingDigit (fuel : nat) (n : Z) : Z :=
  match fuel with
  | O => n
  | S fuel => if decide (n < 10) then n else leadingDigit fuel (n / 10)
  end.

Definition firstDigit (n : Z) : Z :=
  leadingDigit (Z.to_nat (Z.log2 n + 1)) n.

(** [parseInt(String(n))]. A plain numeral is read back as [n]. Of an
    exponent form [parseInt] reads what stands before the point or the
    [e]: one digit, with the sign of [n]. The digit is taken from the
    exact value here; the numeral that [String] prints is the shortest one
    that reads back as [n] and can start with the next digit
    ([99999999999999991611392] prints as [1e+23]). Which digit is read
    makes no difference to the store: [stepVisualsUpdaterWith_lookup] holds
    for every reading of the exponent forms. *)
Definition parseIntOfKey (n : Z) : Z :=
  if decide (plainKey n) then n else Z.sgn n * firstDigit (Z.abs n).

(** The updater passed to [setStepVisuals] in [handleStepVisualGenerated]:
    spread [prev], write [index], then walk [Object.keys(prev)] and delete
    from the copy [parseInt(key)] whenever that number is above [index]. *)
Definition stepVisualsUpdaterWith (parseInt : Z → Z) (index : Z)
    (imageUrl : string) (prev : gmap Z string) : gmap Z string :=
  let newState := <[index := imageUrl]> prev in
  foldl (λ newState key,
           let keyNum := parseInt key in
           if decide (keyNum > index) then delete keyNum newState
           else newState)
        newState (map_to_list prev).*1.

Definition stepVisualsUpdater : Z → string → gmap Z string → gmap Z string :=
  stepVisualsUpdaterWith parseIntOfKey.

(** ** State shared by the two builds of [App]

    The source holds two versions of [App]: one that renders lighting and
    angle variants of the final visual and can request a room tour video,
    and one that offers a narrated summary and a night tour video. Their
    plan, checklist, step visual and material state is the same. *)

Record Session := {
  appState : AppState;
  plan : option DIYPlan;
  currentImage : option string;           (* [currentImage?.base64] *)
  stepVisuals : gmap Z string;
  generatingStepIndex : option Z;
  completedSubsteps : gmap string (option bool);
  selectedMaterial : option Material;
  materialImages : gmap string string;
  generatingMaterialImage : bool
}.

Definition setPlan (p : option DIYPlan) (s : Session) : Session :=
  {| appState := appState s; plan := p; currentImage := currentImage s;
     stepVisuals := stepVisuals s;
     generatingStepIndex := generatingStepIndex s;
     completedSubsteps := completedSubsteps s;
     selectedMaterial := selectedMaterial s;
     materialImages := materialImages s;
     generatingMaterialImage := generatingMaterialImage s |}.

Definition setStepVisuals (f : gmap Z string → gmap Z string)
    (s : Session) : Session :=
  {| appState := appState s; plan := plan s; currentImage := currentImage s;
     stepVisuals := f (stepVisuals s);
     generatingStepIndex := generatingStepIndex s;
     completedSubsteps := completedSubsteps s;
     selectedMaterial := selectedMaterial s;
     materialImages := materialImages s;
     generatingMaterialImage := generatingMaterialImage s |}.

Definition setGeneratingStepIndex (g : option Z) (s : Session) : Session :=
  {| appState := appState s; plan := plan s; currentImage := currentImage s;
     stepVisuals := stepVisuals s;
     generatingStepIndex := g;
     completedSubsteps := completedSubsteps s;
     selectedMaterial := selectedMaterial s;
     materialImages := materialImages s;
     generatingMaterialImage := generatingMaterialImage s |}.

Definition setCompletedSubsteps
    (f : gmap string (option bool) → gmap string (option bool))
    (s : Session) : Session :=
  {| appState := appState s; plan := plan s; currentImage := currentImage s;
     stepVisuals := stepVisuals s;
     generatingStepIndex := generatingStepIndex s;
     completedSubsteps := f (completedSubsteps s);
     selectedMaterial := selectedMaterial s;
     materialImages := materialImages s;
     generatingMaterialImage := generatingMaterialImage s |}.

Definition setSelectedMaterial (m : option Material) (s : Session) : Session :=
  {| appState := appState s; plan := plan s; currentImage := currentImage s;
     stepVisuals := stepVisuals s;
     generatingStepIndex := generatingStepIndex s;
     completedSubsteps := completedSubsteps s;
     selectedMaterial := m;
     materialImages := materialImages s;
     generatingMaterialImage := generatingMaterialImage s |}.

Definition setMaterialImages (f : gmap string string → gmap string string)
    (s : Session) : Session :=
  {| appState := appState s; plan := plan s; currentImage := currentImage s;
     stepVisuals := stepVisuals s;
     generatingStepIndex := generatingStepIndex s;
     completedSubsteps := completedSubsteps s;
     selectedMaterial := selectedMaterial s;
     materialImages := f (materialImages s);
     generatingMaterialImage := generatingMaterialImage s |}.

Definition setGeneratingMaterialImage (b : bool) (s : Session) : Session :=
  {| appState := appState s; plan := plan s; currentImage := currentImage s;
     stepVisuals := stepVisuals s;
     generatingStepIndex := generatingStepIndex s;
     completedSubsteps := completedSubsteps s;
     selectedMaterial := selectedMaterial s;
     materialImages := materialImages s;
     generatingMaterialImage := b |}.

Definition setAppState (st : AppState) (s : Session) : Session :=
  {| appState := st; plan := plan s; currentImage := currentImage s;
     stepVisuals := stepVisuals s;
     generatingStepIndex := generatingStepIndex s;
     completedSubsteps := completedSubsteps s;
     selectedMaterial := selectedMaterial s;
     materialImages := materialImages s;
     generatingMaterialImage := generatingMaterialImage s |}.

Definition setCurrentImage (image : option string) (s : Session) : Session :=
  {| appState := appState s; plan := plan s; currentImage := image;
     stepVisuals := stepVisuals s;
     generatingStepIndex := generatingStepIndex s;
     completedSubsteps := completedSubsteps s;
     selectedMaterial := selectedMaterial s;
     materialImages := materialImages s;
     generatingMaterialImage := generatingMaterialImage s |}.

(** [closeMaterialModal] *)
Definition closeMaterialModal (s : Session) : Session :=
  setSelectedMaterial None s.

(** The arguments of [generateDIYPlan]. *)
Record PlanRequest := {
  inspirationBase64 : string;
  currentBase64 : string;
  dimensions : string;
  styleAdjustments : string
}.

(** The session part of [handleSubmit] up to its [await]: the state is
    [ANALYZING] and the stores of the previous plan are emptied. *)
Definition submitSession (s : Session) : Session :=
  setGeneratingStepIndex None
    (setMaterialImages (λ _, ∅)
       (setCompletedSubsteps (λ _, ∅)
          (setStepVisuals (λ _, ∅) (setAppState ANALYZING s)))).

(** The session part of [handleSubmit] from the [await] on. *)
Definition submitSession_settled (outcome : option DIYPlan) (s : Session)
    : Session :=
  match outcome with
  | Some generatedPlan => setAppState RESULT (setPlan (Some generatedPlan) s)
  | None => setAppState ERROR s
  end.

(** The session part of [reset]; [generatingMaterialImage] is not among
    the fields it writes. *)
Definition resetSession (s : Session) : Session :=
  {| appState := INPUT; plan := None; currentImage := None;
     stepVisuals := ∅; generatingStepIndex := None;
     completedSubsteps := ∅; selectedMaterial := None;
     materialImages := ∅;
     generatingMaterialImage := generatingMaterialImage s |}.

(** [!stepVisuals[step.stepNumber]] *)
Definition lacksVisual (visuals : gmap Z string) (step : Step) : bool :=
  negb (truthy (visuals !! stepNumber step)).

(** [isFinalStepVisualized]: reading [stepNumber] of the last step throws
    when the plan has no steps. *)
Definition isFinalStepVisualized (s : Session) : Completion bool :=
  match plan s with
  | None => Returned false
  | Some p =>
      match lastStep p with
      | None => TypeError
      | Some final => Returned (truthy (stepVisuals s !! stepNumber final))
      end
  end.

(** The context image of [generateVisualForStep]: the previous step's
    output when there is one, the uploaded current state otherwise. *)
Definition contextImage (s : Session) (step : Step) : option string :=
  let contextBase64 := currentImage s in
  if decide (stepNumber step > 1) then
    match stepVisuals s !! (stepNumber step - 1) with
    | Some prevStepImage =>
        if truthy_string prevStepImage then Some prevStepImage
        else contextBase64
    | None => contextBase64
    end
  else contextBase64.

(** ** Plan editing and the checklist *)

(** The template literal [`${stepIndex}-${subIdx}`] over array indices. *)
Definition substepKey (stepIndex subIdx : nat) : string :=
  pretty stepIndex +:+ "-" +:+ pretty subIdx.

(** [completed[key]]: [undefined] when the key is absent. *)
Definition readFlag (completed : gmap string (option bool)) (key : string)
    : option bool :=
  default None (completed !! key).

(** The checkbox of substep [subIdx] of step [stepIndex]:
    [checked={!!completedSubsteps[`${idx}-${sIdx}`]}]. *)
Definition isChecked (s : Session) (stepIndex subIdx : nat) : bool :=
  truthy_bool (readFlag (completedSubsteps s) (substepKey stepIndex subIdx)).

Definition toggleSubstep (stepIndex subIdx : nat) (s : Session) : Session :=
  let key := substepKey stepIndex subIdx in
  setCompletedSubsteps
    (λ prev, <[key := Some (negb (truthy_bool (readFlag prev key)))]> prev) s.

(** [deleteSubstep]: [splice(subIdx, 1)] on the substeps of step [sIdx];
    an index past the end removes nothing. Nothing else is written. *)
Definition deleteSubstep (sIdx subIdx : nat) (s : Session)
    : Completion Session :=
  match plan s with
  | None => Returned s
  | Some p =>
      match steps p !! sIdx with
      | None => TypeError
      | Some step =>
          let spliced := delete subIdx (substeps step) in
          let newPlan :=
            set_steps (<[sIdx := set_substeps spliced step]> (steps p)) p in
          Returned (setPlan (Some newPlan) s)
      end
  end.

(** [direction: -1 | 1] *)
Inductive Direction := Up | Down.

Definition offset (d : Direction) : Z :=
  match d with Up => -1 | Down => 1 end.

(** [moveSubstep]: the guard on the target index, the swap in the substep
    array and the swap of the two completion entries. With [subIdx] equal
    to the length and direction [-1] the swap would write [undefined] into
    the array. *)
Definition moveSubstep (sIdx subIdx : nat) (direction : Direction)
    (s : Session) : Completion Session :=
  match plan s with
  | None => Returned s
  | Some p =>
      match steps p !! sIdx with
      | None => TypeError
      | Some step =>
          let newIndex := Z.of_nat subIdx + offset direction in
          if decide (newIndex < 0 ∨ newIndex >= Z.of_nat (length (substeps step)))
          then Returned s
          else
            let newIndex := Z.to_nat newIndex in
            match substeps step !! subIdx, substeps step !! newIndex with
            | Some temp, Some other =>
                let swapped :=
                  <[newIndex := temp]> (<[subIdx := other]> (substeps step)) in
                let newPlan :=
                  set_steps (<[sIdx := set_substeps swapped step]> (steps p)) p in
                let currentKey := substepKey sIdx subIdx in
                let newKey := substepKey sIdx newIndex in
                Returned
                  (setCompletedSubsteps
                     (λ prev,
                        let val1 := readFlag prev currentKey in
                        let val2 := readFlag prev newKey in
                        <[newKey := val1]> (<[currentKey := val2]> prev))
                     (setPlan (Some newPlan) s))
            | _, _ => IllTyped
            end
      end
  end.

(** ** The material image cache *)

Definition eqCategory (a b : Category) : bool :=
  match a, b with
  | tool, tool | consumable, consumable
  | furniture, furniture | decor, decor => true
  | _, _ => false
  end.

(** [isTool ? "Professional Hardware Equipment"
           : (plan?.styleAnalysis || "Modern Home Decor")] *)
Definition productStyle (s : Session) (item : Material) : string :=
  if eqCategory (category item) tool then "Professional Hardware Equipment"
  else match plan s with
       | Some p => if truthy_string (styleAnalysis p) then styleAnalysis p
                   else "Modern Home Decor"
       | None => "Modern Home Decor"
       end.

(** The properties an object literal inherits from [Object.prototype].
    What is read under these names is a function or an object. *)
Definition objectPrototypeNames : list string :=
  [ "constructor"; "__defineGetter__"; "__defineSetter__"; "hasOwnProperty";
    "__lookupGetter__"; "__lookupSetter__"; "isPrototypeOf";
    "propertyIsEnumerable"; "toString"; "valueOf"; "__proto__";
    "toLocaleString" ].

(** [!!record[key]] for a [Record<string, string>] built from [{}] by
    spreads and computed keys: an own entry decides; without one the read
    goes on to [Object.prototype]. *)
Definition truthyEntry (record : gmap string string) (key : string) : bool :=
  match record !! key with
  | Some value => truthy_string value
  | None => bool_decide (key ∈ objectPrototypeNames)
  end.

(** [handleMaterialClick] up to its [await]. *)
Definition handleMaterialClick (item : Material) (s : Session)
    : Session * list GatewayCall :=
  let s := setSelectedMaterial (Some item) s in
  if truthyEntry (materialImages s) (name item) then (s, [])
  else (setGeneratingMaterialImage true s,
        [generateProductImage (name item) (productStyle s item)]).

(** [handleMaterialClick] from the [await] on. *)
Definition handleMaterialClick_settled (item : Material)
    (outcome : option string) (s : Session) : Session :=
  let s := match outcome with
           | Some url => setMaterialImages (λ prev, <[name item := url]> prev) s
           | None => s
           end in
  setGeneratingMaterialImage false s.

(** ** The variants/video build of [App] *)

Module VariantsBuild.

Record App := {
  session : Session;
  videoUrl : option string;
  isVideoLoading : bool;
  variants : gmap string string;
  isVariantsLoading : bool
}.

Definition onSession (f : Session → Session) (a : App) : App :=
  {| session := f (session a); videoUrl := videoUrl a;
     isVideoLoading := isVideoLoading a; variants := variants a;
     isVariantsLoading := isVariantsLoading a |}.

Definition setVideoUrl (v : option string) (a : App) : App :=
  {| session := session a; videoUrl := v;
     isVideoLoading := isVideoLoading a; variants := variants a;
     isVariantsLoading := isVariantsLoading a |}.

Definition setIsVideoLoading (b : bool) (a : App) : App :=
  {| session := session a; videoUrl := videoUrl a;
     isVideoLoading := b; variants := variants a;
     isVariantsLoading := isVariantsLoading a |}.

Definition setVariants (v : gmap string string) (a : App) : App :=
  {| session := session a; videoUrl := videoUrl a;
     isVideoLoading := isVideoLoading a; variants := v;
     isVariantsLoading := isVariantsLoading a |}.

Definition setIsVariantsLoading (b : bool) (a : App) : App :=
  {| session := session a; videoUrl := videoUrl a;
     isVideoLoading := isVideoLoading a; variants := variants a;
     isVariantsLoading := b |}.

(** [handleStepVisualGenerated]: store the visual, drop the later ones,
    and invalidate the variants. *)
Definition handleStepVisualGenerated (index : Z) (imageUrl : string)
    (a : App) : App :=
  setVariants ∅
    (onSession (setStepVisuals (stepVisualsUpdater index imageUrl)) a).

(** What one evaluation of the orchestrator effect decides. *)
Inductive Action :=
  | NoAction
  | GenerateVisualForStep (step : Step)
  | HandleGenerateVariants
  | EffectTypeError.

(** The body of the auto-generation effect. *)
Definition orchestrator (a : App) : Action :=
  let s := session a in
  match plan s with
  | None => NoAction
  | Some p =>
      if negb (is_RESULT (appState s)) then NoAction
      else if bool_decide (generatingStepIndex s ≠ None) then NoAction
      else if isVideoLoading a || truthy (videoUrl a) then NoAction
      else
        match find (lacksVisual (stepVisuals s)) (steps p) with
        | Some nextStep => GenerateVisualForStep nextStep
        | None =>
            match isFinalStepVisualized s with
            | Returned true =>
                if bool_decide (size (variants a) = 0%nat)
                   && negb (isVariantsLoading a)
                then HandleGenerateVariants
                else NoAction
            | Returned false => NoAction
            | _ => EffectTypeError
            end
        end
  end.

(** [generateVisualForStep] up to its [await]. *)
Definition generateVisualForStep (step : Step) (a : App)
    : App * list GatewayCall :=
  (onSession (setGeneratingStepIndex (Some (stepNumber step))) a,
   [generateStepImage (visualizationPrompt step)
      (contextImage (session a) step) None None]).

(** [generateVisualForStep] from the [await] on: [try] stores the image,
    [catch] only logs, [finally] clears the marker. *)
Definition generateVisualForStep_settled (step : Step)
    (outcome : option string) (a : App) : App :=
  let a := match outcome with
           | Some url => handleStepVisualGenerated (stepNumber step) url a
           | None => a
           end in
  onSession (setGeneratingStepIndex None) a.

Record VariantConfig := {
  configName : string;
  configAngle : string;
  configLighting : string
}.

Definition variantConfigs : list VariantConfig :=
  [ {| configName := "Golden Hour Glow"; configAngle := "Match Reference";
       configLighting :=
         "Golden Hour, warm sunlight streaming in, cozy atmosphere" |};
    {| configName := "Evening Ambience"; configAngle := "Match Reference";
       configLighting :=
         "Night time, interior artificial lights on, cozy and intimate" |};
    {| configName := "Wide Perspective"; configAngle := "Wide Angle";
       configLighting := "Bright natural daylight" |} ].

(** [handleGenerateVariants] up to [await Promise.all]: the flag, then
    one synthesis call per configuration. With an empty step list the
    read of the last step throws after the flag is set. *)
Definition handleGenerateVariants (a : App) : App * list GatewayCall :=
  match plan (session a) with
  | None => (a, [])
  | Some p =>
      let a := setIsVariantsLoading true a in
      match lastStep p with
      | None => (a, [])
      | Some final =>
          let finalImage := stepVisuals (session a) !! stepNumber final in
          let style := styleAnalysis p in
          (a, map (λ conf, generateVariantImage finalImage
                             (configAngle conf) (configLighting conf) style)
                  variantConfigs)
      end
  end.

(** The value of one promise of the batch: the inner [catch] turns a
    rejected synthesis call into [null]. *)
Definition variantResult (gateway : VariantConfig → option string)
    (conf : VariantConfig) : option (string * string) :=
  match gateway conf with
  | Some url => Some (configName conf, url)
  | None => None
  end.

(** [results.forEach(res => { if (res) newVariants[res.name] = res.url })] *)
Definition collectVariants (results : list (option (string * string)))
    : gmap string string :=
  foldl (λ newVariants res,
           match res with
           | Some (resName, url) => <[resName := url]> newVariants
           | None => newVariants
           end)
        ∅ results.

(** [handleGenerateVariants] once every promise of the batch has
    resolved; [gateway conf] is [None] when the call for [conf] threw. *)
Definition handleGenerateVariants_settled
    (gateway : VariantConfig → option string) (a : App) : App :=
  let results := map (variantResult gateway) variantConfigs in
  setIsVariantsLoading false (setVariants (collectVariants results) a).

(** One evaluation of the effect: the decision and the synchronous part
    of the handler it calls. *)
Definition runEffect (a : App) : App * list GatewayCall :=
  match orchestrator a with
  | GenerateVisualForStep nextStep => generateVisualForStep nextStep a
  | HandleGenerateVariants => handleGenerateVariants a
  | NoAction | EffectTypeError => (a, [])
  end.

(** [handleGenerateVideo] up to the synthesis call. The key-selection
    pre-flight in between only logs. *)
Definition handleGenerateVideo (a : App) : Completion (App * list GatewayCall) :=
  match plan (session a) with
  | None => Returned (a, [])
  | Some p =>
      if isVideoLoading a || truthy (videoUrl a) then Returned (a, [])
      else
        match lastStep p with
        | None => TypeError
        | Some final =>
            match stepVisuals (session a) !! stepNumber final with
            | Some bestImage =>
                if truthy_string bestImage then
                  Returned (setIsVideoLoading true a,
                            [generateRoomTourVideo (styleAnalysis p) bestImage])
                else Returned (a, [])
            | None => Returned (a, [])
            end
        end
  end.

Definition handleGenerateVideo_settled (outcome : option string) (a : App)
    : App :=
  let a := match outcome with
           | Some url => setVideoUrl (Some url) a
           | None => a
           end in
  setIsVideoLoading false a.

(** [StepVisualizer.handleGenerate] once its synthesis call has settled:
    [onGenerate(url)] is [handleStepVisualGenerated(step.stepNumber, url)];
    a failure only sets the component's own error text. *)
Definition manualGenerate_settled (step : Step) (outcome : option string)
    (a : App) : App :=
  match outcome with
  | Some url => handleStepVisualGenerated (stepNumber step) url a
  | None => a
  end.

(** The dependencies of the effect that React compares by value. The
    others ([plan], [stepVisuals], [variants]) are objects, compared by
    identity: a change of one of the values below is enough for React to
    evaluate the effect again after the render. *)
Definition primitiveDeps (a : App)
    : AppState * option Z * bool * option string * bool :=
  (appState (session a), generatingStepIndex (session a),
   isVideoLoading a, videoUrl a, isVariantsLoading a).

(** The renders that follow a state update from [before] to [after]:
    while a dependency differs from the previous render, the effect is
    evaluated on the new state. The values of [primitiveDeps] differ when
    they are not equal; the objects ([plan], [stepVisuals], [variants])
    differ as soon as the update stored a new one, which [replaced] tells.
    The updates of the effect itself write [generatingStepIndex] and
    [isVariantsLoading] only. *)
Fixpoint rerender (fuel : nat) (replaced : bool) (before after : App)
    : App * list GatewayCall :=
  match fuel with
  | O => (after, [])
  | S fuel =>
      if decide (replaced = false ∧ primitiveDeps before = primitiveDeps after)
      then (after, [])
      else
        let '(next, calls) := runEffect after in
        let '(final, more) := rerender fuel false after next in
        (final, (calls ++ more)%list)
  end.

(** Whether a settled step-image call makes [handleStepVisualGenerated]
    run, which stores a new [stepVisuals] and a new [variants] object. *)
Definition storesVisual (outcome : option string) : bool :=
  match outcome with Some _ => true | None => false end.

(** What happens to the application while it shows a plan. *)
Inductive Event :=
  | EffectTriggered
  | StepImageSettled (step : Step) (outcome : option string)
  | ManualGenerateSettled (step : Step) (outcome : option string)
  | VariantsSettled (gateway : VariantConfig → option string).

Definition dispatch (e : Event) (a : App) : App * list GatewayCall :=
  match e with
  | EffectTriggered => runEffect a
  | StepImageSettled step outcome =>
      rerender 3 (storesVisual outcome) a
        (generateVisualForStep_settled step outcome a)
  | ManualGenerateSettled step outcome =>
      rerender 3 (storesVisual outcome) a
        (manualGenerate_settled step outcome a)
  | VariantsSettled gateway =>
      rerender 3 true a (handleGenerateVariants_settled gateway a)
  end.

(** The state and the Gateway calls issued along a sequence of events. *)
Fixpoint run (events : list Event) (a : App) : App * list GatewayCall :=
  match events with
  | [] => (a, [])
  | e :: events =>
      let '(a, calls) := dispatch e a in
      let '(final, more) := run events a in
      (final, (calls ++ more)%list)
  end.

(** [handleSubmit] up to its [await]; without both images it only
    alerts. *)
Definition handleSubmit (inspirationImage : option string)
    (dims styleNotes : string) (a : App) : App * option PlanRequest :=
  match inspirationImage, currentImage (session a) with
  | Some inspiration, Some current =>
      (setVariants ∅ (setVideoUrl None (onSession submitSession a)),
       Some {| inspirationBase64 := inspiration; currentBase64 := current;
               dimensions := dims; styleAdjustments := styleNotes |})
  | _, _ => (a, None)
  end.

Definition handleSubmit_settled (outcome : option DIYPlan) (a : App) : App :=
  onSession (submitSession_settled outcome) a.

(** [reset]; the uploaded images, dimensions and notes are cleared with
    the rest. *)
Definition reset (a : App) : App :=
  {| session := resetSession (session a); videoUrl := None;
     isVideoLoading := false; variants := ∅; isVariantsLoading := false |}.

End VariantsBuild.

(** ** The audio/night-tour build of [App] *)

Module NightTourBuild.

Record App := {
  session : Session;
  summaryAudioBuffer : option (list Byte.byte);
  isSummaryLoading : bool;
  showSummaryPlayer : bool;
  nightVideoUrl : option string;
  isNightVideoLoading : bool
}.

Definition onSession (f : Session → Session) (a : App) : App :=
  {| session := f (session a);
     summaryAudioBuffer := summaryAudioBuffer a;
     isSummaryLoading := isSummaryLoading a;
     showSummaryPlayer := showSummaryPlayer a;
     nightVideoUrl := nightVideoUrl a;
     isNightVideoLoading := isNightVideoLoading a |}.

Definition setSummaryAudioBuffer (b : option (list Byte.byte)) (a : App)
    : App :=
  {| session := session a;
     summaryAudioBuffer := b;
     isSummaryLoading := isSummaryLoading a;
     showSummaryPlayer := showSummaryPlayer a;
     nightVideoUrl := nightVideoUrl a;
     isNightVideoLoading := isNightVideoLoading a |}.

Definition setIsSummaryLoading (b : bool) (a : App) : App :=
  {| session := session a;
     summaryAudioBuffer := summaryAudioBuffer a;
     isSummaryLoading := b;
     showSummaryPlayer := showSummaryPlayer a;
     nightVideoUrl := nightVideoUrl a;
     isNightVideoLoading := isNightVideoLoading a |}.

Definition setShowSummaryPlayer (b : bool) (a : App) : App :=
  {| session := session a;
     summaryAudioBuffer := summaryAudioBuffer a;
     isSummaryLoading := isSummaryLoading a;
     showSummaryPlayer := b;
     nightVideoUrl := nightVideoUrl a;
     isNightVideoLoading := isNightVideoLoading a |}.

Definition setNightVideoUrl (v : option string) (a : App) : App :=
  {| session := session a;
     summaryAudioBuffer := summaryAudioBuffer a;
     isSummaryLoading := isSummaryLoading a;
     showSummaryPlayer := showSummaryPlayer a;
     nightVideoUrl := v;
     isNightVideoLoading := isNightVideoLoading a |}.

Definition setIsNightVideoLoading (b : bool) (a : App) : App :=
  {| session := session a;
     summaryAudioBuffer := summaryAudioBuffer a;
     isSummaryLoading := isSummaryLoading a;
     showSummaryPlayer := showSummaryPlayer a;
     nightVideoUrl := nightVideoUrl a;
     isNightVideoLoading := b |}.

(** [handleStepVisualGenerated]: store the visual, drop the later ones,
    and invalidate the outputs that depend on the final state. *)
Definition handleStepVisualGenerated (index : Z) (imageUrl : string)
    (a : App) : App :=
  setSummaryAudioBuffer None
    (setNightVideoUrl None
       (onSession (setStepVisuals (stepVisualsUpdater index imageUrl)) a)).

Inductive Action :=
  | NoAction
  | GenerateVisualForStep (step : Step).

(** The body of the auto-generation effect. *)
Definition orchestrator (a : App) : Action :=
  let s := session a in
  match plan s with
  | None => NoAction
  | Some p =>
      if negb (is_RESULT (appState s)) then NoAction
      else if bool_decide (generatingStepIndex s ≠ None) then NoAction
      else
        match find (lacksVisual (stepVisuals s)) (steps p) with
        | Some nextStep => GenerateVisualForStep nextStep
        | None => NoAction
        end
  end.

(** The instructions of the steps before [step], joined with [". "]. *)
Definition previousContext (s : Session) (step : Step) : string :=
  let previousSteps :=
    match plan s with
    | Some p => filter (λ s', stepNumber s' < stepNumber step) (steps p)
    | None => []
    end in
  if decide (0 < length previousSteps)%nat
  then String.concat ". " (map instruction previousSteps)
  else "".

(** [generateVisualForStep] up to its [await]. *)
Definition generateVisualForStep (step : Step) (a : App)
    : App * list GatewayCall :=
  (onSession (setGeneratingStepIndex (Some (stepNumber step))) a,
   [generateStepImage (visualizationPrompt step)
      (contextImage (session a) step)
      (Some {| lighting := None; cameraAngle := None |})
      (Some (previousContext (session a) step))]).

(** [generateVisualForStep] from the [await] on. *)
Definition generateVisualForStep_settled (step : Step)
    (outcome : option string) (a : App) : App :=
  let a := match outcome with
           | Some url => handleStepVisualGenerated (stepNumber step) url a
           | None => a
           end in
  onSession (setGeneratingStepIndex None) a.

Definition runEffect (a : App) : App * list GatewayCall :=
  match orchestrator a with
  | GenerateVisualForStep nextStep => generateVisualForStep nextStep a
  | NoAction => (a, [])
  end.

(** [handleGenerateSummary] up to its [await]. *)
Definition handleGenerateSummary (a : App) : App * list GatewayCall :=
  match plan (session a) with
  | None => (a, [])
  | Some p => (setIsSummaryLoading true a, [generateProjectSummaryAudio p])
  end.

(** [handleGenerateSummary] from the [await] on. *)
Definition handleGenerateSummary_settled
    (outcome : option (list Byte.byte)) (a : App) : App :=
  let a := match outcome with
           | Some buffer =>
               setShowSummaryPlayer true
                 (setSummaryAudioBuffer (Some buffer) a)
           | None => a
           end in
  setIsSummaryLoading false a.

(** The "Play Summary" button: [onClick={handleGenerateSummary}] with
    [disabled={isSummaryLoading}]. *)
Definition clickPlaySummary (a : App) : App * list GatewayCall :=
  if isSummaryLoading a then (a, []) else handleGenerateSummary a.

(** [handleGenerateNightTour] up to the synthesis call. *)
Definition handleGenerateNightTour (a : App)
    : Completion (App * list GatewayCall) :=
  match plan (session a) with
  | None => Returned (a, [])
  | Some p =>
      if isNightVideoLoading a || truthy (nightVideoUrl a)
      then Returned (a, [])
      else
        match lastStep p with
        | None => TypeError
        | Some final =>
            match stepVisuals (session a) !! stepNumber final with
            | Some bestImage =>
                if truthy_string bestImage then
                  Returned (setIsNightVideoLoading true a,
                            [generateNightTourVideo bestImage])
                else Returned (a, [])
            | None => Returned (a, [])
            end
        end
  end.

Definition handleGenerateNightTour_settled (outcome : option string)
    (a : App) : App :=
  let a := match outcome with
           | Some url => setNightVideoUrl (Some url) a
           | None => a
           end in
  setIsNightVideoLoading false a.

Definition manualGenerate_settled (step : Step) (outcome : option string)
    (a : App) : App :=
  match outcome with
  | Some url => handleStepVisualGenerated (stepNumber step) url a
  | None => a
  end.

(** The dependencies of the effect that React compares by value; [plan]
    and [stepVisuals] are objects. *)
Definition primitiveDeps (a : App) : AppState * option Z :=
  (appState (session a), generatingStepIndex (session a)).

(** The renders that follow a state update, as in the other build:
    [replaced] tells that the update stored a new [stepVisuals] object. *)
Fixpoint rerender (fuel : nat) (replaced : bool) (before after : App)
    : App * list GatewayCall :=
  match fuel with
  | O => (after, [])
  | S fuel =>
      if decide (replaced = false ∧ primitiveDeps before = primitiveDeps after)
      then (after, [])
      else
        let '(next, calls) := runEffect after in
        let '(final, more) := rerender fuel false after next in
        (final, (calls ++ more)%list)
  end.

Definition storesVisual (outcome : option string) : bool :=
  match outcome with Some _ => true | None => false end.

Inductive Event :=
  | EffectTriggered
  | StepImageSettled (step : Step) (outcome : option string)
  | ManualGenerateSettled (step : Step) (outcome : option string).

Definition dispatch (e : Event) (a : App) : App * list GatewayCall :=
  match e with
  | EffectTriggered => runEffect a
  | StepImageSettled step outcome =>
      rerender 3 (storesVisual outcome) a
        (generateVisualForStep_settled step outcome a)
  | ManualGenerateSettled step outcome =>
      rerender 3 (storesVisual outcome) a
        (manualGenerate_settled step outcome a)
  end.

Fixpoint run (events : list Event) (a : App) : App * list GatewayCall :=
  match events with
  | [] => (a, [])
  | e :: events =>
      let '(a, calls) := dispatch e a in
      let '(final, more) := run events a in
      (final, (calls ++ more)%list)
  end.

(** [handleSubmit] up to its [await]. *)
Definition handleSubmit (inspirationImage : option string)
    (dims styleNotes : string) (a : App) : App * option PlanRequest :=
  match inspirationImage, currentImage (session a) with
  | Some inspiration, Some current =>
      (setNightVideoUrl None
         (setSummaryAudioBuffer None (onSession submitSession a)),
       Some {| inspirationBase64 := inspiration; currentBase64 := current;
               dimensions := dims; styleAdjustments := styleNotes |})
  | _, _ => (a, None)
  end.

Definition handleSubmit_settled (outcome : option DIYPlan) (a : App) : App :=
  onSession (submitSession_settled outcome) a.

(** [reset]; [isSummaryLoading] and [showSummaryPlayer] are not among the
    fields it writes. *)
Definition reset (a : App) : App :=
  {| session := resetSession (session a);
     summaryAudioBuffer := None;
     isSummaryLoading := isSummaryLoading a;
     showSummaryPlayer := showSummaryPlayer a;
     nightVideoUrl := None;
     isNightVideoLoading := false |}.

End NightTourBuild.

(** ** components/SummaryPlayer.tsx *)

Module SummaryPlayer.

(** JavaScript numbers are IEEE 754 binary64 values, 53 bits of
    precision and exponents below 1024; every operation rounds to the
    nearest value, ties to even. *)
Definition number : Type := SpecFloat.spec_float.

Definition sub : number → number → number := SpecFloat.SFsub 53 1024.
Definition div : number → number → number := SpecFloat.SFdiv 53 1024.
Definition mul : number → number → number := SpecFloat.SFmul 53 1024.
Definition lt : number → number → bool := SpecFloat.SFltb.

(** The number of an integer; exact below [2^53]. *)
Definition ofZ (z : Z) : number := SpecFloat.binary_normalize 53 1024 z 0 false.

(** The integral values: what [Math.floor] returns, and [Math.min] of
    such a value and an integer. *)
Inductive Integral :=
  | Integer (z : Z)
  | NotANumber
  | PositiveInfinity
  | NegativeInfinity.

(** [Math.floor]: a finite number is [±m·2^e]; shifting by a negative [e]
    rounds towards minus infinity. *)
Definition floor (x : number) : Integral :=
  match x with
  | SpecFloat.S754_zero _ => Integer 0
  | SpecFloat.S754_finite s m e =>
      Integer (Z.shiftl (SpecFloat.cond_Zopp s (Z.pos m)) e)
  | SpecFloat.S754_infinity s =>
      if s then NegativeInfinity else PositiveInfinity
  | SpecFloat.S754_nan => NotANumber
  end.

(** [Math.min(x, k)] for an integer [k]. *)
Definition min (x : Integral) (k : Z) : Integral :=
  match x with
  | Integer z => Integer (Z.min z k)
  | NotANumber => NotANumber
  | PositiveInfinity => Integer k
  | NegativeInfinity => NegativeInfinity
  end.

(** One frame of the animation loop of [startPlayback], for a live audio
    context: the index given to [setCurrentImageIndex], and whether
    another frame is requested. Times are seconds of the audio clock.
    [images.length] is below [2^32], so it and [images.length - 1] are
    exact. *)
Definition animate (currentTime startTime duration : number)
    (images : list string) : Integral * bool :=
  let elapsed := sub currentTime startTime in
  if lt elapsed duration then
    let progress := div elapsed duration in
    let index :=
      min (floor (mul progress (ofZ (Z.of_nat (length images)))))
          (Z.of_nat (length images) - 1) in
    (index, true)
  else (Integer (Z.of_nat (length images) - 1), false).


(** The same formula over the rationals, without rounding. *)
Definition exactIndex (t duration : Q) (imageCount : Z) : Z :=
  Z.min (Qfloor ((t / duration) * inject_Z imageCount)) (imageCount - 1).






End SummaryPlayer.

(** ** Editing a substep

    [editingSubstep] and [editValue] of [App], with the handlers of the
    checklist that use them. They are the same in both builds. *)

Record Editing := {
  editingSubstep : option (nat * nat);
  editValue : string
}.

Definition startEditingSubstep (sIdx subIdx : nat) (text : string)
    (e : Editing) : Editing :=
  {| editingSubstep := Some (sIdx, subIdx); editValue := text |}.

(** [onChange={(e) => setEditValue(e.target.value)}] *)
Definition setEditValue (text : string) (e : Editing) : Editing :=
  {| editingSubstep := editingSubstep e; editValue := text |}.

(** [setEditingSubstep(null)], on Escape and on the cancel button. *)
Definition cancelEditing (e : Editing) : Editing :=
  {| editingSubstep := None; editValue := editValue e |}.

(** [editingSubstep?.sIdx === idx && editingSubstep?.subIdx === sIdx] *)
Definition isEditing (e : Editing) (idx sIdx : nat) : bool :=
  match editingSubstep e with
  | Some (i, j) => bool_decide (i = idx) && bool_decide (j = sIdx)
  | None => false
  end.

(** [saveSubstep]: the assignment [substeps[subIdx] = editValue] replaces an
    entry, appends when [subIdx] is the length, and would leave holes when
    it is larger. *)
Definition saveSubstep (e : Editing) (s : Session)
    : Completion (Editing * Session) :=
  match plan s, editingSubstep e with
  | Some p, Some (sIdx, subIdx) =>
      match steps p !! sIdx with
      | None => TypeError
      | Some step =>
          let written (l : list string) :=
            Returned
              (cancelEditing e,
               setPlan
                 (Some (set_steps
                          (<[sIdx := set_substeps l step]> (steps p)) p))
                 s) in
          if decide (subIdx < length (substeps step))%nat
          then written (<[subIdx := editValue e]> (substeps step))
          else if decide (subIdx = length (substeps step))
          then written (substeps step ++ [editValue e])%list
          else IllTyped
      end
  | _, _ => Returned (e, s)
  end.

(** [addSubstep]: push a placeholder and open it for editing. *)
Definition addSubstep (sIdx : nat) (e : Editing) (s : Session)
    : Completion (Editing * Session) :=
  match plan s with
  | None => Returned (e, s)
  | Some p =>
      match steps p !! sIdx with
      | None => TypeError
      | Some step =>
          let pushed := (substeps step ++ ["New step"])%list in
          let newPlan :=
            set_steps (<[sIdx := set_substeps pushed step]> (steps p)) p in
          let newSubIdx := (length pushed - 1)%nat in
          Returned
            ({| editingSubstep := Some (sIdx, newSubIdx);
                editValue := "New step" |},
             setPlan (Some newPlan) s)
      end
  end.

(** ** components/StepVisualizer.tsx *)

Module StepVisualizer.

Record Props := {
  step : Step;
  base64Context : option string;
  isLocked : bool;
  isGenerating : bool;
  existingImage : option string
}.

Record State := {
  internalLoading : bool;
  error : option string;
  showOptions : bool;
  lightingChoice : string;
  cameraAngleChoice : string
}.

Definition initialState : State :=
  {| internalLoading := false; error := None; showOptions := false;
     lightingChoice := "Match Reference";
     cameraAngleChoice := "Match Reference" |}.

Definition isLoading (props : Props) (st : State) : bool :=
  isGenerating props || internalLoading st.

(** What the component shows: the image with its Regenerate button, the
    spinner, the lock notice, or the manual controls. *)
Inductive View :=
  | ImageWithRegenerate (disabled : bool)
  | Spinner
  | LockNotice
  | ManualControls.

Definition render (props : Props) (st : State) : View :=
  if truthy (existingImage props) then ImageWithRegenerate (isLoading props st)
  else if isLoading props st then Spinner
  else if isLocked props then LockNotice
  else ManualControls.

(** [handleGenerate] up to its [await]. *)
Definition handleGenerate (props : Props) (st : State)
    : State * list GatewayCall :=
  ({| internalLoading := true; error := None;
      showOptions := showOptions st;
      lightingChoice := lightingChoice st;
      cameraAngleChoice := cameraAngleChoice st |},
   [generateStepImage (visualizationPrompt (step props))
      (base64Context props)
      (Some {| lighting := Some (lightingChoice st);
               cameraAngle := Some (cameraAngleChoice st) |})
      None]).

(** [handleGenerate] from the [await] on; the image, if any, goes to
    [onGenerate]. *)
Definition handleGenerate_settled (outcome : option string) (st : State)
    : State * option string :=
  ({| internalLoading := false;
      error := match outcome with
               | Some _ => error st
               | None => Some "Failed to generate visual. Please try again."
               end;
      showOptions := showOptions st;
      lightingChoice := lightingChoice st;
      cameraAngleChoice := cameraAngleChoice st |},
   outcome).

(** A click where the generate button is, if there is one and it is
    enabled. *)
Definition clickGenerate (props : Props) (st : State)
    : State * list GatewayCall :=
  match render props st with
  | ImageWithRegenerate false | ManualControls => handleGenerate props st
  | ImageWithRegenerate true | Spinner | LockNotice => (st, [])
  end.

End StepVisualizer.

(** The props [App] passes to the visualizer of the step at position [idx]
    of the plan. *)
Definition stepVisualizerProps (s : Session) (idx : nat) (step : Step)
    : StepVisualizer.Props :=
  {| StepVisualizer.step := step;
     StepVisualizer.base64Context :=
       if decide (idx = 0%nat) then currentImage s
       else stepVisuals s !! Z.of_nat idx;
     StepVisualizer.isLocked :=
       bool_decide (0 < idx)%nat
       && negb (truthy (stepVisuals s !! (stepNumber step - 1)));
     StepVisualizer.isGenerating :=
       bool_decide (generatingStepIndex s = Some (stepNumber step));
     StepVisualizer.existingImage := stepVisuals s !! stepNumber step |}.

(** ** services/geminiService.ts: [parseBase64] *)

Module GeminiService.

(** [s] without the prefix [pre], when it starts with it. *)
Fixpoint stripPrefix (pre s : string) : option string :=
  match pre, s with
  | EmptyString, _ => Some s
  | String a pre', String b s' =>
      if decide (a = b) then stripPrefix pre' s' else None
  | String _ _, EmptyString => None
  end.

(** [[a-zA-Z]] *)
Definition isLetter (c : Ascii.ascii) : bool :=
  let n := Ascii.nat_of_ascii c in
  ((65 <=? n) && (n <=? 90) || (97 <=? n) && (n <=? 122))%nat.

(** The longest run of letters at the head of [s], and what follows. *)
Fixpoint spanLetters (s : string) : string * string :=
  match s with
  | String c s' =>
      if isLetter c then
        let '(run, rest) := spanLetters s' in (String c run, rest)
      else (EmptyString, s)
  | EmptyString => (EmptyString, EmptyString)
  end.

(** [match(/^data:(image\/[a-zA-Z]+);base64,/)?.[1] || 'image/jpeg'] *)
Definition mimeTypeOf (base64String : string) : string :=
  match stripPrefix "data:image/" base64String with
  | Some afterSlash =>
      let '(subtype, rest) := spanLetters afterSlash in
      match subtype, stripPrefix ";base64," rest with
      | String _ _, Some _ => "image/" +:+ subtype
      | _, _ => "image/jpeg"
      end
  | None => "image/jpeg"
  end.

(** [replace(/^data:image\/(png|jpeg|jpg|webp);base64,/, "")] *)
Definition cleanDataOf (base64String : string) : string :=
  let try (alternative : string) : option string :=
    stripPrefix ("data:image/" +:+ alternative +:+ ";base64,") base64String in
  match try "png", try "jpeg", try "jpg", try "webp" with
  | Some rest, _, _, _ => rest
  | None, Some rest, _, _ => rest
  | None, None, Some rest, _ => rest
  | None, None, None, Some rest => rest
  | None, None, None, None => base64String
  end.

Definition parseBase64 (base64String : string) : string * string :=
  (mimeTypeOf base64String, cleanDataOf base64String).

(** What every image synthesis call returns for the payload [data]:
    [`data:image/png;base64,${data}`]. *)
Definition pngDataUrl (data : string) : string :=
  "data:image/png;base64," +:+ data.

End GeminiService.

(** ** Sessions used in the examples *)

Module Scenario.

Definition mkStep (n : Z) (label : string) (subs : list string) : Step :=
  {| stepNumber := n; title := label; instruction := label;
     substeps := subs; safetyWarning := None; tip := None;
     visualizationPrompt := "Show the room after: " +:+ label;
     difficulty := Easy; estimatedTime := "1 hour" |}.

Definition step1 : Step := mkStep 1 "Clear the room" ["A"; "B"; "C"].
Definition step2 : Step := mkStep 2 "Paint the walls" ["A"; "B"].
Definition step3 : Step := mkStep 3 "Hang the shelves" [].

Definition paint : Material :=
  {| name := "Wall paint"; quantity := "5 l"; estimatedCost := "$40";
     category := consumable |}.

Definition threeStepPlan : DIYPlan :=
  {| projectTitle := "Reading corner"; description := "A calm corner";
     styleAnalysis := "Warm minimal"; planEstimatedTime := "2 days";
     estimatedTotalCost := "$300"; materials := [paint];
     steps := [step1; step2; step3] |}.

Definition twoStepPlan : DIYPlan := set_steps [step1; step2] threeStepPlan.

(** The session right after planning succeeded. *)
Definition planned (p : DIYPlan) : Session :=
  {| appState := RESULT; plan := Some p;
     currentImage := Some "data:image/jpeg;base64,ROOM";
     stepVisuals := ∅; generatingStepIndex := None;
     completedSubsteps := ∅; selectedMaterial := None;
     materialImages := ∅; generatingMaterialImage := false |}.

Definition img (tag : string) : string := "data:image/png;base64," +:+ tag.

Definition variantsApp (s : Session) : VariantsBuild.App :=
  {| VariantsBuild.session := s; VariantsBuild.videoUrl := None;
     VariantsBuild.isVideoLoading := false; VariantsBuild.variants := ∅;
     VariantsBuild.isVariantsLoading := false |}.

Definition nightTourApp (s : Session) : NightTourBuild.App :=
  {| NightTourBuild.session := s;
     NightTourBuild.summaryAudioBuffer := None;
     NightTourBuild.isSummaryLoading := false;
     NightTourBuild.showSummaryPlayer := false;
     NightTourBuild.nightVideoUrl := None;
     NightTourBuild.isNightVideoLoading := false |}.

(** Step 1 succeeds, then step 2 fails. *)
Definition variantsEvents : list VariantsBuild.Event :=
  [ VariantsBuild.EffectTriggered;
    VariantsBuild.StepImageSettled step1 (Some (img "ONE"));
    VariantsBuild.StepImageSettled step2 None ].

Definition nightTourEvents : list NightTourBuild.Event :=
  [ NightTourBuild.EffectTriggered;
    NightTourBuild.StepImageSettled step1 (Some (img "ONE"));
    NightTourBuild.StepImageSettled step2 None ].

End Scenario.

(** ** Vocabulary of the statements *)


(** Every key of the store is a plain numeral. *)
Definition plainKeys (visuals : gmap Z string) : Prop :=
  ∀ m, is_Some (visuals !! m) → plainKey m.


(** The step-image calls among [issued] that are still in flight when
    [settled] of them have settled. *)
Definition stepImagesInFlight (issued : list GatewayCall) (settled : nat)
    : nat :=
  (length (List.filter isStepImageCall issued) - settled)%nat.

(** The guard [isVideoLoading || videoUrl] of the effect. *)
Definition videoGate (a : VariantsBuild.App) : Prop :=
  VariantsBuild.isVideoLoading a = true ∨
  truthy (VariantsBuild.videoUrl a) = true.

(** Whether the synthesis call of a configuration returned an image. *)
Definition succeeded (gateway : VariantsBuild.VariantConfig → option string)
    (conf : VariantsBuild.VariantConfig) : bool :=
  bool_decide (is_Some (gateway conf)).

(** Whether the synthesis call of a configuration threw. *)
Definition failed (gateway : VariantsBuild.VariantConfig → option string)
    (conf : VariantsBuild.VariantConfig) : bool :=
  bool_decide (gateway conf = None).

(** A Gateway in which only the second configuration throws. *)
Definition eveningThrows (conf : VariantsBuild.VariantConfig) : option string :=
  if decide (VariantsBuild.configName conf = "Evening Ambience") then None
  else Some (Scenario.img (VariantsBuild.configName conf)).

(** Unfolds the write of the batch and splits on the three outcomes. *)
Ltac batch gateway :=
  unfold VariantsBuild.handleGenerateVariants_settled,
    VariantsBuild.variantConfigs, VariantsBuild.variantResult,
    succeeded, failed;
  cbn [map VariantsBuild.variants VariantsBuild.setVariants
       VariantsBuild.setIsVariantsLoading VariantsBuild.collectVariants
       foldl filter length VariantsBuild.configName];
  repeat match goal with
         | |- context [gateway ?c] =>
             let o := fresh "outcome" in
             let E := fresh "E" in
             destruct (gateway c) as [o|] eqn:E
         end.

(** [after] is [before] with the entries at [i] and [j] exchanged. *)
Definition swapped (i j : nat) (before after : list string) : Prop :=
  length after = length before ∧
  after !! i = before !! j ∧
  after !! j = before !! i ∧
  ∀ k, k ≠ i → k ≠ j → after !! k = before !! k.

(** The completion entries of substeps [i] and [j] of step [sIdx] are
    exchanged; every other entry reads as before. *)
Definition flagsSwapped (sIdx i j : nat)
    (before after : gmap string (option bool)) : Prop :=
  readFlag after (substepKey sIdx i) = readFlag before (substepKey sIdx j) ∧
  readFlag after (substepKey sIdx j) = readFlag before (substepKey sIdx i) ∧
  ∀ key, key ≠ substepKey sIdx i → key ≠ substepKey sIdx j →
         readFlag after key = readFlag before key.

(** The checklist of the example: substeps A, B, C of the first step with
    only B checked. *)
Definition checklistBefore : Session :=
  setCompletedSubsteps
    (λ _, <["0-0" := Some false]> (<["0-1" := Some true]>
            (<["0-2" := Some false]> ∅)))
    (Scenario.planned Scenario.threeStepPlan).


(** The substeps of step [sIdx] as the checklist renders them. *)
Definition substepsOf (s : Session) (sIdx : nat) : list string :=
  match plan s with
  | Some p => match steps p !! sIdx with
              | Some step => substeps step
              | None => []
              end
  | None => []
  end.

(** The user checks substep A of the first step. *)
Definition checkedFirst : Session :=
  toggleSubstep 0 0 (Scenario.planned Scenario.threeStepPlan).

(** The paint has been clicked once and its product image is still being
    generated. *)
Definition materialPending : Session :=
  (handleMaterialClick Scenario.paint
     (Scenario.planned Scenario.threeStepPlan)).1.

(** A summary has been generated and the player was closed. *)
Definition summaryCached : NightTourBuild.App :=
  NightTourBuild.setShowSummaryPlayer false
    (NightTourBuild.handleGenerateSummary_settled
       (Some [Byte.x01; Byte.x02])
       (NightTourBuild.handleGenerateSummary
          (Scenario.nightTourApp
             (Scenario.planned Scenario.threeStepPlan))).1).


(** ** Vocabulary of the further properties *)

(** The reference image of a step-image request. *)
Definition referenceImageOf (c : GatewayCall) : option string :=
  match c with
  | generateStepImage _ referenceImage _ _ => referenceImage
  | _ => None
  end.

(** [step] is the first step of the plan, in plan order, without a
    visual. *)
Definition firstPending (s : Session) (step : Step) : Prop :=
  ∃ p i,
    plan s = Some p ∧ steps p !! i = Some step ∧
    lacksVisual (stepVisuals s) step = true ∧
    ∀ j earlier, (j < i)%nat → steps p !! j = Some earlier →
                 lacksVisual (stepVisuals s) earlier = false.

(** The plan has steps and each of them has a visual. *)
Definition allVisualized (s : Session) : Prop :=
  ∃ p, plan s = Some p ∧ steps p ≠ [] ∧
       ∀ step, step ∈ steps p →
               truthy (stepVisuals s !! stepNumber step) = true.

(** The steps are numbered 1, 2, 3, ... in plan order. *)
Definition contiguous (l : list Step) : Prop :=
  ∀ i step, l !! i = Some step → stepNumber step = Z.of_nat i + 1.

(** The store holds a visual for each of the step numbers 1 to [m] and
    for nothing else. *)
Definition chainUpTo (m : Z) (visuals : gmap Z string) : Prop :=
  ∀ j, ((1 ≤ j ≤ m)%Z → truthy (visuals !! j) = true) ∧
       (¬ (1 ≤ j ≤ m)%Z → visuals !! j = None).

(** The store holds, for each of the first [k] steps of [l], the image
    the Gateway returned for it, and nothing else. *)
Definition resultsStored (gateway : Step → string) (l : list Step) (k : nat)
    (visuals : gmap Z string) : Prop :=
  ∀ j : Z,
    visuals !! j =
      if decide (1 ≤ j ≤ Z.of_nat k)%Z
      then gateway <$> (l !! Z.to_nat (j - 1))
      else None.

(** The events of an automatic run over the steps [l] in which every
    synthesis call succeeds: the first evaluation of the effect, then the
    calls settling one after the other. *)
Definition nightTourSuccessRun (gateway : Step → string) (l : list Step)
    : list NightTourBuild.Event :=
  NightTourBuild.EffectTriggered ::
  map (λ step, NightTourBuild.StepImageSettled step (Some (gateway step))) l.

Definition variantsSuccessRun (gateway : Step → string) (l : list Step)
    : list VariantsBuild.Event :=
  VariantsBuild.EffectTriggered ::
  map (λ step, VariantsBuild.StepImageSettled step (Some (gateway step))) l.

(** The step-image request of each build for [step] on [reference]. *)
Definition nightTourRequest (s : Session) (reference : option string)
    (step : Step) : GatewayCall :=
  generateStepImage (visualizationPrompt step) reference
    (Some {| lighting := None; cameraAngle := None |})
    (Some (NightTourBuild.previousContext s step)).

Definition variantsRequest (reference : option string) (step : Step)
    : GatewayCall :=
  generateStepImage (visualizationPrompt step) reference None None.

(** One request per step of [l]: the first on the image [first], each
    later one on the image the Gateway returned for the step before. *)
Definition chainedRequests (request : option string → Step → GatewayCall)
    (gateway : Step → string) (first : option string) (l : list Step)
    : list GatewayCall :=
  match l with
  | [] => []
  | step :: _ =>
      request first step ::
      zip_with (λ prev next, request (Some (gateway prev)) next) l (tail l)
  end.

(** The three requests of the variant batch on [image]. *)
Definition variantRequests (p : DIYPlan) (image : option string)
    : list GatewayCall :=
  map (λ conf, generateVariantImage image
                 (VariantsBuild.configAngle conf)
                 (VariantsBuild.configLighting conf)
                 (styleAnalysis p))
      VariantsBuild.variantConfigs.

(** Decimal digits, the characters of a printed array index. *)
Definition isDigit (c : Ascii.ascii) : bool :=
  let n := Ascii.nat_of_ascii c in ((48 <=? n) && (n <=? 57))%nat.

Fixpoint allDigits (s : string) : bool :=
  match s with
  | EmptyString => true
  | String c s' => isDigit c && allDigits s'
  end.

(** A step with its checklist blanked: what is left is all that image
    generation reads of it. *)
Definition withoutSubsteps (step : Step) : Step := set_substeps [] step.

(** [s'] differs from [s] at most in checklist texts, completion entries,
    the selected material and the material cache. *)
Definition sameGenerationInputs (s s' : Session) : Prop :=
  appState s' = appState s ∧
  currentImage s' = currentImage s ∧
  stepVisuals s' = stepVisuals s ∧
  generatingStepIndex s' = generatingStepIndex s ∧
  match plan s, plan s' with
  | Some p, Some p' =>
      set_steps [] p' = set_steps [] p ∧
      withoutSubsteps <$> steps p' = withoutSubsteps <$> steps p
  | None, None => True
  | _, _ => False
  end.

(** The result of a checklist handler, when it returns. *)
Definition returnedSession (c : Completion Session) (s : Session) : Session :=
  match c with Returned s' => s' | _ => s end.

Definition returnedEdit (c : Completion (Editing * Session)) (s : Session)
    : Session :=
  match c with Returned (_, s') => s' | _ => s end.

(** * Properties *)

(** ** The step visuals store *)

Lemma leadingDigit_digit (fuel : nat) (n : Z) :
  (1 ≤ n < 2 ^ Z.of_nat fuel)%Z → (1 ≤ leadingDigit fuel n ≤ 9)%Z.
Proof.
  revert n. induction fuel as [|fuel IH]; intros n Hn.
  - change (2 ^ Z.of_nat 0) with 1 in Hn. lia.
  - cbn [leadingDigit]. case_decide as Hsmall; [lia|].
    apply IH. rewrite Nat2Z.inj_succ, Z.pow_succ_r in Hn by lia.
    split.
    + apply Z.div_le_lower_bound; lia.
    + apply Z.div_lt_upper_bound; lia.
Qed.

Lemma firstDigit_digit (n : Z) : (1 ≤ n)%Z → (1 ≤ firstDigit n ≤ 9)%Z.
Proof.
  intros Hn. unfold firstDigit. apply leadingDigit_digit.
  rewrite Z2Nat.id by (pose proof (Z.log2_nonneg n); lia).
  split; [done|]. apply Z.log2_spec. lia.
Qed.

Lemma parseIntOfKey_plain (n : Z) : plainKey n → parseIntOfKey n = n.
Proof. intros H. unfold parseIntOfKey. by rewrite decide_True. Qed.

Lemma parseIntOfKey_exponent (n : Z) : ¬ plainKey n → plainKey (parseIntOfKey n).
Proof.
  intros H. unfold parseIntOfKey. rewrite decide_False by done.
  unfold plainKey in *.
  assert (Hpos : (1 ≤ Z.abs n)%Z) by lia.
  pose proof (firstDigit_digit (Z.abs n) Hpos) as Hdigit.
  generalize dependent (firstDigit (Z.abs n)). intros d Hdigit.
  destruct (Z.lt_trichotomy n 0) as [Hn|[Hn|Hn]].
  - rewrite Z.sgn_neg by done. lia.
  - rewrite Hn. simpl. lia.
  - rewrite Z.sgn_pos by done. lia.
Qed.

Section StepVisuals.

Variables (index : Z) (imageUrl : string).

Let prune (newState : gmap Z string) (keyNum : Z) : gmap Z string :=
  if decide (keyNum > index) then delete keyNum newState else newState.

Lemma foldl_prune_lookup (keys : list Z) (m : gmap Z string) (j : Z) :
  foldl prune m keys !! j =
    if decide (j ∈ keys ∧ j > index) then None else m !! j.
Proof.
  revert m. induction keys as [|key keys IH]; intros m; cbn [foldl].
  - rewrite decide_False; [done|]. intros [H _]. by apply elem_of_nil in H.
  - rewrite IH. unfold prune.
    destruct (decide (j ∈ keys ∧ j > index)) as [[Hin Hgt]|Hno].
    + rewrite decide_True; [done|]. split; [by right|done].
    + destruct (decide (key > index)) as [Hk|Hk].
      * destruct (decide (j = key)) as [->|Hne].
        -- rewrite lookup_delete_eq. rewrite decide_True; [done|].
           split; [by left|done].
        -- rewrite lookup_delete_ne by done.
           rewrite decide_False; [done|].
           intros [Hin Hgt]. apply elem_of_cons in Hin as [?|?]; tauto.
      * rewrite decide_False; [done|].
        intros [Hin Hgt]. apply elem_of_cons in Hin as [->|?]; tauto.
Qed.

(** The updater read pointwise, whatever [parseInt] reads from the keys in
    exponent form, as long as it is a number below [10^21] in magnitude:
    the written key, the plain keys above it, and the other keys. *)
Lemma stepVisualsUpdaterWith_lookup (parseInt : Z → Z)
    (prev : gmap Z string) (j : Z) :
  (∀ n, plainKey n → parseInt n = n) →
  (∀ n, ¬ plainKey n → plainKey (parseInt n)) →
  stepVisualsUpdaterWith parseInt index imageUrl prev !! j =
    if decide (j = index) then Some imageUrl
    else if decide (j > index ∧ plainKey j) then None
    else prev !! j.
Proof.
  intros Hplain Hexponent. unfold stepVisualsUpdaterWith.
  change (foldl _ ?m ?keys) with (foldl (λ acc key, prune acc (parseInt key)) m keys).
  rewrite <- (foldl_fmap prune _ _ parseInt), foldl_prune_lookup.
  assert (Hparsed : ∀ key, plainKey (parseInt key)).
  { intros key. destruct (decide (plainKey key)) as [H|H].
    - by rewrite Hplain.
    - by apply Hexponent. }
  destruct (decide (j = index)) as [->|Hne].
  - rewrite decide_False by lia. apply lookup_insert_eq.
  - rewrite lookup_insert_ne by done.
    destruct (decide (j > index ∧ plainKey j)) as [[Hgt Hj]|Hno].
    + case_decide as Hin; [done|].
      apply not_elem_of_dom. intros Hdom. apply Hin. split; [|done].
      apply elem_of_dom in Hdom as [x Hx].
      apply list_elem_of_fmap. exists j. split; [by rewrite Hplain|].
      apply list_elem_of_fmap. exists (j, x). split; [done|].
      by apply elem_of_map_to_list.
    + rewrite decide_False; [done|]. intros [Hin Hgt]. apply Hno.
      split; [done|].
      apply list_elem_of_fmap in Hin as (key & -> & _). apply Hparsed.
Qed.

Lemma stepVisualsUpdater_lookup (prev : gmap Z string) (j : Z) :
  stepVisualsUpdater index imageUrl prev !! j =
    if decide (j = index) then Some imageUrl
    else if decide (j > index ∧ plainKey j) then None
    else prev !! j.
Proof.
  apply stepVisualsUpdaterWith_lookup.
  - apply parseIntOfKey_plain.
  - apply parseIntOfKey_exponent.
Qed.

(** On a store whose keys are plain numerals no key above the written one
    is left. *)
Lemma stepVisualsUpdater_plain (prev : gmap Z string) (j : Z) :
  plainKeys prev →
  stepVisualsUpdater index imageUrl prev !! j =
    if decide (j = index) then Some imageUrl
    else if decide (j > index) then None
    else prev !! j.
Proof.
  intros Hkeys. rewrite stepVisualsUpdater_lookup.
  destruct (decide (j = index)); [done|].
  destruct (decide (j > index)) as [Hgt|Hle].
  - case_decide as Hj; [done|].
    destruct (prev !! j) eqn:E; [|done].
    exfalso. apply Hj. split; [done|]. apply Hkeys. by rewrite E.
  - rewrite decide_False; [done|]. tauto.
Qed.

End StepVisuals.





(** ** The orchestrator effect *)

Lemma variants_inflight_no_action (a : VariantsBuild.App) :
  generatingStepIndex (VariantsBuild.session a) ≠ None →
  VariantsBuild.orchestrator a = VariantsBuild.NoAction.
Proof.
  intros H. unfold VariantsBuild.orchestrator.
  destruct (plan _); [|done].
  destruct (negb _); [done|].
  by rewrite bool_decide_eq_true_2.
Qed.

Lemma nightTour_inflight_no_action (b : NightTourBuild.App) :
  generatingStepIndex (NightTourBuild.session b) ≠ None →
  NightTourBuild.orchestrator b = NightTourBuild.NoAction.
Proof.
  intros H. unfold NightTourBuild.orchestrator.
  destruct (plan _); [|done].
  destruct (negb _); [done|].
  by rewrite bool_decide_eq_true_2.
Qed.

Lemma variants_idle_triggers (a : VariantsBuild.App) (k : nat) :
  VariantsBuild.orchestrator a = VariantsBuild.NoAction →
  VariantsBuild.run (replicate k VariantsBuild.EffectTriggered) a = (a, []).
Proof.
  intros H. induction k as [|k IH]; [done|].
  cbn [replicate VariantsBuild.run VariantsBuild.dispatch].
  unfold VariantsBuild.runEffect at 1. rewrite H. by rewrite IH.
Qed.

Lemma nightTour_idle_triggers (b : NightTourBuild.App) (k : nat) :
  NightTourBuild.orchestrator b = NightTourBuild.NoAction →
  NightTourBuild.run (replicate k NightTourBuild.EffectTriggered) b = (b, []).
Proof.
  intros H. induction k as [|k IH]; [done|].
  cbn [replicate NightTourBuild.run NightTourBuild.dispatch].
  unfold NightTourBuild.runEffect at 1. rewrite H. by rewrite IH.
Qed.

(** C2 (the claim as worded fails). In the three-step plan, once step 1
    has its visual and the effect has put step 2 in flight, the visualizer
    of step 1 shows an enabled Regenerate button: [isGenerating] compares
    the marker with its own step only. The click issues a second
    step-image call while the call for step 2 has not settled, in both
    builds. *)
Theorem C2_counterexample :
  let options := Some {| lighting := Some "Match Reference";
                         cameraAngle := Some "Match Reference" |} in
  (let '(a, issued) :=
     VariantsBuild.run
       [ VariantsBuild.EffectTriggered;
         VariantsBuild.StepImageSettled Scenario.step1
           (Some (Scenario.img "ONE")) ]
       (Scenario.variantsApp (Scenario.planned Scenario.threeStepPlan)) in
   let click :=
     StepVisualizer.clickGenerate
       (stepVisualizerProps (VariantsBuild.session a) 0 Scenario.step1)
       StepVisualizer.initialState in
   generatingStepIndex (VariantsBuild.session a) = Some 2 ∧
   stepImagesInFlight issued 1 = 1%nat ∧
   click.2 = [ generateStepImage (visualizationPrompt Scenario.step1)
                 (Some "data:image/jpeg;base64,ROOM") options None ] ∧
   stepImagesInFlight (issued ++ click.2)%list 1 = 2%nat) ∧
  (let '(b, issued) :=
     NightTourBuild.run
       [ NightTourBuild.EffectTriggered;
         NightTourBuild.StepImageSettled Scenario.step1
           (Some (Scenario.img "ONE")) ]
       (Scenario.nightTourApp (Scenario.planned Scenario.threeStepPlan)) in
   let click :=
     StepVisualizer.clickGenerate
       (stepVisualizerProps (NightTourBuild.session b) 0 Scenario.step1)
       StepVisualizer.initialState in
   generatingStepIndex (NightTourBuild.session b) = Some 2 ∧
   stepImagesInFlight issued 1 = 1%nat ∧
   click.2 = [ generateStepImage (visualizationPrompt Scenario.step1)
                 (Some "data:image/jpeg;base64,ROOM") options None ] ∧
   stepImagesInFlight (issued ++ click.2)%list 1 = 2%nat).
Proof. split; vm_compute; split_and!; reflexivity. Qed.

(** C2 (amended). While a step generation is outstanding
    ([generatingStepIndex] is not null) an evaluation of the automatic
    sequencing effect changes nothing and issues no Gateway call, in either
    build. Hence, once a trigger has started the generation of a step, any
    number of further triggers arriving before it settles (two in
    particular) leave that one step-image call as the only call the effect
    has issued. *)
Theorem C2_single_flight
    (a : VariantsBuild.App) (b : NightTourBuild.App)
    (a0 : VariantsBuild.App) (b0 : NightTourBuild.App) (sa sb : Step)
    (Ha : generatingStepIndex (VariantsBuild.session a) ≠ None)
    (Hb : generatingStepIndex (NightTourBuild.session b) ≠ None)
    (Ha0 : VariantsBuild.orchestrator a0 = VariantsBuild.GenerateVisualForStep sa)
    (Hb0 : NightTourBuild.orchestrator b0 = NightTourBuild.GenerateVisualForStep sb)
    (k : nat) :
  VariantsBuild.runEffect a = (a, []) ∧
  NightTourBuild.runEffect b = (b, []) ∧
  VariantsBuild.run (replicate k VariantsBuild.EffectTriggered) a = (a, []) ∧
  NightTourBuild.run (replicate k NightTourBuild.EffectTriggered) b = (b, []) ∧
  (∃ call,
     VariantsBuild.run (replicate (S k) VariantsBuild.EffectTriggered) a0
       = ((VariantsBuild.generateVisualForStep sa a0).1, [call]) ∧
     isStepImageCall call = true ∧
     VariantsBuild.run (replicate 3 VariantsBuild.EffectTriggered) a0
       = ((VariantsBuild.generateVisualForStep sa a0).1, [call])) ∧
  (∃ call,
     NightTourBuild.run (replicate (S k) NightTourBuild.EffectTriggered) b0
       = ((NightTourBuild.generateVisualForStep sb b0).1, [call]) ∧
     isStepImageCall call = true ∧
     NightTourBuild.run (replicate 3 NightTourBuild.EffectTriggered) b0
       = ((NightTourBuild.generateVisualForStep sb b0).1, [call])).
Proof.
  assert (Hstart_a : ∀ n,
    VariantsBuild.run (replicate (S n) VariantsBuild.EffectTriggered) a0
    = ((VariantsBuild.generateVisualForStep sa a0).1,
       (VariantsBuild.generateVisualForStep sa a0).2)).
  { intros n. cbn [replicate VariantsBuild.run VariantsBuild.dispatch].
    unfold VariantsBuild.runEffect at 1. rewrite Ha0.
    unfold VariantsBuild.generateVisualForStep at 1.
    rewrite variants_idle_triggers; [done|].
    by apply variants_inflight_no_action. }
  assert (Hstart_b : ∀ n,
    NightTourBuild.run (replicate (S n) NightTourBuild.EffectTriggered) b0
    = ((NightTourBuild.generateVisualForStep sb b0).1,
       (NightTourBuild.generateVisualForStep sb b0).2)).
  { intros n. cbn [replicate NightTourBuild.run NightTourBuild.dispatch].
    unfold NightTourBuild.runEffect at 1. rewrite Hb0.
    unfold NightTourBuild.generateVisualForStep at 1.
    rewrite nightTour_idle_triggers; [done|].
    by apply nightTour_inflight_no_action. }
  split_and!.
  - unfold VariantsBuild.runEffect.
    by rewrite variants_inflight_no_action.
  - unfold NightTourBuild.runEffect.
    by rewrite nightTour_inflight_no_action.
  - by apply variants_idle_triggers, variants_inflight_no_action.
  - by apply nightTour_idle_triggers, nightTour_inflight_no_action.
  - eexists. split_and!; [apply Hstart_a|done|apply (Hstart_a 2%nat)].
  - eexists. split_and!; [apply Hstart_b|done|apply (Hstart_b 2%nat)].
Qed.

Lemma C2_single_flight_witness :
  let a := (VariantsBuild.generateVisualForStep Scenario.step1
              (Scenario.variantsApp (Scenario.planned Scenario.threeStepPlan))).1 in
  let b := (NightTourBuild.generateVisualForStep Scenario.step1
              (Scenario.nightTourApp (Scenario.planned Scenario.threeStepPlan))).1 in
  VariantsBuild.run (replicate 2 VariantsBuild.EffectTriggered) a = (a, []) ∧
  NightTourBuild.run (replicate 2 NightTourBuild.EffectTriggered) b = (b, []).
Proof.
  intros a b.
  pose proof (C2_single_flight a b
    (Scenario.variantsApp (Scenario.planned Scenario.threeStepPlan))
    (Scenario.nightTourApp (Scenario.planned Scenario.threeStepPlan))
    Scenario.step1 Scenario.step1) as H.
  destruct (H ltac:(done) ltac:(done) ltac:(reflexivity) ltac:(reflexivity) 2%nat)
    as (_ & _ & Hva & Hvb & _).
  exact (conj Hva Hvb).
Defined.

(** A failed attempt leaves the session as it was before the attempt. *)
Lemma variants_failure_restores (a : VariantsBuild.App) (step : Step) :
  generatingStepIndex (VariantsBuild.session a) = None →
  VariantsBuild.generateVisualForStep_settled step None
    (VariantsBuild.generateVisualForStep step a).1 = a.
Proof. destruct a as [[] ? ? ? ?]; simpl. by intros ->. Qed.

Lemma nightTour_failure_restores (b : NightTourBuild.App) (step : Step) :
  generatingStepIndex (NightTourBuild.session b) = None →
  NightTourBuild.generateVisualForStep_settled step None
    (NightTourBuild.generateVisualForStep step b).1 = b.
Proof. destruct b as [[] ? ? ? ? ?]; simpl. by intros ->. Qed.

Lemma variants_start_idle (a : VariantsBuild.App) (step : Step) :
  VariantsBuild.orchestrator a = VariantsBuild.GenerateVisualForStep step →
  generatingStepIndex (VariantsBuild.session a) = None.
Proof.
  unfold VariantsBuild.orchestrator. intros H.
  destruct (plan _); [|done].
  destruct (negb _); [done|].
  destruct (generatingStepIndex _); [|done].
  by rewrite bool_decide_eq_true_2 in H.
Qed.

Lemma nightTour_start_idle (b : NightTourBuild.App) (step : Step) :
  NightTourBuild.orchestrator b = NightTourBuild.GenerateVisualForStep step →
  generatingStepIndex (NightTourBuild.session b) = None.
Proof.
  unfold NightTourBuild.orchestrator. intros H.
  destruct (plan _); [|done].
  destruct (negb _); [done|].
  destruct (generatingStepIndex _); [|done].
  by rewrite bool_decide_eq_true_2 in H.
Qed.

(** C3 (what the code does). When the automatic attempt for a step fails,
    [finally] clears [generatingStepIndex]; that change makes React
    evaluate the effect again, and the effect selects the very same step
    and issues its synthesis call once more. In the three-step plan where
    step 1 succeeds and step 2 fails, the store holds only key 1 and no
    call is made for step 3, but step 2 has been requested twice and is
    in flight again: sequencing did not pause. *)
Theorem C3_failed_step_is_attempted_again
    (a : VariantsBuild.App) (b : NightTourBuild.App) (sa sb : Step)
    (Ha : VariantsBuild.orchestrator a = VariantsBuild.GenerateVisualForStep sa)
    (Hb : NightTourBuild.orchestrator b = NightTourBuild.GenerateVisualForStep sb) :
  VariantsBuild.dispatch (VariantsBuild.StepImageSettled sa None)
      (VariantsBuild.generateVisualForStep sa a).1
    = VariantsBuild.generateVisualForStep sa a ∧
  NightTourBuild.dispatch (NightTourBuild.StepImageSettled sb None)
      (NightTourBuild.generateVisualForStep sb b).1
    = NightTourBuild.generateVisualForStep sb b ∧
  (let '(final, calls) :=
     VariantsBuild.run Scenario.variantsEvents
       (Scenario.variantsApp (Scenario.planned Scenario.threeStepPlan)) in
   stepVisuals (VariantsBuild.session final) = {[ 1 := Scenario.img "ONE" ]} ∧
   generatingStepIndex (VariantsBuild.session final) = Some 2 ∧
   calls =
     [ generateStepImage (visualizationPrompt Scenario.step1)
         (Some "data:image/jpeg;base64,ROOM") None None;
       generateStepImage (visualizationPrompt Scenario.step2)
         (Some (Scenario.img "ONE")) None None;
       generateStepImage (visualizationPrompt Scenario.step2)
         (Some (Scenario.img "ONE")) None None ]) ∧
  (let '(final, calls) :=
     NightTourBuild.run Scenario.nightTourEvents
       (Scenario.nightTourApp (Scenario.planned Scenario.threeStepPlan)) in
   stepVisuals (NightTourBuild.session final) = {[ 1 := Scenario.img "ONE" ]} ∧
   generatingStepIndex (NightTourBuild.session final) = Some 2 ∧
   map visualizationPromptOf calls =
     [ visualizationPrompt Scenario.step1;
       visualizationPrompt Scenario.step2;
       visualizationPrompt Scenario.step2 ]).
Proof.
  split_and!.
  - pose proof Ha as H.
    pose proof (variants_start_idle _ _ H) as Hidle.
    cbn [VariantsBuild.dispatch VariantsBuild.storesVisual].
    rewrite variants_failure_restores by done.
    cbn [VariantsBuild.rerender].
    rewrite decide_False.
    2:{ intros [_ Hdeps]. revert Hdeps.
        unfold VariantsBuild.primitiveDeps. simpl. rewrite Hidle. congruence. }
    unfold VariantsBuild.runEffect at 1. rewrite H.
    destruct (VariantsBuild.generateVisualForStep sa a) as [next calls] eqn:E.
    assert (Hnext : VariantsBuild.orchestrator next = VariantsBuild.NoAction).
    { apply variants_inflight_no_action.
      unfold VariantsBuild.generateVisualForStep in E. by inversion E. }
    rewrite decide_False.
    2:{ intros [_ Hdeps]. revert Hdeps.
        unfold VariantsBuild.generateVisualForStep in E. inversion E.
        unfold VariantsBuild.primitiveDeps. simpl. rewrite Hidle. congruence. }
    unfold VariantsBuild.runEffect. rewrite Hnext.
    rewrite decide_True by done. by rewrite app_nil_r.
  - pose proof Hb as H.
    pose proof (nightTour_start_idle _ _ H) as Hidle.
    cbn [NightTourBuild.dispatch NightTourBuild.storesVisual].
    rewrite nightTour_failure_restores by done.
    cbn [NightTourBuild.rerender].
    rewrite decide_False.
    2:{ intros [_ Hdeps]. revert Hdeps.
        unfold NightTourBuild.primitiveDeps. simpl. rewrite Hidle. congruence. }
    unfold NightTourBuild.runEffect at 1. rewrite H.
    destruct (NightTourBuild.generateVisualForStep sb b) as [next calls] eqn:E.
    assert (Hnext : NightTourBuild.orchestrator next = NightTourBuild.NoAction).
    { apply nightTour_inflight_no_action.
      unfold NightTourBuild.generateVisualForStep in E. by inversion E. }
    rewrite decide_False.
    2:{ intros [_ Hdeps]. revert Hdeps.
        unfold NightTourBuild.generateVisualForStep in E. inversion E.
        unfold NightTourBuild.primitiveDeps. simpl. rewrite Hidle. congruence. }
    unfold NightTourBuild.runEffect. rewrite Hnext.
    rewrite decide_True by done. by rewrite app_nil_r.
  - vm_compute. split_and!; reflexivity.
  - vm_compute. split_and!; reflexivity.
Qed.

Lemma C3_failed_step_is_attempted_again_witness :
  let a := (VariantsBuild.run (firstn 2 Scenario.variantsEvents)
              (Scenario.variantsApp (Scenario.planned Scenario.threeStepPlan))).1 in
  let b := (NightTourBuild.run (firstn 2 Scenario.nightTourEvents)
              (Scenario.nightTourApp (Scenario.planned Scenario.threeStepPlan))).1 in
  generatingStepIndex (VariantsBuild.session a) = Some 2 ∧
  generatingStepIndex (NightTourBuild.session b) = Some 2 ∧
  (VariantsBuild.dispatch
     (VariantsBuild.StepImageSettled Scenario.step2 None) a).2
    = [ generateStepImage (visualizationPrompt Scenario.step2)
          (Some (Scenario.img "ONE")) None None ] ∧
  map visualizationPromptOf
    (NightTourBuild.dispatch
       (NightTourBuild.StepImageSettled Scenario.step2 None) b).2
    = [ visualizationPrompt Scenario.step2 ].
Proof.
  intros a b.
  pose (a1 := VariantsBuild.generateVisualForStep_settled Scenario.step1
                (Some (Scenario.img "ONE"))
                (VariantsBuild.generateVisualForStep Scenario.step1
                   (Scenario.variantsApp
                      (Scenario.planned Scenario.threeStepPlan))).1).
  pose (b1 := NightTourBuild.generateVisualForStep_settled Scenario.step1
                (Some (Scenario.img "ONE"))
                (NightTourBuild.generateVisualForStep Scenario.step1
                   (Scenario.nightTourApp
                      (Scenario.planned Scenario.threeStepPlan))).1).
  destruct (C3_failed_step_is_attempted_again a1 b1
              Scenario.step2 Scenario.step2
              ltac:(vm_compute; reflexivity) ltac:(vm_compute; reflexivity))
    as (Hva & Hvb & _).
  assert (Ea : a = (VariantsBuild.generateVisualForStep Scenario.step2 a1).1)
    by (vm_compute; reflexivity).
  assert (Eb : b = (NightTourBuild.generateVisualForStep Scenario.step2 b1).1)
    by (vm_compute; reflexivity).
  split_and!.
  - vm_compute; reflexivity.
  - vm_compute; reflexivity.
  - rewrite Ea, Hva. reflexivity.
  - rewrite Eb, Hvb. reflexivity.
Defined.

(** ** Invalidation of the derived artifacts *)

(** C4. Whatever step number [k] is written, [handleStepVisualGenerated]
    clears what the build derives from the final visual and has wired to
    it: the variants map in the variants/video build, the night tour video
    URL and the summary audio buffer in the audio/night-tour build. The
    same holds when the write comes from a successful automatic attempt or
    from a manual regenerate. *)
Theorem C4_derived_artifacts_cleared (k : Z) (image : string) (step : Step)
    (a : VariantsBuild.App) (b : NightTourBuild.App) :
  VariantsBuild.variants (VariantsBuild.handleStepVisualGenerated k image a) = ∅ ∧
  VariantsBuild.variants
    (VariantsBuild.generateVisualForStep_settled step (Some image) a) = ∅ ∧
  VariantsBuild.variants
    (VariantsBuild.manualGenerate_settled step (Some image) a) = ∅ ∧
  (let b' := NightTourBuild.handleStepVisualGenerated k image b in
   NightTourBuild.nightVideoUrl b' = None ∧
   NightTourBuild.summaryAudioBuffer b' = None) ∧
  (let b' := NightTourBuild.generateVisualForStep_settled step (Some image) b in
   NightTourBuild.nightVideoUrl b' = None ∧
   NightTourBuild.summaryAudioBuffer b' = None) ∧
  (let b' := NightTourBuild.manualGenerate_settled step (Some image) b in
   NightTourBuild.nightVideoUrl b' = None ∧
   NightTourBuild.summaryAudioBuffer b' = None).
Proof. by split_and!. Qed.

(** In the variants/video build the tour video is not among the cleared
    artifacts: a stored [videoUrl] and the loading flag survive the write. *)
Lemma variants_video_survives (k : Z) (image : string) (a : VariantsBuild.App) :
  VariantsBuild.videoUrl (VariantsBuild.handleStepVisualGenerated k image a)
    = VariantsBuild.videoUrl a ∧
  VariantsBuild.isVideoLoading (VariantsBuild.handleStepVisualGenerated k image a)
    = VariantsBuild.isVideoLoading a.
Proof. done. Qed.

(** ** The video gate of the variants/video build *)

Lemma videoGate_no_action (a : VariantsBuild.App) :
  videoGate a → VariantsBuild.orchestrator a = VariantsBuild.NoAction.
Proof.
  intros Hgate. unfold VariantsBuild.orchestrator.
  destruct (plan _); [|done].
  destruct (negb _); [done|].
  destruct (bool_decide _); [done|].
  destruct Hgate as [-> | ->]; [done|]. by rewrite orb_true_r.
Qed.

Lemma videoGate_runEffect (a : VariantsBuild.App) :
  videoGate a → VariantsBuild.runEffect a = (a, []).
Proof.
  intros H. unfold VariantsBuild.runEffect. by rewrite videoGate_no_action.
Qed.

Lemma videoGate_rerender (fuel : nat) (replaced : bool)
    (before after : VariantsBuild.App) :
  videoGate after →
  VariantsBuild.rerender fuel replaced before after = (after, []).
Proof.
  revert replaced before after.
  induction fuel as [|fuel IH]; intros replaced before after H.
  - done.
  - cbn [VariantsBuild.rerender]. case_decide; [done|].
    rewrite videoGate_runEffect by done. by rewrite IH.
Qed.

(** The events under which the gate is examined: effect evaluations,
    settled step images (automatic or manual) and settled variant
    batches, in any order. *)
Lemma videoGate_dispatch (e : VariantsBuild.Event) (a : VariantsBuild.App) :
  videoGate a →
  ∃ a', VariantsBuild.dispatch e a = (a', []) ∧ videoGate a'.
Proof.
  intros H. destruct e as [|step [url|]|step [url|]|gateway];
    cbn [VariantsBuild.dispatch].
  - rewrite videoGate_runEffect by done. eauto.
  - eexists. split; [apply videoGate_rerender|]; exact H.
  - eexists. split; [apply videoGate_rerender|]; exact H.
  - eexists. split; [apply videoGate_rerender|]; exact H.
  - eexists. split; [apply videoGate_rerender|]; exact H.
  - eexists. split; [apply videoGate_rerender|]; exact H.
Qed.

Lemma videoGate_run (events : list VariantsBuild.Event) (a : VariantsBuild.App) :
  videoGate a →
  ∃ a', VariantsBuild.run events a = (a', []) ∧ videoGate a'.
Proof.
  revert a. induction events as [|e events IH]; intros a H.
  - eexists. split; [reflexivity|done].
  - cbn [VariantsBuild.run].
    destruct (videoGate_dispatch e a H) as (a1 & -> & H1).
    destruct (IH a1 H1) as (a2 & -> & H2).
    eexists. split; [reflexivity|done].
Qed.

(** C10. In the variants/video build, whenever a tour video is in flight
    or cached ([isVideoLoading] is true or [videoUrl] is not null; a stored
    URL is an object URL, hence not empty), the automatic sequencing
    effect does nothing: no step generation, no variant batch, whatever
    the plan and the step visuals are. Step visuals invalidated while the
    video exists (by a manual regenerate of step [k]) are therefore never
    regenerated automatically: no later sequence of effect evaluations and
    settled requests issues a Gateway call. *)
Theorem C10_video_blocks_sequencing (a : VariantsBuild.App)
    (Hurl : ∀ url, VariantsBuild.videoUrl a = Some url → url ≠ "")
    (Hvideo : VariantsBuild.isVideoLoading a = true ∨
              VariantsBuild.videoUrl a ≠ None) :
  VariantsBuild.orchestrator a = VariantsBuild.NoAction ∧
  VariantsBuild.runEffect a = (a, []) ∧
  (∀ k image,
     VariantsBuild.orchestrator
       (VariantsBuild.handleStepVisualGenerated k image a)
     = VariantsBuild.NoAction) ∧
  (∀ k image events,
     (VariantsBuild.run events
        (VariantsBuild.handleStepVisualGenerated k image a)).2 = []).
Proof.
  assert (Hgate : videoGate a).
  { destruct Hvideo as [H|H]; [by left|right].
    destruct (VariantsBuild.videoUrl a) as [url|] eqn:E; [|done].
    simpl. unfold truthy_string. rewrite decide_False; [done|]. by apply Hurl. }
  assert (Hgate' : ∀ k image,
            videoGate (VariantsBuild.handleStepVisualGenerated k image a))
    by (intros; exact Hgate).
  split_and!.
  - by apply videoGate_no_action.
  - by apply videoGate_runEffect.
  - intros. by apply videoGate_no_action.
  - intros k image events.
    destruct (videoGate_run events _ (Hgate' k image)) as (a' & -> & _). done.
Qed.

Lemma C10_video_blocks_sequencing_witness :
  let cached :=
    VariantsBuild.setVideoUrl (Some "blob:https://app/4c1d")
      (Scenario.variantsApp (Scenario.planned Scenario.threeStepPlan)) in
  VariantsBuild.videoUrl cached ≠ None ∧
  VariantsBuild.runEffect cached = (cached, []).
Proof.
  intros cached. split; [done|].
  apply (C10_video_blocks_sequencing cached).
  - intros url [= <-]. done.
  - right. done.
Defined.

(** ** The variant batch *)

Lemma collected_lookup (gateway : VariantsBuild.VariantConfig → option string)
    (a : VariantsBuild.App) (conf : VariantsBuild.VariantConfig) :
  conf ∈ VariantsBuild.variantConfigs →
  VariantsBuild.variants
    (VariantsBuild.handleGenerateVariants_settled gateway a)
    !! VariantsBuild.configName conf = gateway conf.
Proof.
  intros Hin.
  unfold VariantsBuild.variantConfigs in Hin.
  repeat (apply elem_of_cons in Hin as [->|Hin]);
    [| | |by apply elem_of_nil in Hin];
    batch gateway; cbn [VariantsBuild.configName]; by simplify_map_eq.
Qed.

Lemma collected_other (gateway : VariantsBuild.VariantConfig → option string)
    (a : VariantsBuild.App) (key : string) :
  (∀ conf, conf ∈ VariantsBuild.variantConfigs →
           VariantsBuild.configName conf ≠ key) →
  VariantsBuild.variants
    (VariantsBuild.handleGenerateVariants_settled gateway a) !! key = None.
Proof.
  intros Hkey.
  apply list.Forall_forall in Hkey. unfold VariantsBuild.variantConfigs in Hkey.
  apply list.Forall_cons in Hkey as [H1 Hkey].
  apply list.Forall_cons in Hkey as [H2 Hkey].
  apply list.Forall_cons in Hkey as [H3 _].
  cbn [VariantsBuild.configName] in H1, H2, H3.
  batch gateway; by simplify_map_eq.
Qed.

Lemma collected_size (gateway : VariantsBuild.VariantConfig → option string)
    (a : VariantsBuild.App) :
  size (VariantsBuild.variants
          (VariantsBuild.handleGenerateVariants_settled gateway a))
    = length (filter (λ conf, succeeded gateway conf = true)
                VariantsBuild.variantConfigs) ∧
  (size (VariantsBuild.variants
           (VariantsBuild.handleGenerateVariants_settled gateway a))
   + length (filter (λ conf, failed gateway conf = true)
               VariantsBuild.variantConfigs) = 3)%nat.
Proof.
  unfold VariantsBuild.handleGenerateVariants_settled,
    VariantsBuild.variantConfigs, VariantsBuild.variantResult,
    succeeded, failed.
  rewrite !filter_cons, !filter_nil.
  cbn [map VariantsBuild.variants VariantsBuild.setVariants
       VariantsBuild.setIsVariantsLoading VariantsBuild.collectVariants foldl].
  repeat match goal with
         | |- context [gateway ?c] =>
             let o := fresh "outcome" in
             destruct (gateway c) as [o|]
         end; vm_compute; split; reflexivity.
Qed.

Lemma collected_dom (gateway : VariantsBuild.VariantConfig → option string)
    (a : VariantsBuild.App) :
  dom (VariantsBuild.variants
         (VariantsBuild.handleGenerateVariants_settled gateway a))
    =@{gset string}
  list_to_set (VariantsBuild.configName <$>
                 filter (λ conf, succeeded gateway conf = true)
                   VariantsBuild.variantConfigs).
Proof.
  unfold VariantsBuild.handleGenerateVariants_settled,
    VariantsBuild.variantConfigs, VariantsBuild.variantResult, succeeded.
  rewrite !filter_cons, !filter_nil.
  cbn [map VariantsBuild.variants VariantsBuild.setVariants
       VariantsBuild.setIsVariantsLoading VariantsBuild.collectVariants foldl].
  repeat match goal with
         | |- context [gateway ?c] =>
             let o := fresh "outcome" in
             destruct (gateway c) as [o|]
         end;
    cbn -[dom list_to_set]; rewrite ?dom_insert_L, ?dom_empty_L;
    cbn; set_solver.
Qed.

(** C5. In the variant batch each configuration fails alone. Whatever
    subset of the three synthesis calls throws, the map written at the end
    holds, under each configuration's name, exactly what its call returned
    (nothing for a call that threw), and its keys are the names of the
    succeeding configurations; so its size is the number of successes.
    The map is written once, when all calls have resolved: starting the
    batch leaves the prior set untouched and the final write does not
    depend on it. With one of the three calls throwing the map has
    exactly two entries. *)
Theorem C5_variant_failures_isolated
    (gateway : VariantsBuild.VariantConfig → option string)
    (a other : VariantsBuild.App) :
  Forall (λ conf,
            VariantsBuild.variants
              (VariantsBuild.handleGenerateVariants_settled gateway a)
              !! VariantsBuild.configName conf = gateway conf)
         VariantsBuild.variantConfigs ∧
  dom (VariantsBuild.variants
         (VariantsBuild.handleGenerateVariants_settled gateway a))
    =@{gset string}
    list_to_set (VariantsBuild.configName <$>
                   filter (λ conf, succeeded gateway conf = true)
                     VariantsBuild.variantConfigs) ∧
  size (VariantsBuild.variants
          (VariantsBuild.handleGenerateVariants_settled gateway a))
    = length (filter (λ conf, succeeded gateway conf = true)
                VariantsBuild.variantConfigs) ∧
  (size (VariantsBuild.variants
           (VariantsBuild.handleGenerateVariants_settled gateway a))
   + length (filter (λ conf, failed gateway conf = true)
               VariantsBuild.variantConfigs) = 3)%nat ∧
  VariantsBuild.variants (VariantsBuild.handleGenerateVariants a).1
    = VariantsBuild.variants a ∧
  VariantsBuild.variants
    (VariantsBuild.handleGenerateVariants_settled gateway a)
    = VariantsBuild.variants
        (VariantsBuild.handleGenerateVariants_settled gateway other) ∧
  length (VariantsBuild.handleGenerateVariants
            (Scenario.variantsApp (Scenario.planned Scenario.twoStepPlan))).2
    = 3%nat ∧
  size (VariantsBuild.variants
          (VariantsBuild.handleGenerateVariants_settled eveningThrows a))
    = 2%nat.
Proof.
  split_and!.
  - apply list.Forall_forall. intros conf Hin. by apply collected_lookup.
  - apply collected_dom.
  - apply collected_size.
  - apply collected_size.
  - unfold VariantsBuild.handleGenerateVariants.
    destruct (plan _); [|done]. by destruct (lastStep _).
  - reflexivity.
  - reflexivity.
  - reflexivity.
Qed.

(** ** Plan editing *)

Lemma substepKey_inj (sIdx i j : nat) :
  substepKey sIdx i = substepKey sIdx j → i = j.
Proof.
  unfold substepKey. intros H.
  apply (inj (String.append (pretty sIdx))) in H.
  apply (inj (String.append "-")) in H.
  by apply (inj pretty) in H.
Qed.

Lemma readFlag_insert (m : gmap string (option bool)) (key key' : string)
    (v : option bool) :
  readFlag (<[key := v]> m) key' = if decide (key = key') then v else readFlag m key'.
Proof.
  unfold readFlag. rewrite lookup_insert. by case_decide.
Qed.

Lemma swap_flags (sIdx i j : nat) (m : gmap string (option bool)) :
  i ≠ j →
  flagsSwapped sIdx i j m
    (<[substepKey sIdx j := readFlag m (substepKey sIdx i)]>
       (<[substepKey sIdx i := readFlag m (substepKey sIdx j)]> m)).
Proof.
  intros Hij.
  assert (Hkeys : substepKey sIdx i ≠ substepKey sIdx j)
    by (intros H; by apply substepKey_inj in H).
  repeat split; intros; rewrite !readFlag_insert.
  - rewrite decide_False by done. by rewrite decide_True.
  - by rewrite decide_True.
  - rewrite decide_False by done. by rewrite decide_False.
Qed.





(** C8 (what the code does). [deleteSubstep] removes the substep at the
    given index and writes nothing else: the completion map is the same
    map afterwards, for this step as for the others. So the entry of the
    deleted item stays under its index and is read for the substep that
    moves into that index: after A (checked) is deleted from A, B, C, the
    list is B, C and the checkbox of B, which was never checked, is on. *)
Theorem C8_deleted_flag_resurfaces (s : Session) (sIdx j : nat) :
  match deleteSubstep sIdx j s with
  | Returned s' =>
      completedSubsteps s' = completedSubsteps s ∧
      (∀ i k, isChecked s' i k = isChecked s i k) ∧
      substepsOf s' sIdx = delete j (substepsOf s sIdx) ∧
      stepVisuals s' = stepVisuals s
  | _ => True
  end ∧
  isChecked checkedFirst 0 0 = true ∧
  isChecked checkedFirst 0 1 = false ∧
  substepsOf checkedFirst 0 = ["A"; "B"; "C"] ∧
  ∃ s', deleteSubstep 0 0 checkedFirst = Returned s' ∧
        substepsOf s' 0 = ["B"; "C"] ∧
        isChecked s' 0 0 = true.
Proof.
  split_and!; try reflexivity.
  - unfold deleteSubstep, substepsOf.
    destruct (plan s) as [p|] eqn:Hplan.
    + destruct (steps p !! sIdx) as [step|] eqn:Hstep; [|done].
      split_and!; [done..| |done].
      cbn [plan setPlan set_steps steps].
      rewrite list_lookup_insert_eq by (by eapply lookup_lt_Some). done.
    + rewrite Hplan. split_and!; [done..| |done].
      by destruct j.
  - eexists. split_and!; reflexivity.
Qed.

(** ** Duplicate requests to the on-demand controllers *)

(** C6 as stated fails: a material request is issued again while the first
    one for the same material is outstanding, and a summary request is
    issued again although a summary buffer is cached. *)
Lemma C6_counterexample :
  generatingMaterialImage materialPending = true ∧
  (handleMaterialClick Scenario.paint materialPending).2
    = [generateProductImage "Wall paint" "Warm minimal"] ∧
  NightTourBuild.summaryAudioBuffer summaryCached
    = Some [Byte.x01; Byte.x02] ∧
  (NightTourBuild.clickPlaySummary summaryCached).2
    = [generateProjectSummaryAudio Scenario.threeStepPlan] ∧
  (NightTourBuild.handleGenerateSummary summaryCached).2
    = [generateProjectSummaryAudio Scenario.threeStepPlan].
Proof. split_and!; reflexivity. Qed.

(** C6 (amended). A material request for a name whose image is in the
    cache issues no Gateway call and leaves the cache as it is. A tour
    video request, in either build, issues no call and changes nothing
    while a video request is outstanding or a video URL is stored. The
    summary button issues no call while a summary request is
    outstanding. *)
Theorem C6_guarded_requests
    (s : Session) (item : Material) (url : string)
    (a : VariantsBuild.App) (b summary : NightTourBuild.App)
    (Hcached : materialImages s !! name item = Some url)
    (Hurl : url ≠ "")
    (Hvideo : VariantsBuild.isVideoLoading a = true ∨
              truthy (VariantsBuild.videoUrl a) = true)
    (Hnight : NightTourBuild.isNightVideoLoading b = true ∨
              truthy (NightTourBuild.nightVideoUrl b) = true)
    (Hsummary : NightTourBuild.isSummaryLoading summary = true) :
  (handleMaterialClick item s).2 = [] ∧
  materialImages (handleMaterialClick item s).1 = materialImages s ∧
  generatingMaterialImage (handleMaterialClick item s).1
    = generatingMaterialImage s ∧
  VariantsBuild.handleGenerateVideo a = Returned (a, []) ∧
  NightTourBuild.handleGenerateNightTour b = Returned (b, []) ∧
  NightTourBuild.clickPlaySummary summary = (summary, []).
Proof.
  assert (Htruthy : truthyEntry (materialImages s) (name item) = true).
  { unfold truthyEntry. rewrite Hcached. unfold truthy_string.
    by rewrite decide_False. }
  split_and!.
  - unfold handleMaterialClick.
    cbn [materialImages setSelectedMaterial]. by rewrite Htruthy.
  - unfold handleMaterialClick.
    cbn [materialImages setSelectedMaterial]. by rewrite Htruthy.
  - unfold handleMaterialClick.
    cbn [materialImages setSelectedMaterial]. by rewrite Htruthy.
  - unfold VariantsBuild.handleGenerateVideo.
    destruct (plan _); [|done].
    destruct Hvideo as [-> | ->]; [done|by rewrite orb_true_r].
  - unfold NightTourBuild.handleGenerateNightTour.
    destruct (plan _); [|done].
    destruct Hnight as [-> | ->]; [done|by rewrite orb_true_r].
  - unfold NightTourBuild.clickPlaySummary. by rewrite Hsummary.
Qed.

Lemma C6_guarded_requests_witness :
  let filled :=
    handleMaterialClick_settled Scenario.paint (Some (Scenario.img "PAINT"))
      materialPending in
  let video :=
    VariantsBuild.setVideoUrl (Some "blob:https://app/4c1d")
      (Scenario.variantsApp (Scenario.planned Scenario.threeStepPlan)) in
  let night :=
    NightTourBuild.setIsNightVideoLoading true
      (Scenario.nightTourApp (Scenario.planned Scenario.threeStepPlan)) in
  let summary :=
    (NightTourBuild.handleGenerateSummary
       (Scenario.nightTourApp (Scenario.planned Scenario.threeStepPlan))).1 in
  (handleMaterialClick Scenario.paint filled).2 = [] ∧
  VariantsBuild.handleGenerateVideo video = Returned (video, []) ∧
  NightTourBuild.handleGenerateNightTour night = Returned (night, []) ∧
  NightTourBuild.clickPlaySummary summary = (summary, []).
Proof.
  intros filled video night summary.
  destruct (C6_guarded_requests filled Scenario.paint (Scenario.img "PAINT")
              video night summary
              ltac:(reflexivity) ltac:(done)
              ltac:(right; reflexivity) ltac:(left; reflexivity)
              ltac:(reflexivity))
    as (H1 & _ & _ & H2 & H3 & H4).
  split_and!; assumption.
Defined.

(** ** Slideshow playback *)

Section Rounding.

Import SpecFloat.
Local Open Scope Z_scope.












End Rounding.




(** Where a quotient is rounded, the formula over numbers and the same
    formula over the rationals can give different images: with 22 images
    and 22 seconds of audio, [15/22] is rounded down, its product with 22
    is just below 15, and the frame at 15 seconds shows image 14. *)
Lemma rounded_progress :
  SummaryPlayer.animate (SummaryPlayer.ofZ 15) (SummaryPlayer.ofZ 0)
      (SummaryPlayer.ofZ 22) (replicate 22 "s")
    = (SummaryPlayer.Integer 14, true) ∧
  SummaryPlayer.exactIndex 15 22 22 = 15%Z.
Proof. split; vm_compute; reflexivity. Qed.

(** * Further properties *)

(** ** Which step the effect selects *)

Lemma find_Some_first {A} (P : A → bool) (l : list A) (x : A) :
  find P l = Some x →
  ∃ i, l !! i = Some x ∧ P x = true ∧
       ∀ j y, (j < i)%nat → l !! j = Some y → P y = false.
Proof.
  induction l as [|y l IH]; [done|]. cbn [find].
  destruct (P y) eqn:Hy.
  - intros [= ->]. exists 0%nat. split_and!; [done|done|]. intros; lia.
  - intros H. destruct (IH H) as (i & Hi & Hx & Hbefore).
    exists (S i). split_and!; [done|done|].
    intros [|j] z Hj Hz; [by injection Hz as <-|].
    apply (Hbefore j); [lia|done].
Qed.

Lemma find_first_at {A} (P : A → bool) (l : list A) (i : nat) (x : A) :
  l !! i = Some x → P x = true →
  (∀ j y, (j < i)%nat → l !! j = Some y → P y = false) →
  find P l = Some x.
Proof.
  revert i. induction l as [|y l IH]; intros i Hi Hx Hbefore; [done|].
  destruct i as [|i]; cbn [find].
  - injection Hi as ->. by rewrite Hx.
  - rewrite (Hbefore 0%nat y) by (done || lia).
    apply (IH i); [done|done|].
    intros j z Hj Hz. apply (Hbefore (S j)); [lia|done].
Qed.

Lemma find_None_all {A} (P : A → bool) (l : list A) :
  find P l = None ↔ ∀ y, y ∈ l → P y = false.
Proof.
  induction l as [|y l IH]; cbn [find].
  - split; [|done]. intros _ z Hz. by apply elem_of_nil in Hz.
  - destruct (P y) eqn:Hy.
    + split; [done|]. intros H. rewrite (H y) in Hy; [done|by left].
    + rewrite IH. split.
      * intros H z [->|Hz]%elem_of_cons; auto.
      * intros H z Hz. apply H. by right.
Qed.

(** X1. When the effect decides to generate a step, the session shows a
    plan (state [RESULT]), no step generation is marked in flight, and the
    selected step is the first step in plan order that has no visual:
    every step listed before it has one. In the variants/video build no
    video is loading or stored either. *)
Theorem X1_selected_step_is_first_pending
    (a : VariantsBuild.App) (b : NightTourBuild.App) (sa sb : Step)
    (Ha : VariantsBuild.orchestrator a = VariantsBuild.GenerateVisualForStep sa)
    (Hb : NightTourBuild.orchestrator b = NightTourBuild.GenerateVisualForStep sb) :
  (firstPending (VariantsBuild.session a) sa ∧
   appState (VariantsBuild.session a) = RESULT ∧
   generatingStepIndex (VariantsBuild.session a) = None ∧
   VariantsBuild.isVideoLoading a = false ∧
   truthy (VariantsBuild.videoUrl a) = false) ∧
  (firstPending (NightTourBuild.session b) sb ∧
   appState (NightTourBuild.session b) = RESULT ∧
   generatingStepIndex (NightTourBuild.session b) = None).
Proof.
  split.
  - pose proof (variants_start_idle _ _ Ha) as Hidle.
    unfold VariantsBuild.orchestrator in Ha.
    destruct (plan (VariantsBuild.session a)) as [p|] eqn:Hplan; [|done].
    destruct (appState (VariantsBuild.session a)) eqn:Hstate; try done.
    cbn [is_RESULT negb] in Ha.
    destruct (bool_decide _); [done|].
    destruct (VariantsBuild.isVideoLoading a) eqn:Hloading; [done|].
    destruct (truthy (VariantsBuild.videoUrl a)) eqn:Hurl; [done|].
    cbn [orb] in Ha.
    destruct (find _ _) as [nextStep|] eqn:Hfind.
    + injection Ha as ->.
      destruct (find_Some_first _ _ _ Hfind) as (i & Hi & Hlacks & Hbefore).
      split_and!; try done. by exists p, i.
    + destruct (isFinalStepVisualized _) as [[|]| |]; try done.
      by destruct (_ && _).
  - pose proof (nightTour_start_idle _ _ Hb) as Hidle.
    unfold NightTourBuild.orchestrator in Hb.
    destruct (plan (NightTourBuild.session b)) as [p|] eqn:Hplan; [|done].
    destruct (appState (NightTourBuild.session b)) eqn:Hstate; try done.
    cbn [is_RESULT negb] in Hb.
    destruct (bool_decide _); [done|].
    destruct (find _ _) as [nextStep|] eqn:Hfind; [|done].
    injection Hb as ->.
    destruct (find_Some_first _ _ _ Hfind) as (i & Hi & Hlacks & Hbefore).
    split_and!; try done. by exists p, i.
Qed.

Lemma X1_selected_step_is_first_pending_witness :
  firstPending
    (VariantsBuild.session
       (Scenario.variantsApp (Scenario.planned Scenario.threeStepPlan)))
    Scenario.step1 ∧
  firstPending
    (NightTourBuild.session
       (Scenario.nightTourApp (Scenario.planned Scenario.threeStepPlan)))
    Scenario.step1.
Proof.
  destruct (X1_selected_step_is_first_pending
              (Scenario.variantsApp (Scenario.planned Scenario.threeStepPlan))
              (Scenario.nightTourApp (Scenario.planned Scenario.threeStepPlan))
              Scenario.step1 Scenario.step1 eq_refl eq_refl)
    as ((Ha & _) & (Hb & _)).
  exact (conj Ha Hb).
Defined.

(** What the decision to start the variant batch tells about the state,
    and what the start does. *)
Lemma variant_batch_conditions (a : VariantsBuild.App)
    (Ha : VariantsBuild.orchestrator a = VariantsBuild.HandleGenerateVariants) :
  allVisualized (VariantsBuild.session a) ∧
  VariantsBuild.variants a = ∅ ∧
  VariantsBuild.isVariantsLoading a = false ∧
  generatingStepIndex (VariantsBuild.session a) = None ∧
  VariantsBuild.isVideoLoading a = false ∧
  truthy (VariantsBuild.videoUrl a) = false ∧
  ∃ p final image,
    plan (VariantsBuild.session a) = Some p ∧ lastStep p = Some final ∧
    stepVisuals (VariantsBuild.session a) !! stepNumber final = Some image ∧
    image ≠ "" ∧
    VariantsBuild.runEffect a
      = (VariantsBuild.setIsVariantsLoading true a,
         map (λ conf, generateVariantImage (Some image)
                        (VariantsBuild.configAngle conf)
                        (VariantsBuild.configLighting conf)
                        (styleAnalysis p))
             VariantsBuild.variantConfigs).
Proof.
  pose proof Ha as Hcopy.
  unfold VariantsBuild.orchestrator in Ha.
  destruct (plan (VariantsBuild.session a)) as [p|] eqn:Hplan; [|done].
  destruct (appState (VariantsBuild.session a)) eqn:Hstate; try done.
  cbn [is_RESULT negb] in Ha.
  destruct (generatingStepIndex (VariantsBuild.session a)) eqn:Hidle.
  { by rewrite bool_decide_eq_true_2 in Ha. }
  rewrite bool_decide_eq_false_2 in Ha by (intros H; by apply H).
  destruct (VariantsBuild.isVideoLoading a) eqn:Hloading; [done|].
  destruct (truthy (VariantsBuild.videoUrl a)) eqn:Hurl; [done|].
  cbn [orb] in Ha.
  destruct (find _ _) eqn:Hfind; [done|].
  unfold isFinalStepVisualized in Ha. rewrite Hplan in Ha.
  destruct (lastStep p) as [final|] eqn:Hlast; [|done].
  destruct (truthy (stepVisuals _ !! stepNumber final)) eqn:Hfinal; [|done].
  destruct (bool_decide (size _ = 0%nat)) eqn:Hsize; [|done].
  destruct (VariantsBuild.isVariantsLoading a) eqn:Hbatch; [done|].
  apply bool_decide_eq_true_1, map_size_empty_iff in Hsize.
  destruct (stepVisuals _ !! stepNumber final) as [image|] eqn:Himage; [|done].
  split_and!; try done.
  - exists p. split_and!; [done| |].
    + intros Hnil. unfold lastStep in Hlast. by rewrite Hnil in Hlast.
    + intros step Hstep.
      pose proof (proj1 (find_None_all _ _) Hfind step Hstep) as Hhas.
      unfold lacksVisual in Hhas. by apply negb_false_iff in Hhas.
  - exists p, final, image. split_and!; try done.
    + intros ->. done.
    + unfold VariantsBuild.runEffect. rewrite Hcopy.
      unfold VariantsBuild.handleGenerateVariants. rewrite Hplan, Hlast.
      cbn [VariantsBuild.session VariantsBuild.setIsVariantsLoading].
      by rewrite Himage.
Qed.

(** X2. The variant batch is started by the effect only on a completed
    chain: the plan has steps and every one of them has a visual, the
    variants map is empty, no batch is running, no step is in flight and no
    video is loading or stored. The start then issues one synthesis call
    per configuration, each on the visual of the last step, and sets
    [isVariantsLoading]. *)
Theorem X2_variant_batch_needs_complete_chain (a : VariantsBuild.App)
    (Ha : VariantsBuild.orchestrator a = VariantsBuild.HandleGenerateVariants) :
  allVisualized (VariantsBuild.session a) ∧
  VariantsBuild.variants a = ∅ ∧
  VariantsBuild.isVariantsLoading a = false ∧
  generatingStepIndex (VariantsBuild.session a) = None ∧
  VariantsBuild.isVideoLoading a = false ∧
  truthy (VariantsBuild.videoUrl a) = false ∧
  ∃ p final image,
    plan (VariantsBuild.session a) = Some p ∧ lastStep p = Some final ∧
    stepVisuals (VariantsBuild.session a) !! stepNumber final = Some image ∧
    image ≠ "" ∧
    VariantsBuild.runEffect a
      = (VariantsBuild.setIsVariantsLoading true a,
         map (λ conf, generateVariantImage (Some image)
                        (VariantsBuild.configAngle conf)
                        (VariantsBuild.configLighting conf)
                        (styleAnalysis p))
             VariantsBuild.variantConfigs).
Proof. exact (variant_batch_conditions a Ha). Qed.

Lemma X2_variant_batch_needs_complete_chain_witness :
  let visualized :=
    VariantsBuild.handleStepVisualGenerated 2 (Scenario.img "TWO")
      (VariantsBuild.handleStepVisualGenerated 1 (Scenario.img "ONE")
         (Scenario.variantsApp (Scenario.planned Scenario.twoStepPlan))) in
  allVisualized (VariantsBuild.session visualized) ∧
  length (VariantsBuild.runEffect visualized).2 = 3%nat.
Proof.
  intros visualized.
  destruct (X2_variant_batch_needs_complete_chain visualized
              ltac:(vm_compute; reflexivity))
    as (Hall & _ & _ & _ & _ & _ & p & final & image & _ & _ & _ & _ & Hrun).
  split; [exact Hall|]. rewrite Hrun. reflexivity.
Defined.

(** ** The chain of step visuals *)

(** The keys of a gap-free store of fewer than [10^21] visuals are plain
    numerals. *)
Lemma chain_plainKeys (m : Z) (visuals : gmap Z string) :
  chainUpTo m visuals → (m < 10 ^ 21)%Z → plainKeys visuals.
Proof.
  intros Hchain Hm j [image Hj]. unfold plainKey.
  destruct (decide (1 ≤ j ≤ m)%Z) as [Hin|Hout]; [lia|].
  by rewrite (proj2 (Hchain j) Hout) in Hj.
Qed.

(** Storing for a step of a gap-free store, or for the one after it. *)
Lemma chain_gap_free (m k : Z) (image : string)
    (visuals : gmap Z string)
    (Hchain : chainUpTo m visuals)
    (Hm : (m < 10 ^ 21)%Z)
    (Hk : (1 ≤ k ≤ m + 1)%Z)
    (Himage : image ≠ "") :
  chainUpTo k (stepVisualsUpdater k image visuals).
Proof.
  intros j.
  rewrite stepVisualsUpdater_plain by (by eapply chain_plainKeys).
  split.
  - intros Hj. destruct (decide (j = k)) as [->|Hne].
    + simpl. unfold truthy_string. by rewrite decide_False.
    + rewrite decide_False by lia. apply (Hchain j). lia.
  - intros Hj. rewrite decide_False by lia.
    destruct (decide (j > k)); [done|]. apply (Hchain j). lia.
Qed.

(** X3. A store that holds visuals for exactly the step numbers 1 to [m],
    with [m] below [10^21] as in every store that can be built, stays free
    of gaps when a non-empty image is stored for a step number [k] between
    1 and [m+1]: afterwards it holds visuals for exactly 1 to [k]. *)
Theorem X3_chain_stays_gap_free (m k : Z) (image : string)
    (visuals : gmap Z string)
    (Hchain : chainUpTo m visuals)
    (Hm : (m < 10 ^ 21)%Z)
    (Hk : (1 ≤ k ≤ m + 1)%Z)
    (Himage : image ≠ "") :
  chainUpTo k (stepVisualsUpdater k image visuals).
Proof. exact (chain_gap_free m k image visuals Hchain Hm Hk Himage). Qed.

Lemma X3_chain_stays_gap_free_witness :
  chainUpTo 2
    (stepVisualsUpdater 2 (Scenario.img "NEW")
       (<[1 := Scenario.img "ONE"]> (<[2 := Scenario.img "TWO"]>
          (<[3 := Scenario.img "THREE"]> ∅)))).
Proof.
  apply (X3_chain_stays_gap_free 3 2); [|lia|lia|done].
  intros j. split.
  - intros Hj. assert (j = 1 ∨ j = 2 ∨ j = 3) as [->|[->| ->]] by lia;
      reflexivity.
  - intros Hj. rewrite !lookup_insert_ne by lia. done.
Defined.

Section Chain.

Variables (gateway : Step → string) (l : list Step).
Hypothesis Hcontiguous : contiguous l.
Hypothesis Hnonempty : ∀ step, gateway step ≠ "".

Lemma resultsStored_empty : resultsStored gateway l 0 ∅.
Proof using Type.
  intros j. rewrite decide_False by lia. apply lookup_empty.
Qed.

Lemma resultsStored_at (k i : nat) (visuals : gmap Z string) (step : Step) :
  resultsStored gateway l k visuals → l !! i = Some step →
  visuals !! stepNumber step =
    if decide (i < k)%nat then Some (gateway step) else None.
Proof using Hcontiguous.
  intros Hstored Hi. rewrite (Hstored (stepNumber step)).
  rewrite (Hcontiguous i step Hi).
  destruct (decide (i < k)%nat).
  - rewrite decide_True by lia.
    replace (Z.to_nat (Z.of_nat i + 1 - 1)) with i by lia. by rewrite Hi.
  - by rewrite decide_False by lia.
Qed.

Lemma resultsStored_chain (k : nat) (visuals : gmap Z string) :
  (k ≤ length l)%nat → resultsStored gateway l k visuals →
  chainUpTo (Z.of_nat k) visuals.
Proof using Hnonempty.
  intros Hk Hstored j. rewrite (Hstored j). split; intros Hj.
  - rewrite decide_True by done.
    destruct (lookup_lt_is_Some_2 l (Z.to_nat (j - 1))) as [step ->]; [lia|].
    simpl. unfold truthy_string. by rewrite decide_False.
  - by rewrite decide_False.
Qed.

Lemma resultsStored_step (k : nat) (visuals : gmap Z string) (step : Step) :
  resultsStored gateway l k visuals → l !! k = Some step →
  resultsStored gateway l (S k)
    (stepVisualsUpdater (stepNumber step) (gateway step) visuals).
Proof using Hcontiguous.
  intros Hstored Hk j. rewrite stepVisualsUpdater_lookup.
  rewrite (Hcontiguous k step Hk).
  destruct (decide (j = Z.of_nat k + 1)) as [->|Hne].
  - rewrite decide_True by lia.
    replace (Z.to_nat (Z.of_nat k + 1 - 1)) with k by lia. by rewrite Hk.
  - rewrite (Hstored j). by repeat case_decide; try lia.
Qed.

Lemma pending_found (k : nat) (visuals : gmap Z string) (step : Step) :
  resultsStored gateway l k visuals → l !! k = Some step →
  find (lacksVisual visuals) l = Some step.
Proof using Hcontiguous Hnonempty.
  intros Hstored Hk. apply (find_first_at _ _ k); [done| |].
  - unfold lacksVisual. rewrite (resultsStored_at k k _ _ Hstored Hk).
    by rewrite decide_False by lia.
  - intros i earlier Hi Hearlier. unfold lacksVisual.
    rewrite (resultsStored_at k i _ _ Hstored Hearlier).
    rewrite decide_True by done. simpl. unfold truthy_string.
    by rewrite decide_False.
Qed.

Lemma nothing_pending (visuals : gmap Z string) :
  resultsStored gateway l (length l) visuals →
  find (lacksVisual visuals) l = None.
Proof using Hcontiguous Hnonempty.
  intros Hstored. apply find_None_all. intros step Hstep.
  apply list_elem_of_lookup in Hstep as [i Hi].
  unfold lacksVisual. rewrite (resultsStored_at _ i _ _ Hstored Hi).
  rewrite decide_True by (by eapply lookup_lt_Some).
  simpl. unfold truthy_string. by rewrite decide_False.
Qed.

Lemma context_of_first (s : Session) (step : Step) :
  l !! 0%nat = Some step → contextImage s step = currentImage s.
Proof using Hcontiguous.
  intros H0. unfold contextImage. rewrite (Hcontiguous 0%nat step H0).
  by rewrite decide_False by lia.
Qed.

Lemma context_of_next (s : Session) (k : nat) (prev step : Step) :
  resultsStored gateway l (S k) (stepVisuals s) →
  l !! k = Some prev → l !! S k = Some step →
  contextImage s step = Some (gateway prev).
Proof using Hcontiguous Hnonempty.
  intros Hstored Hprev Hstep. unfold contextImage.
  rewrite (Hcontiguous (S k) step Hstep).
  rewrite decide_True by lia.
  replace (Z.of_nat (S k) + 1 - 1)%Z with (stepNumber prev)
    by (rewrite (Hcontiguous k prev Hprev); lia).
  rewrite (resultsStored_at (S k) k _ _ Hstored Hprev).
  rewrite decide_True by lia. unfold truthy_string.
  by rewrite decide_False.
Qed.

End Chain.

(** ** A complete automatic run, audio/night-tour build *)

(** When a dependency has changed, the renders after an update come down
    to one evaluation of the effect: what the effect starts is marked in
    flight, and the evaluation that follows finds the marker. *)
Lemma nightTour_rerender_runs (replaced : bool)
    (before after : NightTourBuild.App) :
  replaced = true ∨
    NightTourBuild.primitiveDeps before ≠ NightTourBuild.primitiveDeps after →
  NightTourBuild.rerender 3 replaced before after
  = NightTourBuild.runEffect after.
Proof.
  intros Hchanged. cbn [NightTourBuild.rerender].
  rewrite decide_False.
  2:{ intros [Hkept Hdeps]. destruct Hchanged as [->|H]; [done|by apply H]. }
  destruct (NightTourBuild.runEffect after) as [next calls] eqn:Hrun.
  unfold NightTourBuild.runEffect in Hrun.
  destruct (NightTourBuild.orchestrator after) as [|step] eqn:Hact.
  - injection Hrun as <- <-. by rewrite decide_True.
  - pose proof (nightTour_start_idle _ _ Hact) as Hidle.
    unfold NightTourBuild.generateVisualForStep in Hrun.
    injection Hrun as <- <-.
    rewrite decide_False.
    2:{ intros [_ Hdeps]. revert Hdeps.
        unfold NightTourBuild.primitiveDeps. simpl. rewrite Hidle.
        congruence. }
    unfold NightTourBuild.runEffect.
    rewrite nightTour_inflight_no_action by done.
    by rewrite decide_True.
Qed.

Lemma nightTour_rerender_settled (replaced : bool)
    (before after : NightTourBuild.App) :
  generatingStepIndex (NightTourBuild.session before) ≠ None →
  generatingStepIndex (NightTourBuild.session after) = None →
  NightTourBuild.rerender 3 replaced before after
  = NightTourBuild.runEffect after.
Proof.
  intros Hbefore Hafter. apply nightTour_rerender_runs. right.
  unfold NightTourBuild.primitiveDeps. rewrite Hafter. congruence.
Qed.

Lemma nightTour_previousContext_plan (s s' : Session) (step : Step) :
  plan s = plan s' →
  NightTourBuild.previousContext s step = NightTourBuild.previousContext s' step.
Proof. unfold NightTourBuild.previousContext. by intros ->. Qed.

Section NightTourRun.

Variables (gateway : Step → string) (p : DIYPlan) (b0 : NightTourBuild.App).
Hypothesis Hcontiguous : contiguous (steps p).
Hypothesis Hnonempty : ∀ step, gateway step ≠ "".
Hypothesis Hplan0 : plan (NightTourBuild.session b0) = Some p.

(** What stays true along the run. *)
Let along (k : nat) (b : NightTourBuild.App) : Prop :=
  plan (NightTourBuild.session b) = Some p ∧
  appState (NightTourBuild.session b) = RESULT ∧
  currentImage (NightTourBuild.session b)
    = currentImage (NightTourBuild.session b0) ∧
  resultsStored gateway (steps p) k (stepVisuals (NightTourBuild.session b)).

Let callFor (reference : option string) (step : Step) : GatewayCall :=
  generateStepImage (visualizationPrompt step) reference
    (Some {| lighting := None; cameraAngle := None |})
    (Some (NightTourBuild.previousContext (NightTourBuild.session b0) step)).

Let settled (step : Step) : NightTourBuild.Event :=
  NightTourBuild.StepImageSettled step (Some (gateway step)).

Lemma nightTour_chain (rest : list Step) (k : nat) (b : NightTourBuild.App) :
  drop k (steps p) = rest → along k b →
  generatingStepIndex (NightTourBuild.session b) = stepNumber <$> head rest →
  ∃ final,
    NightTourBuild.run (map settled rest) b
      = (final,
         zip_with (λ prev next, callFor (Some (gateway prev)) next)
           rest (tail rest)) ∧
    along (length (steps p)) final ∧
    generatingStepIndex (NightTourBuild.session final) = None.
Proof using Hcontiguous Hnonempty Hplan0.
  revert k b. induction rest as [|step rest IH]; intros k b Hdrop Halong Hgen.
  - exists b. split_and!; [done| |done].
    assert (length (steps p) ≤ k)%nat as Hlen.
    { apply drop_nil_inv in Hdrop. lia. }
    destruct Halong as (? & ? & ? & Hstored). split_and!; [done..|].
    intros j. rewrite (Hstored j).
    destruct (decide (1 ≤ j ≤ Z.of_nat k)%Z) as [Hj|Hj].
    + destruct (decide (1 ≤ j ≤ Z.of_nat (length (steps p)))%Z); [done|].
      rewrite lookup_ge_None_2 by lia. done.
    + by rewrite decide_False by lia.
  - assert (Hk : steps p !! k = Some step).
    { rewrite <- (Nat.add_0_r k), <- lookup_drop, Hdrop. done. }
    assert (Hdrop' : drop (S k) (steps p) = rest).
    { replace (S k) with (k + 1)%nat by lia.
      rewrite <- drop_drop, Hdrop. done. }
    destruct Halong as (Hplan & Hstate & Himage & Hstored).
    cbn [head fmap option_fmap option_map] in Hgen.
    pose (after := NightTourBuild.generateVisualForStep_settled step
                     (Some (gateway step)) b).
    assert (Halong' : along (S k) after).
    { split_and!; [done..|]. subst after. simpl.
      by apply resultsStored_step. }
    cbn [map NightTourBuild.run NightTourBuild.dispatch settled].
    fold after.
    rewrite nightTour_rerender_settled; [|by rewrite Hgen|done].
    unfold NightTourBuild.runEffect, NightTourBuild.orchestrator.
    destruct Halong' as (Hplan' & Hstate' & Himage' & Hstored').
    rewrite Hplan', Hstate'. cbn [is_RESULT negb].
    rewrite bool_decide_eq_false_2 by (intros H; by apply H).
    destruct rest as [|next rest'].
    + assert (S k = length (steps p)) as Hlen.
      { apply drop_nil_inv in Hdrop'.
        pose proof (lookup_lt_Some _ _ _ Hk). lia. }
      rewrite (nothing_pending gateway (steps p)); [|done|done|by rewrite <- Hlen].
      exists after. split_and!; [done| |done].
      rewrite <- Hlen. by split_and!.
    + assert (Hnext : steps p !! S k = Some next).
      { rewrite <- (Nat.add_0_r (S k)), <- lookup_drop, Hdrop'. done. }
      rewrite (pending_found gateway (steps p) Hcontiguous Hnonempty
                 (S k) _ next Hstored' Hnext).
      unfold NightTourBuild.generateVisualForStep at 1.
      set (inflight := NightTourBuild.onSession _ after).
      destruct (IH (S k) inflight Hdrop') as (final & Hrun & Hfinal & Hidle).
      { by split_and!. }
      { done. }
      exists final. split_and!; [|done|done].
      rewrite Hrun. cbn [zip_with tail app]. f_equal. f_equal.
      unfold callFor. f_equal.
      * by apply (context_of_next gateway (steps p) Hcontiguous Hnonempty _ k).
      * f_equal. apply nightTour_previousContext_plan.
        by rewrite Hplan', Hplan0.
Qed.

End NightTourRun.

(** X4. Audio/night-tour build, a plan whose steps are numbered 1, 2, ...
    in order, an empty store, and a Gateway whose every step-image call
    returns a non-empty image: the automatic run (the first evaluation of
    the effect, then each call settling) issues exactly one request per
    step, in plan order, the first on the uploaded current-state image and
    each later one on the image returned for the step before; at the end
    the store holds exactly the returned image of every step (keys 1 to N,
    no gaps), no step is in flight and the effect is idle. *)
Theorem X4_nightTour_complete_run
    (gateway : Step → string) (p : DIYPlan) (b0 : NightTourBuild.App)
    (Hplan : plan (NightTourBuild.session b0) = Some p)
    (Hstate : appState (NightTourBuild.session b0) = RESULT)
    (Hidle : generatingStepIndex (NightTourBuild.session b0) = None)
    (Hempty : stepVisuals (NightTourBuild.session b0) = ∅)
    (Hcontiguous : contiguous (steps p))
    (Hnonempty : ∀ step, gateway step ≠ "") :
  ∃ final,
    NightTourBuild.run (nightTourSuccessRun gateway (steps p)) b0
      = (final,
         chainedRequests (nightTourRequest (NightTourBuild.session b0))
           gateway (currentImage (NightTourBuild.session b0)) (steps p)) ∧
    resultsStored gateway (steps p) (length (steps p))
      (stepVisuals (NightTourBuild.session final)) ∧
    chainUpTo (Z.of_nat (length (steps p)))
      (stepVisuals (NightTourBuild.session final)) ∧
    generatingStepIndex (NightTourBuild.session final) = None ∧
    NightTourBuild.orchestrator final = NightTourBuild.NoAction.
Proof.
  assert (Hdone : ∀ final,
    plan (NightTourBuild.session final) = Some p →
    resultsStored gateway (steps p) (length (steps p))
      (stepVisuals (NightTourBuild.session final)) →
    NightTourBuild.orchestrator final = NightTourBuild.NoAction).
  { intros final Hp Hstored. unfold NightTourBuild.orchestrator.
    rewrite Hp. destruct (negb _); [done|]. destruct (bool_decide _); [done|].
    by rewrite (nothing_pending gateway (steps p)). }
  unfold nightTourSuccessRun.
  cbn [NightTourBuild.run NightTourBuild.dispatch].
  unfold NightTourBuild.runEffect, NightTourBuild.orchestrator.
  rewrite Hplan, Hstate, Hidle. cbn [is_RESULT negb].
  rewrite bool_decide_eq_false_2 by (intros H; by apply H).
  assert (Hstored0 : resultsStored gateway (steps p) 0
                       (stepVisuals (NightTourBuild.session b0))).
  { rewrite Hempty. apply resultsStored_empty. }
  destruct (steps p) as [|first rest] eqn:Hsteps.
  - cbn [find map NightTourBuild.run]. exists b0.
    split_and!; [done|done| |done|].
    + by apply (resultsStored_chain gateway []).
    + apply Hdone; [done|]. exact Hstored0.
  - rewrite <- Hsteps in *.
    assert (Hfirst : steps p !! 0%nat = Some first) by by rewrite Hsteps.
    rewrite (pending_found gateway (steps p) Hcontiguous Hnonempty
               0 _ first Hstored0 Hfirst).
    unfold NightTourBuild.generateVisualForStep at 1.
    set (inflight := NightTourBuild.onSession _ b0).
    destruct (nightTour_chain gateway p b0 Hcontiguous Hnonempty Hplan
                (steps p) 0 inflight)
      as (final & Hrun & (Hp & _ & _ & Hstored) & Hfinal).
    { done. }
    { by split_and!. }
    { by rewrite Hsteps. }
    exists final. rewrite Hrun. split_and!; [|done| |done|by apply Hdone].
    + rewrite (context_of_first (steps p) Hcontiguous _ first Hfirst).
      unfold chainedRequests, nightTourRequest. rewrite Hsteps. reflexivity.
    + by apply (resultsStored_chain gateway (steps p)).
Qed.

Lemma X4_nightTour_complete_run_witness :
  let gateway := λ step : Step, Scenario.img (title step) in
  ∃ final,
    (NightTourBuild.run
       (nightTourSuccessRun gateway (steps Scenario.threeStepPlan))
       (Scenario.nightTourApp (Scenario.planned Scenario.threeStepPlan))).1
      = final ∧
    stepVisuals (NightTourBuild.session final) !! 3
      = Some (Scenario.img "Hang the shelves") ∧
    stepVisuals (NightTourBuild.session final) !! 4 = None.
Proof.
  intros gateway.
  destruct (X4_nightTour_complete_run gateway Scenario.threeStepPlan
              (Scenario.nightTourApp (Scenario.planned Scenario.threeStepPlan))
              eq_refl eq_refl eq_refl eq_refl)
    as (final & Hrun & Hstored & _).
  - intros [|[|[|i]]] step [= <-]; reflexivity.
  - intros step. done.
  - exists final. rewrite Hrun. split_and!; [done| |].
    + rewrite (Hstored 3). reflexivity.
    + rewrite (Hstored 4). reflexivity.
Defined.

(** ** A complete automatic run, variants/video build *)

Lemma variants_loading_idle (a : VariantsBuild.App) :
  VariantsBuild.orchestrator a = VariantsBuild.HandleGenerateVariants →
  VariantsBuild.orchestrator (VariantsBuild.setIsVariantsLoading true a)
    = VariantsBuild.NoAction.
Proof.
  unfold VariantsBuild.orchestrator.
  cbn [VariantsBuild.session VariantsBuild.setIsVariantsLoading
       VariantsBuild.isVideoLoading VariantsBuild.videoUrl
       VariantsBuild.variants VariantsBuild.isVariantsLoading].
  destruct (plan _); [|done]. destruct (negb _); [done|].
  destruct (bool_decide _); [done|]. destruct (_ || _); [done|].
  destruct (find _ _); [done|].
  destruct (isFinalStepVisualized _) as [[|]| |]; try done.
  by rewrite andb_false_r.
Qed.

(** When a dependency has changed, the renders after an update come down
    to one evaluation of the effect: what the effect starts is marked in
    flight or loading, and the evaluation that follows finds the marker. *)
Lemma variants_rerender_runs (replaced : bool)
    (before after : VariantsBuild.App) :
  replaced = true ∨
    VariantsBuild.primitiveDeps before ≠ VariantsBuild.primitiveDeps after →
  VariantsBuild.rerender 3 replaced before after
  = VariantsBuild.runEffect after.
Proof.
  intros Hchanged. cbn [VariantsBuild.rerender].
  rewrite decide_False.
  2:{ intros [Hkept Hdeps]. destruct Hchanged as [->|H]; [done|by apply H]. }
  destruct (VariantsBuild.runEffect after) as [next calls] eqn:Hrun.
  unfold VariantsBuild.runEffect in Hrun.
  destruct (VariantsBuild.orchestrator after) as [|step| |] eqn:Hact.
  - injection Hrun as <- <-. by rewrite decide_True.
  - pose proof (variants_start_idle _ _ Hact) as Hidle.
    unfold VariantsBuild.generateVisualForStep in Hrun.
    injection Hrun as <- <-.
    rewrite decide_False.
    2:{ intros [_ Hdeps]. revert Hdeps.
        unfold VariantsBuild.primitiveDeps. simpl. rewrite Hidle.
        congruence. }
    unfold VariantsBuild.runEffect.
    rewrite variants_inflight_no_action by done.
    by rewrite decide_True.
  - destruct (variant_batch_conditions after Hact)
      as (_ & _ & Hbatch & _ & _ & _ & p & final & image & _ & _ & _ & _ & Hstart).
    unfold VariantsBuild.runEffect in Hstart. rewrite Hact, Hrun in Hstart.
    injection Hstart as -> ->.
    rewrite decide_False.
    2:{ intros [_ Hdeps]. revert Hdeps.
        unfold VariantsBuild.primitiveDeps. simpl. rewrite Hbatch.
        congruence. }
    unfold VariantsBuild.runEffect.
    rewrite variants_loading_idle by done.
    by rewrite decide_True.
  - injection Hrun as <- <-. by rewrite decide_True.
Qed.

Lemma variants_rerender_settled (replaced : bool)
    (before after : VariantsBuild.App) :
  generatingStepIndex (VariantsBuild.session before) ≠ None →
  generatingStepIndex (VariantsBuild.session after) = None →
  VariantsBuild.rerender 3 replaced before after
  = VariantsBuild.runEffect after.
Proof.
  intros Hbefore Hafter. apply variants_rerender_runs. right.
  unfold VariantsBuild.primitiveDeps. rewrite Hafter. congruence.
Qed.

Section VariantsRun.

Variables (gateway : Step → string) (p : DIYPlan) (a0 : VariantsBuild.App).
Variable lastOfPlan : Step.
Hypothesis Hcontiguous : contiguous (steps p).
Hypothesis Hnonempty : ∀ step, gateway step ≠ "".
Hypothesis Hlast : lastStep p = Some lastOfPlan.

Let along (k : nat) (a : VariantsBuild.App) : Prop :=
  plan (VariantsBuild.session a) = Some p ∧
  appState (VariantsBuild.session a) = RESULT ∧
  currentImage (VariantsBuild.session a)
    = currentImage (VariantsBuild.session a0) ∧
  resultsStored gateway (steps p) k (stepVisuals (VariantsBuild.session a)) ∧
  VariantsBuild.isVideoLoading a = false ∧
  VariantsBuild.videoUrl a = None ∧
  VariantsBuild.isVariantsLoading a = false.

Let settled (step : Step) : VariantsBuild.Event :=
  VariantsBuild.StepImageSettled step (Some (gateway step)).

Lemma variants_chain (rest : list Step) (step : Step) (k : nat)
    (a : VariantsBuild.App) :
  drop k (steps p) = step :: rest → along k a →
  generatingStepIndex (VariantsBuild.session a) = Some (stepNumber step) →
  ∃ final,
    VariantsBuild.run (map settled (step :: rest)) a
      = (final,
         (zip_with (λ prev next, variantsRequest (Some (gateway prev)) next)
            (step :: rest) rest
          ++ variantRequests p (Some (gateway lastOfPlan)))%list) ∧
    resultsStored gateway (steps p) (length (steps p))
      (stepVisuals (VariantsBuild.session final)) ∧
    generatingStepIndex (VariantsBuild.session final) = None ∧
    VariantsBuild.variants final = ∅ ∧
    VariantsBuild.isVariantsLoading final = true ∧
    VariantsBuild.orchestrator final = VariantsBuild.NoAction.
Proof using Hcontiguous Hnonempty Hlast.
  revert step k a.
  induction rest as [|next rest IH]; intros step k a Hdrop Halong Hgen.
  all: assert (Hk : steps p !! k = Some step)
         by (rewrite <- (Nat.add_0_r k), <- lookup_drop, Hdrop; done).
  all: assert (Hdrop' : drop (S k) (steps p) = tail (step :: _))
         by (replace (S k) with (k + 1)%nat by lia;
             rewrite <- drop_drop, Hdrop; done).
  all: destruct Halong as (Hplan & Hstate & Himage & Hstored & Hv1 & Hv2 & Hv3).
  all: pose (after := VariantsBuild.generateVisualForStep_settled step
                        (Some (gateway step)) a).
  all: assert (Hstored' : resultsStored gateway (steps p) (S k)
                            (stepVisuals (VariantsBuild.session after)))
         by (subst after; simpl; by apply resultsStored_step).
  all: cbn [map VariantsBuild.run VariantsBuild.dispatch settled tail] in *.
  all: fold after.
  all: rewrite variants_rerender_settled; [|by rewrite Hgen|done].
  - assert (S k = length (steps p)) as Hlen.
    { apply drop_nil_inv in Hdrop'.
      pose proof (lookup_lt_Some _ _ _ Hk). lia. }
    assert (step = lastOfPlan) as ->.
    { unfold lastStep in Hlast. rewrite <- Hlen in Hlast.
      replace (S k - 1)%nat with k in Hlast by lia. congruence. }
    assert (Himg : stepVisuals (VariantsBuild.session after)
                     !! stepNumber lastOfPlan = Some (gateway lastOfPlan)).
    { rewrite (resultsStored_at gateway (steps p) Hcontiguous (S k) k _ _
                 Hstored' Hk). by rewrite decide_True by lia. }
    assert (Hact : VariantsBuild.orchestrator after
                   = VariantsBuild.HandleGenerateVariants).
    { unfold VariantsBuild.orchestrator.
      replace (plan (VariantsBuild.session after)) with (Some p) by done.
      replace (appState (VariantsBuild.session after)) with RESULT by done.
      cbn [is_RESULT negb].
      rewrite bool_decide_eq_false_2 by (intros H; by apply H).
      replace (VariantsBuild.isVideoLoading after) with false by done.
      replace (VariantsBuild.videoUrl after) with (@None string) by done.
      cbn [orb truthy].
      rewrite (nothing_pending gateway (steps p));
        [|done|done|by rewrite <- Hlen].
      unfold isFinalStepVisualized.
      replace (plan (VariantsBuild.session after)) with (Some p) by done.
      rewrite Hlast, Himg. simpl. unfold truthy_string.
      rewrite decide_False by done.
      rewrite Hv3. by rewrite map_size_empty. }
    unfold VariantsBuild.runEffect. rewrite Hact.
    unfold VariantsBuild.handleGenerateVariants.
    replace (plan (VariantsBuild.session after)) with (Some p) by done.
    rewrite Hlast.
    cbn [VariantsBuild.session VariantsBuild.setIsVariantsLoading].
    rewrite Himg.
    eexists. split_and!; [reflexivity| | | | |].
    + rewrite <- Hlen. exact Hstored'.
    + done.
    + done.
    + done.
    + by apply variants_loading_idle.
  - assert (Hnext : steps p !! S k = Some next).
    { rewrite <- (Nat.add_0_r (S k)), <- lookup_drop, Hdrop'. done. }
    unfold VariantsBuild.runEffect, VariantsBuild.orchestrator.
    replace (plan (VariantsBuild.session after)) with (Some p) by done.
    replace (appState (VariantsBuild.session after)) with RESULT by done.
    cbn [is_RESULT negb].
    rewrite bool_decide_eq_false_2 by (intros H; by apply H).
    replace (VariantsBuild.isVideoLoading after) with false by done.
    replace (VariantsBuild.videoUrl after) with (@None string) by done.
    cbn [orb truthy].
    rewrite (pending_found gateway (steps p) Hcontiguous Hnonempty
               (S k) _ next Hstored' Hnext).
    unfold VariantsBuild.generateVisualForStep at 1.
    set (inflight := VariantsBuild.onSession _ after).
    destruct (IH next (S k) inflight Hdrop') as (final & Hrun & Hrest).
    { by split_and!. }
    { done. }
    exists final. split; [|exact Hrest].
    cbn [map] in Hrun. rewrite Hrun. cbn [zip_with app]. f_equal. f_equal.
    unfold variantsRequest. f_equal.
    by apply (context_of_next gateway (steps p) Hcontiguous Hnonempty _ k).
Qed.

End VariantsRun.

(** X5. Variants/video build, under the same conditions (steps numbered
    1, 2, ... in order, at least one step, empty store, every step-image
    call returning a non-empty image, no video and no batch around): the
    automatic run issues one request per step, in plan order and each on
    the image of the step before, and is followed at once by the three
    variant requests on the image of the last step; the store then holds
    exactly the returned image of every step, the variants map is empty
    and its batch is marked as loading, and the effect is idle. *)
Theorem X5_variants_complete_run
    (gateway : Step → string) (p : DIYPlan) (a0 : VariantsBuild.App)
    (lastOfPlan : Step)
    (Hplan : plan (VariantsBuild.session a0) = Some p)
    (Hstate : appState (VariantsBuild.session a0) = RESULT)
    (Hidle : generatingStepIndex (VariantsBuild.session a0) = None)
    (Hempty : stepVisuals (VariantsBuild.session a0) = ∅)
    (Hvideo : VariantsBuild.isVideoLoading a0 = false)
    (Hurl : VariantsBuild.videoUrl a0 = None)
    (Hbatch : VariantsBuild.isVariantsLoading a0 = false)
    (Hlast : lastStep p = Some lastOfPlan)
    (Hcontiguous : contiguous (steps p))
    (Hnonempty : ∀ step, gateway step ≠ "") :
  ∃ final,
    VariantsBuild.run (variantsSuccessRun gateway (steps p)) a0
      = (final,
         (chainedRequests variantsRequest gateway
            (currentImage (VariantsBuild.session a0)) (steps p)
          ++ variantRequests p (Some (gateway lastOfPlan)))%list) ∧
    resultsStored gateway (steps p) (length (steps p))
      (stepVisuals (VariantsBuild.session final)) ∧
    chainUpTo (Z.of_nat (length (steps p)))
      (stepVisuals (VariantsBuild.session final)) ∧
    generatingStepIndex (VariantsBuild.session final) = None ∧
    VariantsBuild.variants final = ∅ ∧
    VariantsBuild.isVariantsLoading final = true ∧
    VariantsBuild.orchestrator final = VariantsBuild.NoAction.
Proof.
  unfold variantsSuccessRun.
  cbn [VariantsBuild.run VariantsBuild.dispatch].
  unfold VariantsBuild.runEffect, VariantsBuild.orchestrator.
  rewrite Hplan, Hstate, Hidle, Hvideo, Hurl. cbn [is_RESULT negb orb truthy].
  rewrite bool_decide_eq_false_2 by (intros H; by apply H).
  assert (Hstored0 : resultsStored gateway (steps p) 0
                       (stepVisuals (VariantsBuild.session a0))).
  { rewrite Hempty. apply resultsStored_empty. }
  destruct (steps p) as [|first rest] eqn:Hsteps.
  { unfold lastStep in Hlast. by rewrite Hsteps in Hlast. }
  rewrite <- Hsteps in *.
  assert (Hfirst : steps p !! 0%nat = Some first) by by rewrite Hsteps.
  rewrite (pending_found gateway (steps p) Hcontiguous Hnonempty
             0 _ first Hstored0 Hfirst).
  unfold VariantsBuild.generateVisualForStep at 1.
  set (inflight := VariantsBuild.onSession _ a0).
  destruct (variants_chain gateway p a0 lastOfPlan Hcontiguous Hnonempty Hlast
              rest first 0 inflight)
    as (final & Hrun & Hstored & Hfinal).
  { by rewrite Hsteps. }
  { by split_and!. }
  { done. }
  exists final. rewrite Hsteps at 1. rewrite Hrun.
  split_and!; try apply Hfinal; [|done|].
  - rewrite (context_of_first (steps p) Hcontiguous _ first Hfirst).
    unfold chainedRequests, variantsRequest. rewrite Hsteps. reflexivity.
  - by apply (resultsStored_chain gateway (steps p)).
Qed.

Lemma X5_variants_complete_run_witness :
  let gateway := λ step : Step, Scenario.img (title step) in
  ∃ final calls,
    VariantsBuild.run
      (variantsSuccessRun gateway (steps Scenario.twoStepPlan))
      (Scenario.variantsApp (Scenario.planned Scenario.twoStepPlan))
      = (final, calls) ∧
    length calls = 5%nat ∧
    VariantsBuild.isVariantsLoading final = true.
Proof.
  intros gateway.
  destruct (X5_variants_complete_run gateway Scenario.twoStepPlan
              (Scenario.variantsApp (Scenario.planned Scenario.twoStepPlan))
              Scenario.step2
              eq_refl eq_refl eq_refl eq_refl eq_refl eq_refl eq_refl eq_refl)
    as (final & Hrun & _ & _ & _ & _ & Hloading & _).
  - intros [|[|i]] step [= <-]; reflexivity.
  - intros step. done.
  - eexists final, _. split_and!; [exact Hrun|reflexivity|exact Hloading].
Defined.

(** ** Regenerating inside a chain *)

Lemma pending_in_chain (l : list Step) (k : nat) (visuals : gmap Z string)
    (step : Step) :
  contiguous l → chainUpTo (Z.of_nat k) visuals → l !! k = Some step →
  find (lacksVisual visuals) l = Some step.
Proof.
  intros Hcontiguous Hchain Hk. apply (find_first_at _ _ k); [done| |].
  - unfold lacksVisual. rewrite (proj2 (Hchain (stepNumber step))); [done|].
    rewrite (Hcontiguous k step Hk). lia.
  - intros i earlier Hi Hearlier. unfold lacksVisual.
    rewrite (proj1 (Hchain (stepNumber earlier))); [done|].
    rewrite (Hcontiguous i earlier Hearlier). lia.
Qed.

Lemma chain_reference (s : Session) (l : list Step) (i : nat)
    (step next : Step) (image : string) :
  contiguous l → l !! i = Some step → l !! S i = Some next →
  stepVisuals s !! stepNumber step = Some image → image ≠ "" →
  contextImage s next = Some image.
Proof.
  intros Hcontiguous Hstep Hnext Himage Hne. unfold contextImage.
  rewrite (Hcontiguous (S i) next Hnext). rewrite decide_True by lia.
  replace (Z.of_nat (S i) + 1 - 1)%Z with (stepNumber step)
    by (rewrite (Hcontiguous i step Hstep); lia).
  rewrite Himage. unfold truthy_string. by rewrite decide_False.
Qed.

(** X6. In a plan whose steps are numbered 1, 2, ... in order and whose
    store holds visuals for exactly the steps 1 to [m], a manual regenerate
    of a step that has a visual and is followed by another step leaves,
    when it settles with an image, visuals for exactly the steps up to the
    regenerated one. What the effect does in the render after that write
    depends on the marker: if no step generation is in flight, it requests
    the step after the regenerated one, on the new image, and marks it in
    flight; if one is in flight, it requests nothing. This holds in both
    builds (in the variants/video build when no video is loading or
    stored). *)
Theorem X6_regenerate_restarts_downstream
    (a : VariantsBuild.App) (b : NightTourBuild.App) (p : DIYPlan)
    (m i : nat) (step next : Step) (image : string)
    (Hplan_a : plan (VariantsBuild.session a) = Some p)
    (Hplan_b : plan (NightTourBuild.session b) = Some p)
    (Hstate_a : appState (VariantsBuild.session a) = RESULT)
    (Hstate_b : appState (NightTourBuild.session b) = RESULT)
    (Hvideo : VariantsBuild.isVideoLoading a = false)
    (Hurl : VariantsBuild.videoUrl a = None)
    (Hchain_a : chainUpTo (Z.of_nat m) (stepVisuals (VariantsBuild.session a)))
    (Hchain_b : chainUpTo (Z.of_nat m) (stepVisuals (NightTourBuild.session b)))
    (Hcount : (Z.of_nat m < 10 ^ 21)%Z)
    (Hcontiguous : contiguous (steps p))
    (Hstep : steps p !! i = Some step)
    (Hnext : steps p !! S i = Some next)
    (Hm : (i < m)%nat)
    (Himage : image ≠ "") :
  (let a' := VariantsBuild.manualGenerate_settled step (Some image) a in
   let settled :=
     VariantsBuild.dispatch
       (VariantsBuild.ManualGenerateSettled step (Some image)) a in
   chainUpTo (Z.of_nat (S i)) (stepVisuals (VariantsBuild.session a')) ∧
   (generatingStepIndex (VariantsBuild.session a) = None →
    settled
    = (VariantsBuild.onSession
         (setGeneratingStepIndex (Some (stepNumber next))) a',
       [variantsRequest (Some image) next])) ∧
   (generatingStepIndex (VariantsBuild.session a) ≠ None →
    settled = (a', []))) ∧
  (let b' := NightTourBuild.manualGenerate_settled step (Some image) b in
   let settled :=
     NightTourBuild.dispatch
       (NightTourBuild.ManualGenerateSettled step (Some image)) b in
   chainUpTo (Z.of_nat (S i)) (stepVisuals (NightTourBuild.session b')) ∧
   (generatingStepIndex (NightTourBuild.session b) = None →
    settled
    = (NightTourBuild.onSession
         (setGeneratingStepIndex (Some (stepNumber next))) b',
       [nightTourRequest (NightTourBuild.session b) (Some image) next])) ∧
   (generatingStepIndex (NightTourBuild.session b) ≠ None →
    settled = (b', []))).
Proof.
  assert (Hnumber : stepNumber step = Z.of_nat (S i))
    by (rewrite (Hcontiguous i step Hstep); lia).
  assert (Hchain : ∀ visuals, chainUpTo (Z.of_nat m) visuals →
            chainUpTo (Z.of_nat (S i))
              (stepVisualsUpdater (stepNumber step) image visuals)).
  { intros visuals H. rewrite Hnumber.
    apply (chain_gap_free (Z.of_nat m)); [done|done|lia|done]. }
  assert (Hstored : ∀ visuals,
            stepVisualsUpdater (stepNumber step) image visuals
              !! stepNumber step = Some image).
  { intros. rewrite stepVisualsUpdater_lookup. by rewrite decide_True. }
  split.
  - intros a' settled. split; [by apply Hchain|].
    assert (Hsettled : settled = VariantsBuild.runEffect a').
    { subst settled.
      cbn [VariantsBuild.dispatch VariantsBuild.storesVisual].
      apply variants_rerender_runs. by left. }
    rewrite Hsettled. split.
    + intros Hidle.
      unfold VariantsBuild.runEffect, VariantsBuild.orchestrator.
      replace (plan (VariantsBuild.session a')) with (Some p) by done.
      replace (appState (VariantsBuild.session a')) with RESULT by done.
      cbn [is_RESULT negb].
      replace (generatingStepIndex (VariantsBuild.session a'))
        with (@None Z) by done.
      rewrite bool_decide_eq_false_2 by (intros H; by apply H).
      replace (VariantsBuild.isVideoLoading a') with false by done.
      replace (VariantsBuild.videoUrl a') with (@None string) by done.
      cbn [orb truthy].
      rewrite (pending_in_chain (steps p) (S i) _ next); [|done| |done].
      2:{ subst a'. simpl. by apply Hchain. }
      unfold VariantsBuild.generateVisualForStep, variantsRequest.
      assert (Href : contextImage (VariantsBuild.session a') next = Some image).
      { apply (chain_reference _ (steps p) i step); try done.
        subst a'. simpl. apply Hstored. }
      by rewrite Href.
    + intros Hflight. unfold VariantsBuild.runEffect.
      by rewrite variants_inflight_no_action.
  - intros b' settled. split; [by apply Hchain|].
    assert (Hsettled : settled = NightTourBuild.runEffect b').
    { subst settled.
      cbn [NightTourBuild.dispatch NightTourBuild.storesVisual].
      apply nightTour_rerender_runs. by left. }
    rewrite Hsettled. split.
    + intros Hidle.
      unfold NightTourBuild.runEffect, NightTourBuild.orchestrator.
      replace (plan (NightTourBuild.session b')) with (Some p) by done.
      replace (appState (NightTourBuild.session b')) with RESULT by done.
      cbn [is_RESULT negb].
      replace (generatingStepIndex (NightTourBuild.session b'))
        with (@None Z) by done.
      rewrite bool_decide_eq_false_2 by (intros H; by apply H).
      rewrite (pending_in_chain (steps p) (S i) _ next); [|done| |done].
      2:{ subst b'. simpl. by apply Hchain. }
      unfold NightTourBuild.generateVisualForStep, nightTourRequest.
      assert (Href : contextImage (NightTourBuild.session b') next = Some image).
      { apply (chain_reference _ (steps p) i step); try done.
        subst b'. simpl. apply Hstored. }
      rewrite Href. reflexivity.
    + intros Hflight. unfold NightTourBuild.runEffect.
      by rewrite nightTour_inflight_no_action.
Qed.

Lemma X6_regenerate_restarts_downstream_witness :
  let full : gmap Z string :=
    <[1 := Scenario.img "ONE"]> (<[2 := Scenario.img "TWO"]>
      (<[3 := Scenario.img "THREE"]> ∅)) in
  let a := VariantsBuild.onSession (setStepVisuals (λ _, full))
             (Scenario.variantsApp (Scenario.planned Scenario.threeStepPlan)) in
  let b := NightTourBuild.onSession (setStepVisuals (λ _, full))
             (Scenario.nightTourApp (Scenario.planned Scenario.threeStepPlan)) in
  (VariantsBuild.dispatch
     (VariantsBuild.ManualGenerateSettled Scenario.step1
        (Some (Scenario.img "NEW"))) a).2
    = [variantsRequest (Some (Scenario.img "NEW")) Scenario.step2] ∧
  (NightTourBuild.dispatch
     (NightTourBuild.ManualGenerateSettled Scenario.step1
        (Some (Scenario.img "NEW"))) b).2
    = [nightTourRequest (NightTourBuild.session b)
         (Some (Scenario.img "NEW")) Scenario.step2].
Proof.
  intros full a b.
  assert (Hfull : chainUpTo (Z.of_nat 3) full).
  { intros j. split.
    - intros Hj. assert (j = 1 ∨ j = 2 ∨ j = 3) as [->|[->| ->]] by lia;
        reflexivity.
    - intros Hj. unfold full. rewrite !lookup_insert_ne by lia. done. }
  destruct (X6_regenerate_restarts_downstream a b Scenario.threeStepPlan
              3 0 Scenario.step1 Scenario.step2 (Scenario.img "NEW")
              eq_refl eq_refl eq_refl eq_refl eq_refl eq_refl
              Hfull Hfull)
    as ((_ & Ha & _) & (_ & Hb & _)).
  - lia.
  - intros [|[|[|j]]] step [= <-]; reflexivity.
  - reflexivity.
  - reflexivity.
  - lia.
  - done.
  - rewrite (Ha eq_refl), (Hb eq_refl). split; reflexivity.
Defined.

(** ** The variant batch after it settles *)

Lemma variants_rerender_changed (before after : VariantsBuild.App) :
  VariantsBuild.primitiveDeps before ≠ VariantsBuild.primitiveDeps after →
  VariantsBuild.rerender 3 true before after = VariantsBuild.runEffect after.
Proof. intros _. apply variants_rerender_runs. by left. Qed.

(** X7. Once the effect has started the variant batch, what happens when
    the batch settles depends on its results only through one bit. If at
    least one configuration returned an image, the map is stored and the
    effect stays idle. If every configuration threw, the stored map is
    empty again, the effect finds the chain complete without variants, and
    the same three requests are issued once more. *)
Theorem X7_variant_batch_after_settling (a : VariantsBuild.App)
    (gateway : VariantsBuild.VariantConfig → option string)
    (Ha : VariantsBuild.orchestrator a = VariantsBuild.HandleGenerateVariants) :
  (Exists (λ conf, is_Some (gateway conf)) VariantsBuild.variantConfigs →
   VariantsBuild.dispatch (VariantsBuild.VariantsSettled gateway)
       (VariantsBuild.runEffect a).1
     = (VariantsBuild.handleGenerateVariants_settled gateway
          (VariantsBuild.runEffect a).1, [])) ∧
  VariantsBuild.dispatch (VariantsBuild.VariantsSettled (λ _, None))
      (VariantsBuild.runEffect a).1
    = VariantsBuild.runEffect a.
Proof.
  destruct (variant_batch_conditions a Ha)
    as (_ & Hvariants & Hbatch & _ & _ & _ & p & final & image
        & Hplan & Hlast & Himage & Hne & Hstart).
  rewrite Hstart. cbn [fst VariantsBuild.dispatch].
  set (loading := VariantsBuild.setIsVariantsLoading true a).
  assert (Hchanged : ∀ gw,
    VariantsBuild.primitiveDeps loading
    ≠ VariantsBuild.primitiveDeps
        (VariantsBuild.handleGenerateVariants_settled gw loading)).
  { intros gw. unfold VariantsBuild.primitiveDeps. simpl. congruence. }
  assert (Hdecision : ∀ gw,
    VariantsBuild.orchestrator
      (VariantsBuild.handleGenerateVariants_settled gw loading)
    = if bool_decide
           (size (VariantsBuild.variants
                    (VariantsBuild.handleGenerateVariants_settled gw loading))
            = 0%nat)
      then VariantsBuild.HandleGenerateVariants else VariantsBuild.NoAction).
  { intros gw. unfold VariantsBuild.orchestrator in *.
    cbn [VariantsBuild.session VariantsBuild.handleGenerateVariants_settled
         VariantsBuild.setIsVariantsLoading VariantsBuild.setVariants
         VariantsBuild.isVideoLoading VariantsBuild.videoUrl
         VariantsBuild.variants VariantsBuild.isVariantsLoading loading] in *.
    destruct (plan _); [|done]. destruct (negb _); [done|].
    destruct (bool_decide (generatingStepIndex _ ≠ None)); [done|].
    destruct (_ || _); [done|]. destruct (find _ _); [done|].
    destruct (isFinalStepVisualized _) as [[|]| |]; try done.
    by rewrite andb_true_r. }
  split.
  - intros Hsome. rewrite variants_rerender_changed by apply Hchanged.
    unfold VariantsBuild.runEffect. rewrite Hdecision.
    rewrite bool_decide_eq_false_2; [done|].
    rewrite (proj1 (collected_size gateway loading)).
    apply list.Exists_exists in Hsome as (conf & Hconf & Hok).
    intros Hzero. apply length_zero_iff_nil in Hzero.
    assert (conf ∈ filter (λ conf, succeeded gateway conf = true)
                      VariantsBuild.variantConfigs) as Hin.
    { apply list_elem_of_filter. split; [|done].
      unfold succeeded. by apply bool_decide_eq_true_2. }
    rewrite Hzero in Hin. by apply elem_of_nil in Hin.
  - rewrite variants_rerender_changed by apply Hchanged.
    unfold VariantsBuild.runEffect at 1. rewrite Hdecision.
    rewrite bool_decide_eq_true_2 by reflexivity.
    unfold VariantsBuild.handleGenerateVariants.
    cbn [VariantsBuild.session VariantsBuild.handleGenerateVariants_settled
         VariantsBuild.setIsVariantsLoading VariantsBuild.setVariants loading].
    rewrite Hplan, Hlast, Himage.
    unfold loading.
    destruct a as [s v l vs lv]. cbn in *. subst vs lv.
    reflexivity.
Qed.

Lemma X7_variant_batch_after_settling_witness :
  let visualized :=
    VariantsBuild.handleStepVisualGenerated 2 (Scenario.img "TWO")
      (VariantsBuild.handleStepVisualGenerated 1 (Scenario.img "ONE")
         (Scenario.variantsApp (Scenario.planned Scenario.twoStepPlan))) in
  length (VariantsBuild.dispatch (VariantsBuild.VariantsSettled (λ _, None))
            (VariantsBuild.runEffect visualized).1).2 = 3%nat ∧
  (VariantsBuild.dispatch (VariantsBuild.VariantsSettled eveningThrows)
     (VariantsBuild.runEffect visualized).1).2 = [].
Proof.
  intros visualized.
  destruct (X7_variant_batch_after_settling visualized eveningThrows
              ltac:(vm_compute; reflexivity)) as (Hsome & _).
  destruct (X7_variant_batch_after_settling visualized (λ _, None)
              ltac:(vm_compute; reflexivity)) as (_ & Hnone).
  split.
  - rewrite Hnone. reflexivity.
  - rewrite Hsome; [reflexivity|].
    apply Exists_cons_hd. by eexists.
Defined.

(** ** The on-demand controllers *)

(** What an issued room-tour request tells about the state. *)
Lemma roomTour_request_conditions (a a' : VariantsBuild.App)
    (ca : GatewayCall) (moreA : list GatewayCall)
    (Ha : VariantsBuild.handleGenerateVideo a = Returned (a', ca :: moreA)) :
  ∃ p final image,
    plan (VariantsBuild.session a) = Some p ∧ lastStep p = Some final ∧
    stepVisuals (VariantsBuild.session a) !! stepNumber final = Some image ∧
    image ≠ "" ∧
    ca = generateRoomTourVideo (styleAnalysis p) image ∧ moreA = [] ∧
    a' = VariantsBuild.setIsVideoLoading true a ∧
    VariantsBuild.isVideoLoading a = false ∧
    truthy (VariantsBuild.videoUrl a) = false.
Proof.
  unfold VariantsBuild.handleGenerateVideo in Ha.
  destruct (plan _) as [p|] eqn:Hplan; [|done].
  destruct (VariantsBuild.isVideoLoading a) eqn:Hloading; [done|].
  destruct (truthy (VariantsBuild.videoUrl a)) eqn:Hurl; [done|].
  cbn [orb] in Ha.
  destruct (lastStep p) as [final|] eqn:Hlast; [|done].
  destruct (stepVisuals _ !! stepNumber final) as [image|] eqn:Himage;
    [|done].
  unfold truthy_string in Ha. destruct (decide (image = "")); [done|].
  injection Ha as <- <- <-.
  exists p, final, image. by split_and!.
Qed.

(** What an issued night-tour request tells about the state. *)
Lemma nightTour_request_conditions (b b' : NightTourBuild.App)
    (cb : GatewayCall) (moreB : list GatewayCall)
    (Hb : NightTourBuild.handleGenerateNightTour b
          = Returned (b', cb :: moreB)) :
  ∃ p final image,
    plan (NightTourBuild.session b) = Some p ∧ lastStep p = Some final ∧
    stepVisuals (NightTourBuild.session b) !! stepNumber final = Some image ∧
    image ≠ "" ∧
    cb = generateNightTourVideo image ∧ moreB = [] ∧
    b' = NightTourBuild.setIsNightVideoLoading true b ∧
    NightTourBuild.isNightVideoLoading b = false ∧
    truthy (NightTourBuild.nightVideoUrl b) = false.
Proof.
  unfold NightTourBuild.handleGenerateNightTour in Hb.
  destruct (plan _) as [p|] eqn:Hplan; [|done].
  destruct (NightTourBuild.isNightVideoLoading b) eqn:Hloading; [done|].
  destruct (truthy (NightTourBuild.nightVideoUrl b)) eqn:Hurl; [done|].
  cbn [orb] in Hb.
  destruct (lastStep p) as [final|] eqn:Hlast; [|done].
  destruct (stepVisuals _ !! stepNumber final) as [image|] eqn:Himage;
    [|done].
  unfold truthy_string in Hb. destruct (decide (image = "")); [done|].
  injection Hb as <- <- <-.
  exists p, final, image. by split_and!.
Qed.

(** X8. A tour video is requested only on the stored, non-empty visual of
    the last step of the plan: when [handleGenerateVideo] (or
    [handleGenerateNightTour]) issues a call, that call carries exactly
    this visual, no video was loading or stored before, and the only state
    change is the loading flag. *)
Theorem X8_video_needs_final_visual
    (a a' : VariantsBuild.App) (b b' : NightTourBuild.App)
    (ca cb : GatewayCall) (moreA moreB : list GatewayCall)
    (Ha : VariantsBuild.handleGenerateVideo a = Returned (a', ca :: moreA))
    (Hb : NightTourBuild.handleGenerateNightTour b
          = Returned (b', cb :: moreB)) :
  (∃ p final image,
     plan (VariantsBuild.session a) = Some p ∧ lastStep p = Some final ∧
     stepVisuals (VariantsBuild.session a) !! stepNumber final = Some image ∧
     image ≠ "" ∧
     ca = generateRoomTourVideo (styleAnalysis p) image ∧ moreA = [] ∧
     a' = VariantsBuild.setIsVideoLoading true a ∧
     VariantsBuild.isVideoLoading a = false ∧
     truthy (VariantsBuild.videoUrl a) = false) ∧
  (∃ p final image,
     plan (NightTourBuild.session b) = Some p ∧ lastStep p = Some final ∧
     stepVisuals (NightTourBuild.session b) !! stepNumber final = Some image ∧
     image ≠ "" ∧
     cb = generateNightTourVideo image ∧ moreB = [] ∧
     b' = NightTourBuild.setIsNightVideoLoading true b ∧
     NightTourBuild.isNightVideoLoading b = false ∧
     truthy (NightTourBuild.nightVideoUrl b) = false).
Proof.
  split.
  - exact (roomTour_request_conditions a a' ca moreA Ha).
  - exact (nightTour_request_conditions b b' cb moreB Hb).
Qed.

Lemma X8_video_needs_final_visual_witness :
  let full : gmap Z string :=
    <[1 := Scenario.img "ONE"]> (<[2 := Scenario.img "TWO"]> ∅) in
  let a := VariantsBuild.onSession (setStepVisuals (λ _, full))
             (Scenario.variantsApp (Scenario.planned Scenario.twoStepPlan)) in
  let b := NightTourBuild.onSession (setStepVisuals (λ _, full))
             (Scenario.nightTourApp (Scenario.planned Scenario.twoStepPlan)) in
  (∃ image, stepVisuals (VariantsBuild.session a) !! 2 = Some image ∧
            image ≠ "" ∧
            (VariantsBuild.handleGenerateVideo a
             = Returned (VariantsBuild.setIsVideoLoading true a,
                         [generateRoomTourVideo "Warm minimal" image]))) ∧
  (∃ image, stepVisuals (NightTourBuild.session b) !! 2 = Some image ∧
            image ≠ "" ∧
            (NightTourBuild.handleGenerateNightTour b
             = Returned (NightTourBuild.setIsNightVideoLoading true b,
                         [generateNightTourVideo image]))).
Proof.
  intros full a b.
  destruct (X8_video_needs_final_visual a _ b _ _ _ _ _ eq_refl eq_refl)
    as ((pa & fa & ia & [= <-] & [= <-] & Hia & Hna & [= <-] & _)
        & (pb & fb & ib & [= <-] & [= <-] & Hib & Hnb & [= <-] & _)).
  split; eexists; (split_and!; [eassumption|eassumption|reflexivity]).
Defined.

(** X9. A failed on-demand request writes nothing but the loading flag of
    its kind, which it clears. A tour video request of either build is
    only issued while none is outstanding, so its failure leaves the
    application as it was before the request. For the summary audio and
    for a material image the same holds when no request of that kind was
    outstanding before (the clicked material stays selected); when one
    was, the failure clears the flag that was set before the request. *)
Theorem X9_failed_request_restores
    (a a1 : VariantsBuild.App) (b b1 summary : NightTourBuild.App)
    (s : Session) (item : Material)
    (ca cb : GatewayCall)
    (Ha : VariantsBuild.handleGenerateVideo a = Returned (a1, [ca]))
    (Hb : NightTourBuild.handleGenerateNightTour b = Returned (b1, [cb])) :
  VariantsBuild.handleGenerateVideo_settled None a1 = a ∧
  NightTourBuild.handleGenerateNightTour_settled None b1 = b ∧
  NightTourBuild.handleGenerateSummary_settled None
    (NightTourBuild.handleGenerateSummary summary).1
    = NightTourBuild.setIsSummaryLoading false summary ∧
  (NightTourBuild.isSummaryLoading summary = false →
   NightTourBuild.handleGenerateSummary_settled None
     (NightTourBuild.handleGenerateSummary summary).1 = summary) ∧
  handleMaterialClick_settled item None (handleMaterialClick item s).1
    = setGeneratingMaterialImage false (setSelectedMaterial (Some item) s) ∧
  (generatingMaterialImage s = false →
   handleMaterialClick_settled item None (handleMaterialClick item s).1
     = setSelectedMaterial (Some item) s).
Proof.
  destruct (roomTour_request_conditions a a1 ca [] Ha)
    as (? & ? & ? & _ & _ & _ & _ & _ & _ & -> & Hla & _).
  destruct (nightTour_request_conditions b b1 cb [] Hb)
    as (? & ? & ? & _ & _ & _ & _ & _ & _ & -> & Hlb & _).
  split_and!.
  - destruct a; simpl in *. by subst.
  - destruct b; simpl in *. by subst.
  - unfold NightTourBuild.handleGenerateSummary.
    by destruct (plan (NightTourBuild.session summary)).
  - intros Hsummary. unfold NightTourBuild.handleGenerateSummary.
    destruct summary as [[? pl ? ? ? ? ? ? ?] ? ? ? ? ?]; simpl in *. subst.
    by destruct pl.
  - unfold handleMaterialClick. by destruct (truthyEntry _ _).
  - intros Hmaterial. unfold handleMaterialClick.
    destruct (truthyEntry _ _); destruct s; simpl in *; by subst.
Qed.

Lemma X9_failed_request_restores_witness :
  let full : gmap Z string :=
    <[1 := Scenario.img "ONE"]> (<[2 := Scenario.img "TWO"]> ∅) in
  let a := VariantsBuild.onSession (setStepVisuals (λ _, full))
             (Scenario.variantsApp (Scenario.planned Scenario.twoStepPlan)) in
  let b := NightTourBuild.onSession (setStepVisuals (λ _, full))
             (Scenario.nightTourApp (Scenario.planned Scenario.twoStepPlan)) in
  VariantsBuild.handleGenerateVideo_settled None
    (VariantsBuild.setIsVideoLoading true a) = a ∧
  NightTourBuild.handleGenerateNightTour_settled None
    (NightTourBuild.setIsNightVideoLoading true b) = b.
Proof.
  intros full a b.
  destruct (X9_failed_request_restores a _ b _ b
              (Scenario.planned Scenario.twoStepPlan) Scenario.paint _ _
              eq_refl eq_refl) as (Ha & Hb & _).
  exact (conj Ha Hb).
Defined.

(** X10. The material cache is filled once per name. After a click on a
    material and a successful product-image call, the cache holds the
    returned image under the material's name and every other entry is as
    before; from then on a click on any material of that name issues no
    call. Storing a step visual, moving or deleting a substep does not
    touch the cache. *)
Theorem X10_material_cache_fill_then_hit
    (s : Session) (item again : Material) (url : string)
    (Hurl : url ≠ "")
    (Hname : name again = name item) :
  let filled :=
    handleMaterialClick_settled item (Some url) (handleMaterialClick item s).1 in
  materialImages filled !! name item = Some url ∧
  (∀ other, other ≠ name item →
            materialImages filled !! other = materialImages s !! other) ∧
  generatingMaterialImage filled = false ∧
  handleMaterialClick again filled
    = (setSelectedMaterial (Some again) filled, []) ∧
  (∀ k image,
     materialImages (setStepVisuals (stepVisualsUpdater k image) filled)
       = materialImages filled) ∧
  (∀ sIdx subIdx direction s',
     moveSubstep sIdx subIdx direction filled = Returned s' →
     materialImages s' = materialImages filled) ∧
  (∀ sIdx subIdx s',
     deleteSubstep sIdx subIdx filled = Returned s' →
     materialImages s' = materialImages filled).
Proof.
  intros filled.
  assert (Hfilled : materialImages filled
                    = <[name item := url]> (materialImages s)).
  { unfold filled, handleMaterialClick. by destruct (truthyEntry _ _). }
  split_and!.
  - rewrite Hfilled. apply lookup_insert_eq.
  - intros other Hother. rewrite Hfilled. by apply lookup_insert_ne.
  - unfold filled, handleMaterialClick. by destruct (truthyEntry _ _).
  - unfold handleMaterialClick at 1, truthyEntry.
    cbn [materialImages setSelectedMaterial].
    rewrite Hname, Hfilled, lookup_insert_eq.
    unfold truthy_string. by rewrite decide_False.
  - done.
  - intros sIdx subIdx direction s'. unfold moveSubstep.
    destruct (plan filled); [|by intros [= <-]].
    destruct (_ !! sIdx); [|done].
    case_decide; [by intros [= <-]|].
    destruct (_ !! subIdx); [|done]. destruct (_ !! _); [|done].
    by intros [= <-].
  - intros sIdx subIdx s'. unfold deleteSubstep.
    destruct (plan filled); [|by intros [= <-]].
    destruct (_ !! sIdx); [|done]. by intros [= <-].
Qed.

Lemma X10_material_cache_fill_then_hit_witness :
  let filled :=
    handleMaterialClick_settled Scenario.paint (Some (Scenario.img "PAINT"))
      (handleMaterialClick Scenario.paint
         (Scenario.planned Scenario.threeStepPlan)).1 in
  (handleMaterialClick Scenario.paint filled).2 = [] ∧
  materialImages filled !! "Wall paint" = Some (Scenario.img "PAINT").
Proof.
  intros filled.
  destruct (X10_material_cache_fill_then_hit
              (Scenario.planned Scenario.threeStepPlan)
              Scenario.paint Scenario.paint (Scenario.img "PAINT")
              ltac:(done) eq_refl) as (Hstored & _ & _ & Hhit & _).
  split; [|exact Hstored]. fold filled in Hhit. by rewrite Hhit.
Defined.

(** ** Completion keys and the checklist *)

Lemma pretty_N_char_digit (x : N) : isDigit (pretty_N_char x) = true.
Proof. unfold pretty_N_char. by repeat case_match. Qed.

Lemma pretty_N_go_digits (x : N) (s : string) :
  allDigits s = true → allDigits (pretty_N_go x s) = true.
Proof.
  revert s. induction (N.lt_wf_0 x) as [x _ IH]; intros s Hs.
  assert (x = 0 ∨ 0 < x)%N as [->|Hpos] by lia.
  - by rewrite pretty_N_go_0.
  - rewrite pretty_N_go_step by done. apply IH.
    + by apply N.div_lt.
    + cbn [allDigits]. by rewrite pretty_N_char_digit, Hs.
Qed.

Lemma pretty_nat_digits (n : nat) : allDigits (pretty n) = true.
Proof.
  unfold pretty, pretty_nat, pretty, pretty_N.
  case_decide; [done|]. by apply pretty_N_go_digits.
Qed.

Lemma dash_separated (a c b d : string) :
  allDigits a = true → allDigits c = true →
  a +:+ "-" +:+ b = c +:+ "-" +:+ d → a = c ∧ b = d.
Proof.
  revert c. induction a as [|x a IH]; intros [|y c] Ha Hc Heq;
    cbn [allDigits] in Ha, Hc; simplify_eq/=.
  - done.
  - apply andb_true_iff in Ha as [_ Ha]. apply andb_true_iff in Hc as [_ Hc].
    destruct (IH c Ha Hc) as [-> ->]; done.
Qed.

Lemma substepKey_positions (i j i' j' : nat) :
  substepKey i j = substepKey i' j' ↔ i = i' ∧ j = j'.
Proof.
  split; [|by intros [-> ->]].
  unfold substepKey. intros H.
  apply dash_separated in H as [Hi Hj]; try apply pretty_nat_digits.
  split; by apply (inj pretty).
Qed.

(** X11. Two checklist positions share a completion key only when they
    are the same position, so [toggleSubstep] flips the checkbox of its
    own substep and of no other, whether or not that substep had an entry
    before; it writes nothing but the completion map. *)
Theorem X11_toggle_flips_one_checkbox (s : Session) (i j i' j' : nat) :
  (substepKey i j = substepKey i' j' ↔ i = i' ∧ j = j') ∧
  isChecked (toggleSubstep i j s) i' j'
    = (if decide (i = i' ∧ j = j') then negb (isChecked s i j)
       else isChecked s i' j') ∧
  isChecked (toggleSubstep i j (toggleSubstep i j s)) i' j'
    = isChecked s i' j' ∧
  plan (toggleSubstep i j s) = plan s ∧
  stepVisuals (toggleSubstep i j s) = stepVisuals s.
Proof.
  assert (Hone : ∀ t,
    isChecked (toggleSubstep i j t) i' j'
    = (if decide (i = i' ∧ j = j') then negb (isChecked t i j)
       else isChecked t i' j')).
  { intros t. unfold isChecked, toggleSubstep.
    cbn [completedSubsteps setCompletedSubsteps].
    rewrite readFlag_insert.
    destruct (decide (i = i' ∧ j = j')) as [[-> ->]|Hne].
    - by rewrite decide_True.
    - rewrite decide_False; [done|]. by rewrite substepKey_positions. }
  split_and!; [apply substepKey_positions|apply Hone| |done|done].
  rewrite Hone. destruct (decide (i = i' ∧ j = j')) as [[-> ->]|Hne].
  - rewrite Hone. by rewrite negb_involutive.
  - by rewrite Hone.
Qed.

(** ** Moving a substep there and back *)

Lemma set_substeps_id (step : Step) : set_substeps (substeps step) step = step.
Proof. by destruct step. Qed.

Lemma set_substeps_twice (l l' : list string) (step : Step) :
  set_substeps l (set_substeps l' step) = set_substeps l step.
Proof. done. Qed.

Lemma set_steps_id (p : DIYPlan) : set_steps (steps p) p = p.
Proof. by destruct p. Qed.

Lemma setPlan_id (s : Session) : setPlan (plan s) s = s.
Proof. by destruct s. Qed.

(** X12. Moving a substep down and then moving it up again restores the
    plan exactly, and every checkbox of the checklist shows what it showed
    before. *)
Theorem X12_move_down_then_up (s : Session) (p : DIYPlan) (step : Step)
    (sIdx j : nat)
    (Hplan : plan s = Some p)
    (Hstep : steps p !! sIdx = Some step)
    (Hj : (S j < length (substeps step))%nat) :
  ∃ moved back,
    moveSubstep sIdx j Down s = Returned moved ∧
    moveSubstep sIdx (S j) Up moved = Returned back ∧
    plan back = plan s ∧
    (∀ key, readFlag (completedSubsteps back) key
            = readFlag (completedSubsteps s) key) ∧
    (∀ i k, isChecked back i k = isChecked s i k).
Proof.
  destruct (lookup_lt_is_Some_2 (substeps step) j) as [x Hx]; [lia|].
  destruct (lookup_lt_is_Some_2 (substeps step) (S j)) as [y Hy]; [lia|].
  pose proof (lookup_lt_Some _ _ _ Hstep) as HsIdx.
  set (l1 := <[S j := x]> (<[j := y]> (substeps step))).
  set (step1 := set_substeps l1 step).
  set (p1 := set_steps (<[sIdx := step1]> (steps p)) p).
  set (m := completedSubsteps s).
  set (m1 := <[substepKey sIdx (S j) := readFlag m (substepKey sIdx j)]>
               (<[substepKey sIdx j := readFlag m (substepKey sIdx (S j))]> m)).
  set (moved := setCompletedSubsteps (λ _, m1) (setPlan (Some p1) s)).
  assert (Hdown : moveSubstep sIdx j Down s = Returned moved).
  { unfold moveSubstep. rewrite Hplan, Hstep.
    rewrite decide_False by (simpl; lia).
    replace (Z.to_nat (Z.of_nat j + offset Down)) with (S j) by (simpl; lia).
    rewrite Hx, Hy. reflexivity. }
  assert (Hl1j : l1 !! j = Some y).
  { unfold l1. rewrite list_lookup_insert_ne by lia.
    by rewrite list_lookup_insert_eq by lia. }
  assert (Hl1Sj : l1 !! S j = Some x).
  { unfold l1. by rewrite list_lookup_insert_eq by (rewrite length_insert; lia). }
  assert (Hback_list : <[j := x]> (<[S j := y]> l1) = substeps step).
  { apply list_eq. intros k. unfold l1.
    destruct (decide (k = j)) as [->|?]; [|destruct (decide (k = S j)) as [->|?]].
    - rewrite list_lookup_insert_eq by (rewrite !length_insert; lia). done.
    - rewrite list_lookup_insert_ne by lia.
      rewrite list_lookup_insert_eq by (rewrite !length_insert; lia). done.
    - by rewrite !list_lookup_insert_ne by lia. }
  set (m2 := <[substepKey sIdx j := readFlag m1 (substepKey sIdx (S j))]>
               (<[substepKey sIdx (S j) := readFlag m1 (substepKey sIdx j)]> m1)).
  set (back := setCompletedSubsteps (λ _, m2) s).
  assert (Hup : moveSubstep sIdx (S j) Up moved = Returned back).
  { unfold moveSubstep.
    replace (plan moved) with (Some p1) by done.
    replace (steps p1 !! sIdx) with (Some step1)
      by (unfold p1; simpl; by rewrite list_lookup_insert_eq).
    replace (substeps step1) with l1 by done.
    rewrite decide_False by (unfold l1; rewrite !length_insert; simpl; lia).
    replace (Z.to_nat (Z.of_nat (S j) + offset Up)) with j by (simpl; lia).
    rewrite Hl1j, Hl1Sj, Hback_list.
    unfold step1. rewrite set_substeps_twice, set_substeps_id.
    unfold p1. cbn [steps set_steps].
    rewrite list_insert_insert_eq, list_insert_id by done.
    unfold back, moved. destruct s as [? pl ? ? ? ? ? ? ?]. simpl in *.
    subst pl. destruct p. reflexivity. }
  assert (Hflags : ∀ key, readFlag m2 key = readFlag m key).
  { pose proof (swap_flags sIdx j (S j) m ltac:(lia)) as (H1 & H2 & H3).
    pose proof (swap_flags sIdx (S j) j m1 ltac:(lia)) as (H4 & H5 & H6).
    fold m1 in H1, H2, H3. fold m2 in H4, H5, H6.
    intros key.
    destruct (decide (key = substepKey sIdx j)) as [->|Hkj];
      [by rewrite H5, H2|].
    destruct (decide (key = substepKey sIdx (S j))) as [->|HkSj];
      [by rewrite H4, H1|].
    rewrite H6 by done. by apply H3. }
  exists moved, back. split_and!; [done|done|done|exact Hflags|].
  intros i k. unfold isChecked. f_equal. apply Hflags.
Qed.

Lemma X12_move_down_then_up_witness :
  ∃ moved back,
    moveSubstep 0 0 Down checklistBefore = Returned moved ∧
    moveSubstep 0 1 Up moved = Returned back ∧
    plan back = plan checklistBefore ∧
    isChecked back 0 1 = true.
Proof.
  destruct (X12_move_down_then_up checklistBefore Scenario.threeStepPlan
              Scenario.step1 0 0 eq_refl eq_refl ltac:(simpl; lia))
    as (moved & back & Hdown & Hup & Hplan & _ & Hchecked).
  exists moved, back. split_and!; [done|done|done|].
  rewrite Hchecked. reflexivity.
Defined.

(** ** Adding a substep *)

Lemma substepsOf_edited (s : Session) (p : DIYPlan) (step : Step)
    (sIdx : nat) (l : list string) :
  plan s = Some p → steps p !! sIdx = Some step →
  let s' := setPlan
              (Some (set_steps (<[sIdx := set_substeps l step]> (steps p)) p))
              s in
  substepsOf s' sIdx = l ∧
  ∀ i, i ≠ sIdx → substepsOf s' i = substepsOf s i.
Proof.
  intros Hplan Hstep s'. unfold substepsOf. rewrite Hplan. subst s'.
  cbn [plan setPlan steps set_steps]. split.
  - by rewrite list_lookup_insert_eq by (by eapply lookup_lt_Some).
  - intros i Hi. by rewrite list_lookup_insert_ne.
Qed.

(** X13. [addSubstep] appends the placeholder "New step" to the step and
    opens exactly that new entry for editing. Typing a text and saving
    then leaves the step with its old substeps followed by the typed text,
    closes the editor, and changes no other step, no completion entry and
    no visual. Deleting the new entry instead restores the plan. *)
Theorem X13_add_then_save (e : Editing) (s : Session) (p : DIYPlan)
    (step : Step) (sIdx : nat) (text : string)
    (Hplan : plan s = Some p)
    (Hstep : steps p !! sIdx = Some step) :
  ∃ e1 s1 e2 s2,
    addSubstep sIdx e s = Returned (e1, s1) ∧
    substepsOf s1 sIdx = (substeps step ++ ["New step"])%list ∧
    (∀ i j, isEditing e1 i j
            = bool_decide (i = sIdx ∧ j = length (substeps step))) ∧
    editValue e1 = "New step" ∧
    saveSubstep (setEditValue text e1) s1 = Returned (e2, s2) ∧
    substepsOf s2 sIdx = (substeps step ++ [text])%list ∧
    (∀ i, i ≠ sIdx → substepsOf s2 i = substepsOf s i) ∧
    editingSubstep e2 = None ∧
    completedSubsteps s2 = completedSubsteps s ∧
    stepVisuals s2 = stepVisuals s ∧
    deleteSubstep sIdx (length (substeps step)) s1 = Returned s.
Proof.
  pose proof (lookup_lt_Some _ _ _ Hstep) as HsIdx.
  set (l1 := (substeps step ++ ["New step"])%list).
  set (step1 := set_substeps l1 step).
  set (p1 := set_steps (<[sIdx := step1]> (steps p)) p).
  set (s1 := setPlan (Some p1) s).
  set (e1 := {| editingSubstep := Some (sIdx, length (substeps step));
                editValue := "New step" |}).
  assert (Hadd : addSubstep sIdx e s = Returned (e1, s1)).
  { unfold addSubstep. rewrite Hplan, Hstep. unfold e1.
    fold l1. replace (length l1 - 1)%nat with (length (substeps step))
      by (unfold l1; rewrite length_app; simpl; lia).
    reflexivity. }
  assert (Hstep1 : steps p1 !! sIdx = Some step1).
  { unfold p1. simpl. by rewrite list_lookup_insert_eq. }
  assert (Hwritten : <[length (substeps step) := text]> l1
                     = (substeps step ++ [text])%list).
  { unfold l1. rewrite insert_app_r_alt by lia.
    by rewrite Nat.sub_diag. }
  set (l2 := (substeps step ++ [text])%list).
  set (s2 := setPlan
               (Some (set_steps (<[sIdx := set_substeps l2 step1]> (steps p1))
                        p1)) s1).
  assert (Hsave : saveSubstep (setEditValue text e1) s1
                  = Returned (cancelEditing (setEditValue text e1), s2)).
  { unfold saveSubstep. replace (plan s1) with (Some p1) by done.
    cbn [editingSubstep setEditValue e1]. rewrite Hstep1.
    replace (substeps step1) with l1 by done.
    rewrite decide_True by (unfold l1; rewrite length_app; simpl; lia).
    change (editValue (setEditValue text e1)) with text.
    by rewrite Hwritten. }
  destruct (substepsOf_edited s p step sIdx l1 Hplan Hstep) as [H1 H1'].
  destruct (substepsOf_edited s1 p1 step1 sIdx l2 eq_refl Hstep1) as [H2 H2'].
  exists e1, s1, (cancelEditing (setEditValue text e1)), s2.
  split_and!; try done.
  - intros i j. unfold isEditing, e1. cbn [editingSubstep].
    destruct (decide (i = sIdx ∧ j = length (substeps step))) as [[-> ->]|Hne].
    + by rewrite !bool_decide_eq_true_2.
    + rewrite (bool_decide_eq_false_2 (_ ∧ _)) by done.
      apply andb_false_iff.
      destruct (decide (sIdx = i)) as [->|?];
        [right|left]; apply bool_decide_eq_false_2; naive_solver.
  - intros i Hi. fold s2 in H2'. rewrite H2' by done. by apply H1'.
  - unfold deleteSubstep. replace (plan s1) with (Some p1) by done.
    rewrite Hstep1. replace (substeps step1) with l1 by done.
    assert (Hdel : delete (length (substeps step)) l1 = substeps step).
    { unfold l1. rewrite delete_middle. by rewrite app_nil_r. }
    rewrite Hdel. unfold step1. rewrite set_substeps_twice, set_substeps_id.
    unfold p1. cbn [steps set_steps].
    rewrite list_insert_insert_eq, list_insert_id by done.
    unfold s1. destruct s as [? pl ? ? ? ? ? ? ?]. simpl in *. subst pl.
    by destruct p.
Qed.

Lemma X13_add_then_save_witness :
  ∃ e1 s1 e2 s2,
    addSubstep 1 {| editingSubstep := None; editValue := "" |}
      (Scenario.planned Scenario.threeStepPlan) = Returned (e1, s1) ∧
    saveSubstep (setEditValue "Tape the edges" e1) s1 = Returned (e2, s2) ∧
    substepsOf s2 1 = ["A"; "B"; "Tape the edges"].
Proof.
  destruct (X13_add_then_save {| editingSubstep := None; editValue := "" |}
              (Scenario.planned Scenario.threeStepPlan)
              Scenario.threeStepPlan Scenario.step2 1 "Tape the edges"
              eq_refl eq_refl)
    as (e1 & s1 & e2 & s2 & Hadd & _ & _ & _ & Hsave & Hsubs & _).
  exists e1, s1, e2, s2. by split_and!.
Defined.

(** ** Checklist edits and generation *)

Lemma find_erased (visuals : gmap Z string) (l l' : list Step) :
  withoutSubsteps <$> l' = withoutSubsteps <$> l →
  withoutSubsteps <$> find (lacksVisual visuals) l'
    = withoutSubsteps <$> find (lacksVisual visuals) l.
Proof.
  revert l'. induction l as [|x l IH]; intros [|y l'] Heq; try done.
  assert (Hxy : withoutSubsteps y = withoutSubsteps x)
    by (apply (f_equal head) in Heq; simpl in Heq; congruence).
  assert (Hrest : withoutSubsteps <$> l' = withoutSubsteps <$> l)
    by (apply (f_equal tail) in Heq; exact Heq). cbn [find].
  assert (lacksVisual visuals y = lacksVisual visuals x) as ->.
  { unfold lacksVisual.
    by replace (stepNumber y) with (stepNumber x)
      by (apply (f_equal stepNumber) in Hxy; done). }
  destruct (lacksVisual visuals x); [|by apply IH].
  simpl. by rewrite Hxy.
Qed.

Lemma lastStep_erased (l l' : list Step) :
  withoutSubsteps <$> l' = withoutSubsteps <$> l →
  withoutSubsteps <$> (l' !! (length l' - 1)%nat)
    = withoutSubsteps <$> (l !! (length l - 1)%nat).
Proof.
  intros Heq. rewrite <- !list_lookup_fmap.
  rewrite <- (length_fmap withoutSubsteps l'), <- (length_fmap withoutSubsteps l).
  by rewrite Heq.
Qed.

Lemma previous_erased (n : Z) (l l' : list Step) :
  withoutSubsteps <$> l' = withoutSubsteps <$> l →
  map instruction (filter (λ s, stepNumber s < n) l')
    = map instruction (filter (λ s, stepNumber s < n) l).
Proof.
  revert l'. induction l as [|x l IH]; intros [|y l'] Heq; try done.
  assert (Hxy : withoutSubsteps y = withoutSubsteps x)
    by (apply (f_equal head) in Heq; simpl in Heq; congruence).
  assert (Hrest : withoutSubsteps <$> l' = withoutSubsteps <$> l)
    by (apply (f_equal tail) in Heq; exact Heq). rewrite !filter_cons.
  pose proof (f_equal stepNumber Hxy) as Hnum.
  pose proof (f_equal instruction Hxy) as Hins. simpl in Hnum, Hins.
  rewrite Hnum. case_decide; [|by apply IH].
  cbn [map]. rewrite Hins. f_equal. by apply IH.
Qed.

Lemma edited_step_erased (l : list Step) (i : nat) (step : Step)
    (texts : list string) :
  l !! i = Some step →
  withoutSubsteps <$> <[i := set_substeps texts step]> l
    = withoutSubsteps <$> l.
Proof.
  intros Hi. rewrite list_fmap_insert. apply list_insert_id.
  rewrite list_lookup_fmap, Hi. done.
Qed.

Lemma edited_plan_same_inputs (s : Session) (p : DIYPlan) (step : Step)
    (i : nat) (texts : list string)
    (f : gmap string (option bool) → gmap string (option bool)) :
  plan s = Some p → steps p !! i = Some step →
  sameGenerationInputs s
    (setCompletedSubsteps f
       (setPlan
          (Some (set_steps (<[i := set_substeps texts step]> (steps p)) p))
          s)).
Proof.
  intros Hplan Hstep. unfold sameGenerationInputs. rewrite Hplan.
  cbn [appState currentImage stepVisuals generatingStepIndex plan
       setCompletedSubsteps setPlan steps set_steps].
  split_and!; try done. by apply edited_step_erased.
Qed.

Lemma same_inputs_refl (s : Session) : sameGenerationInputs s s.
Proof.
  unfold sameGenerationInputs. split_and!; try done. by destruct (plan s).
Qed.

Lemma same_inputs_flags (s : Session)
    (f : gmap string (option bool) → gmap string (option bool)) :
  sameGenerationInputs s (setCompletedSubsteps f s).
Proof.
  unfold sameGenerationInputs. split_and!; try done.
  cbn [plan setCompletedSubsteps]. by destruct (plan s).
Qed.

Lemma setCompletedSubsteps_id (s : Session) :
  setCompletedSubsteps (λ m, m) s = s.
Proof. by destruct s. Qed.

(** X14. Editing the checklist never changes what the effect requests.
    Moving, deleting, adding, saving or ticking a substep leaves the step
    visuals, the in-flight marker and every step's number, prompt and
    instruction as they are; and between two sessions that agree on these,
    an evaluation of the effect issues the same Gateway calls, in either
    build. *)
Theorem X14_checklist_edits_keep_requests
    (a : VariantsBuild.App) (b : NightTourBuild.App) (sa sb : Session)
    (Ha : sameGenerationInputs (VariantsBuild.session a) sa)
    (Hb : sameGenerationInputs (NightTourBuild.session b) sb) :
  (VariantsBuild.runEffect (VariantsBuild.onSession (λ _, sa) a)).2
    = (VariantsBuild.runEffect a).2 ∧
  (NightTourBuild.runEffect (NightTourBuild.onSession (λ _, sb) b)).2
    = (NightTourBuild.runEffect b).2 ∧
  (∀ s sIdx subIdx direction,
     sameGenerationInputs s
       (returnedSession (moveSubstep sIdx subIdx direction s) s)) ∧
  (∀ s sIdx subIdx,
     sameGenerationInputs s (returnedSession (deleteSubstep sIdx subIdx s) s)) ∧
  (∀ s sIdx subIdx, sameGenerationInputs s (toggleSubstep sIdx subIdx s)) ∧
  (∀ s e sIdx, sameGenerationInputs s (returnedEdit (addSubstep sIdx e s) s)) ∧
  (∀ s e, sameGenerationInputs s (returnedEdit (saveSubstep e s) s)).
Proof.
  split_and!.
  - destruct Ha as (Hstate & Himage & Hvisuals & Hgen & Hplans).
    unfold VariantsBuild.runEffect, VariantsBuild.orchestrator.
    cbn [VariantsBuild.session VariantsBuild.onSession
         VariantsBuild.isVideoLoading VariantsBuild.videoUrl
         VariantsBuild.variants VariantsBuild.isVariantsLoading].
    rewrite Hstate, Hgen, Hvisuals.
    destruct (plan (VariantsBuild.session a)) as [p|] eqn:Hp,
             (plan sa) as [p'|] eqn:Hp'; try done.
    destruct Hplans as [Hmeta Hsteps].
    destruct (negb _); [done|]. destruct (bool_decide _); [done|].
    destruct (_ || _); [done|].
    pose proof (find_erased (stepVisuals (VariantsBuild.session a))
                  _ _ Hsteps) as Hfind.
    destruct (find _ (steps p')) as [x'|], (find _ (steps p)) as [x|];
      try done.
    + assert (Hx : withoutSubsteps x' = withoutSubsteps x)
        by (simpl in Hfind; congruence).
      unfold VariantsBuild.generateVisualForStep. cbn [snd]. do 2 f_equal.
      * by apply (f_equal visualizationPrompt) in Hx.
      * unfold contextImage.
        cbn [VariantsBuild.session VariantsBuild.onSession].
        rewrite Himage, Hvisuals.
        by replace (stepNumber x') with (stepNumber x)
          by (apply (f_equal stepNumber) in Hx; done).
    + unfold isFinalStepVisualized. rewrite Hp, Hp', Hvisuals.
      pose proof (lastStep_erased _ _ Hsteps) as Hlast.
      unfold lastStep.
      destruct (steps p' !! _) as [f'|], (steps p !! _) as [f|] eqn:Hf;
        try done.
      assert (Hlast' : withoutSubsteps f' = withoutSubsteps f)
        by (simpl in Hlast; congruence).
      clear Hlast; rename Hlast' into Hlast.
      replace (stepNumber f') with (stepNumber f)
        by (apply (f_equal stepNumber) in Hlast; done).
      destruct (truthy _); [|done].
      destruct (_ && _); [|done].
      unfold VariantsBuild.handleGenerateVariants.
      cbn [VariantsBuild.session VariantsBuild.onSession
           VariantsBuild.setIsVariantsLoading].
      rewrite Hp, Hp'. unfold lastStep.
      destruct (steps p' !! _) as [g'|] eqn:Hg', (steps p !! _) as [g|] eqn:Hg;
        try done.
      2:{ pose proof (lastStep_erased _ _ Hsteps) as H.
          by rewrite Hg', Hg in H. }
      pose proof (lastStep_erased _ _ Hsteps) as H. rewrite Hg', Hg in H.
      assert (H' : withoutSubsteps g' = withoutSubsteps g)
        by (simpl in H; congruence).
      clear H; rename H' into H. cbn [snd]. rewrite Hvisuals.
      replace (stepNumber g') with (stepNumber g)
        by (apply (f_equal stepNumber) in H; done).
      by replace (styleAnalysis p') with (styleAnalysis p)
        by (apply (f_equal styleAnalysis) in Hmeta; done).
  - destruct Hb as (Hstate & Himage & Hvisuals & Hgen & Hplans).
    unfold NightTourBuild.runEffect, NightTourBuild.orchestrator.
    cbn [NightTourBuild.session NightTourBuild.onSession].
    rewrite Hstate, Hgen, Hvisuals.
    destruct (plan (NightTourBuild.session b)) as [p|] eqn:Hp,
             (plan sb) as [p'|] eqn:Hp'; try done.
    destruct Hplans as [Hmeta Hsteps].
    destruct (negb _); [done|]. destruct (bool_decide _); [done|].
    pose proof (find_erased (stepVisuals (NightTourBuild.session b))
                  _ _ Hsteps) as Hfind.
    destruct (find _ (steps p')) as [x'|], (find _ (steps p)) as [x|];
      try done.
    assert (Hx : withoutSubsteps x' = withoutSubsteps x)
        by (simpl in Hfind; congruence).
    pose proof (f_equal stepNumber Hx) as Hnum. simpl in Hnum.
    unfold NightTourBuild.generateVisualForStep. cbn [snd]. do 2 f_equal.
    + by apply (f_equal visualizationPrompt) in Hx.
    + unfold contextImage.
      cbn [NightTourBuild.session NightTourBuild.onSession].
      by rewrite Himage, Hvisuals, Hnum.
    + f_equal. unfold NightTourBuild.previousContext.
      cbn [NightTourBuild.session NightTourBuild.onSession].
      rewrite Hp, Hp', Hnum.
      pose proof (previous_erased (stepNumber x) _ _ Hsteps) as Hprev.
      rewrite Hprev.
      pose proof (f_equal length Hprev) as Hlen. rewrite !length_map in Hlen.
      rewrite Hlen. done.
  - intros s sIdx subIdx direction. unfold moveSubstep.
    destruct (plan s) as [p|] eqn:Hp; [|apply same_inputs_refl].
    destruct (steps p !! sIdx) as [step|] eqn:Hstep; [|apply same_inputs_refl].
    case_decide; [apply same_inputs_refl|].
    destruct (substeps step !! subIdx); [|apply same_inputs_refl].
    destruct (substeps step !! Z.to_nat _); [|apply same_inputs_refl].
    by apply edited_plan_same_inputs.
  - intros s sIdx subIdx. unfold deleteSubstep.
    destruct (plan s) as [p|] eqn:Hp; [|apply same_inputs_refl].
    destruct (steps p !! sIdx) as [step|] eqn:Hstep; [|apply same_inputs_refl].
    cbn [returnedSession].
    rewrite <- (setCompletedSubsteps_id (setPlan _ s)).
    by apply edited_plan_same_inputs.
  - intros s sIdx subIdx. apply same_inputs_flags.
  - intros s e sIdx. unfold addSubstep.
    destruct (plan s) as [p|] eqn:Hp; [|apply same_inputs_refl].
    destruct (steps p !! sIdx) as [step|] eqn:Hstep; [|apply same_inputs_refl].
    cbn [returnedEdit].
    rewrite <- (setCompletedSubsteps_id (setPlan _ s)).
    by apply edited_plan_same_inputs.
  - intros s e. unfold saveSubstep.
    destruct (plan s) as [p|] eqn:Hp; [|apply same_inputs_refl].
    destruct (editingSubstep e) as [[sIdx subIdx]|]; [|apply same_inputs_refl].
    destruct (steps p !! sIdx) as [step|] eqn:Hstep; [|apply same_inputs_refl].
    repeat case_decide; cbn [returnedEdit]; try apply same_inputs_refl;
      rewrite <- (setCompletedSubsteps_id (setPlan _ s));
      by apply edited_plan_same_inputs.
Qed.

Lemma X14_checklist_edits_keep_requests_witness :
  let s := Scenario.planned Scenario.threeStepPlan in
  let edited := returnedSession (moveSubstep 0 0 Down s) s in
  (VariantsBuild.runEffect (Scenario.variantsApp edited)).2
    = (VariantsBuild.runEffect (Scenario.variantsApp s)).2 ∧
  (NightTourBuild.runEffect (Scenario.nightTourApp edited)).2
    = (NightTourBuild.runEffect (Scenario.nightTourApp s)).2.
Proof.
  intros s edited.
  assert (Hedit : sameGenerationInputs s edited).
  { unfold sameGenerationInputs. vm_compute. split_and!; reflexivity. }
  destruct (X14_checklist_edits_keep_requests
              (Scenario.variantsApp s) (Scenario.nightTourApp s)
              edited edited Hedit Hedit) as (Ha & Hb & _).
  exact (conj Ha Hb).
Defined.

(** ** Manual generation from the visualizer *)



(** ** The summary audio *)








(** ** Data URLs *)

Lemma no_data_prefix (tail raw : string) :
  GeminiService.stripPrefix "data:" raw = None →
  GeminiService.stripPrefix ("data:" +:+ tail) raw = None.
Proof.
  intros Hraw.
  destruct raw as [|c1 raw]; [done|]. simpl in *.
  case_decide; [|done].
  destruct raw as [|c2 raw]; [done|]. simpl in *.
  case_decide; [|done].
  destruct raw as [|c3 raw]; [done|]. simpl in *.
  case_decide; [|done].
  destruct raw as [|c4 raw]; [done|]. simpl in *.
  case_decide; [|done].
  destruct raw as [|c5 raw]; [done|]. simpl in *.
  case_decide; [|done].
  done.
Qed.

(** X18. Splitting a data URL recovers what image synthesis put into it:
    the URL built for a payload is split into the type [image/png] and that
    payload, and the same holds for the jpeg, jpg and webp headers. A string
    that does not start with [data:], such as the bare base64 text of an
    upload, is returned whole with the type [image/jpeg]. A header of
    another image type, gif for one, gives that type but is left in front
    of the payload. *)
Theorem X18_data_url_round_trip :
  (∀ data, GeminiService.parseBase64 (GeminiService.pngDataUrl data)
           = ("image/png", data)) ∧
  (∀ data, GeminiService.parseBase64 ("data:image/jpeg;base64," +:+ data)
           = ("image/jpeg", data)) ∧
  (∀ data, GeminiService.parseBase64 ("data:image/jpg;base64," +:+ data)
           = ("image/jpg", data)) ∧
  (∀ data, GeminiService.parseBase64 ("data:image/webp;base64," +:+ data)
           = ("image/webp", data)) ∧
  (∀ raw, GeminiService.stripPrefix "data:" raw = None →
          GeminiService.parseBase64 raw = ("image/jpeg", raw)) ∧
  (∀ data, GeminiService.parseBase64 ("data:image/gif;base64," +:+ data)
           = ("image/gif", "data:image/gif;base64," +:+ data)).
Proof.
  split_and!; try (intros data; reflexivity).
  intros raw Hraw.
  unfold GeminiService.parseBase64, GeminiService.mimeTypeOf,
    GeminiService.cleanDataOf.
  assert (Hmime : GeminiService.stripPrefix "data:image/" raw = None)
    by exact (no_data_prefix "image/" raw Hraw).
  assert (Hclean : ∀ alternative,
    GeminiService.stripPrefix ("data:image/" +:+ alternative +:+ ";base64,") raw
    = None)
    by (intros alternative;
        exact (no_data_prefix ("image/" +:+ alternative +:+ ";base64,") raw Hraw)).
  cbv zeta. rewrite Hmime, !Hclean.
  reflexivity.
Qed.

Lemma X18_data_url_round_trip_witness :
  GeminiService.parseBase64 "iVBORw0KGgo=" = ("image/jpeg", "iVBORw0KGgo=").
Proof.
  destruct X18_data_url_round_trip as (_ & _ & _ & _ & Hraw & _).
  apply Hraw. reflexivity.
Defined.

(** ** Submitting a plan request *)

(** X19. A submission with both images uploaded asks for a plan on them
    and, whatever the session held before, leaves no step visual, checkbox,
    product image, variant, video or summary behind; while the plan is
    awaited the effect requests nothing. When a plan with at least one step
    arrives, the next evaluation of the effect requests the visual of its
    first step on the uploaded photograph of the room (in the variants
    build provided no video is being generated); when the request fails the
    state is [ERROR] and the effect requests nothing. Without both images,
    a submission changes nothing and asks for no plan. *)
Theorem X19_submission_restarts_sequencing
    (inspiration current dims styleNotes : string)
    (p : DIYPlan) (first : Step) (rest : list Step)
    (Hsteps : steps p = first :: rest) :
  (∀ a : VariantsBuild.App,
     currentImage (VariantsBuild.session a) = Some current →
     let submitted :=
       VariantsBuild.handleSubmit (Some inspiration) dims styleNotes a in
     let planned := VariantsBuild.handleSubmit_settled (Some p) submitted.1 in
     let failed := VariantsBuild.handleSubmit_settled None submitted.1 in
     submitted.2 = Some {| inspirationBase64 := inspiration;
                           currentBase64 := current;
                           dimensions := dims;
                           styleAdjustments := styleNotes |} ∧
     stepVisuals (VariantsBuild.session planned) = ∅ ∧
     completedSubsteps (VariantsBuild.session planned) = ∅ ∧
     materialImages (VariantsBuild.session planned) = ∅ ∧
     VariantsBuild.variants planned = ∅ ∧
     VariantsBuild.videoUrl planned = None ∧
     (VariantsBuild.runEffect submitted.1).2 = [] ∧
     (VariantsBuild.isVideoLoading a = false →
      (VariantsBuild.runEffect planned).2
      = [variantsRequest (Some current) first]) ∧
     appState (VariantsBuild.session failed) = ERROR ∧
     (VariantsBuild.runEffect failed).2 = []) ∧
  (∀ a : NightTourBuild.App,
     currentImage (NightTourBuild.session a) = Some current →
     let submitted :=
       NightTourBuild.handleSubmit (Some inspiration) dims styleNotes a in
     let planned := NightTourBuild.handleSubmit_settled (Some p) submitted.1 in
     let failed := NightTourBuild.handleSubmit_settled None submitted.1 in
     submitted.2 = Some {| inspirationBase64 := inspiration;
                           currentBase64 := current;
                           dimensions := dims;
                           styleAdjustments := styleNotes |} ∧
     stepVisuals (NightTourBuild.session planned) = ∅ ∧
     completedSubsteps (NightTourBuild.session planned) = ∅ ∧
     materialImages (NightTourBuild.session planned) = ∅ ∧
     NightTourBuild.summaryAudioBuffer planned = None ∧
     NightTourBuild.nightVideoUrl planned = None ∧
     (NightTourBuild.runEffect submitted.1).2 = [] ∧
     (NightTourBuild.runEffect planned).2
     = [nightTourRequest (NightTourBuild.session planned) (Some current)
          first] ∧
     appState (NightTourBuild.session failed) = ERROR ∧
     (NightTourBuild.runEffect failed).2 = []) ∧
  (∀ a : VariantsBuild.App,
     VariantsBuild.handleSubmit None dims styleNotes a = (a, None) ∧
     (currentImage (VariantsBuild.session a) = None →
      VariantsBuild.handleSubmit (Some inspiration) dims styleNotes a
      = (a, None))) ∧
  (∀ a : NightTourBuild.App,
     NightTourBuild.handleSubmit None dims styleNotes a = (a, None) ∧
     (currentImage (NightTourBuild.session a) = None →
      NightTourBuild.handleSubmit (Some inspiration) dims styleNotes a
      = (a, None))).
Proof.
  assert (Hreference : ∀ s,
    stepVisuals s = ∅ → contextImage s first = currentImage s).
  { intros s Hempty. unfold contextImage. rewrite Hempty, lookup_empty.
    by case_decide. }
  split_and!.
  - intros a Hcurrent submitted planned failed.
    subst submitted planned failed.
    unfold VariantsBuild.handleSubmit. rewrite Hcurrent. cbn [fst snd].
    split_and!; try reflexivity.
    + unfold VariantsBuild.runEffect, VariantsBuild.orchestrator. simpl.
      by destruct (plan (VariantsBuild.session a)).
    + intros Hvideo.
      set (planned := VariantsBuild.handleSubmit_settled _ _).
      assert (Hplan : plan (VariantsBuild.session planned) = Some p)
        by reflexivity.
      assert (Hstate : appState (VariantsBuild.session planned) = RESULT)
        by reflexivity.
      assert (Hidle : generatingStepIndex (VariantsBuild.session planned) = None)
        by reflexivity.
      assert (Hvisuals : stepVisuals (VariantsBuild.session planned) = ∅)
        by reflexivity.
      assert (Hloading : VariantsBuild.isVideoLoading planned = false)
        by exact Hvideo.
      assert (Hurl : VariantsBuild.videoUrl planned = None) by reflexivity.
      assert (Himage : currentImage (VariantsBuild.session planned)
                       = Some current) by exact Hcurrent.
      clearbody planned.
      unfold VariantsBuild.runEffect, VariantsBuild.orchestrator.
      rewrite Hplan, Hstate, Hidle, Hloading, Hurl, Hvisuals, Hsteps.
      cbn [is_RESULT negb orb truthy]. rewrite bool_decide_eq_false_2 by tauto.
      cbn [find]. unfold lacksVisual at 1. rewrite lookup_empty.
      cbn [truthy negb].
      unfold VariantsBuild.generateVisualForStep, variantsRequest. cbn [snd].
      by rewrite (Hreference _ Hvisuals), Himage.
    + unfold VariantsBuild.runEffect, VariantsBuild.orchestrator. simpl.
      by destruct (plan (VariantsBuild.session a)).
  - intros a Hcurrent submitted planned failed.
    subst submitted planned failed.
    unfold NightTourBuild.handleSubmit. rewrite Hcurrent. cbn [fst snd].
    split_and!; try reflexivity.
    + unfold NightTourBuild.runEffect, NightTourBuild.orchestrator. simpl.
      by destruct (plan (NightTourBuild.session a)).
    + set (planned := NightTourBuild.handleSubmit_settled _ _).
      assert (Hplan : plan (NightTourBuild.session planned) = Some p)
        by reflexivity.
      assert (Hstate : appState (NightTourBuild.session planned) = RESULT)
        by reflexivity.
      assert (Hidle : generatingStepIndex (NightTourBuild.session planned) = None)
        by reflexivity.
      assert (Hvisuals : stepVisuals (NightTourBuild.session planned) = ∅)
        by reflexivity.
      assert (Himage : currentImage (NightTourBuild.session planned)
                       = Some current) by exact Hcurrent.
      clearbody planned.
      unfold NightTourBuild.runEffect, NightTourBuild.orchestrator.
      rewrite Hplan, Hstate, Hidle, Hvisuals, Hsteps.
      cbn [is_RESULT negb]. rewrite bool_decide_eq_false_2 by tauto.
      cbn [find]. unfold lacksVisual at 1. rewrite lookup_empty.
      cbn [truthy negb].
      unfold NightTourBuild.generateVisualForStep, nightTourRequest. cbn [snd].
      by rewrite (Hreference _ Hvisuals), Himage.
    + unfold NightTourBuild.runEffect, NightTourBuild.orchestrator. simpl.
      by destruct (plan (NightTourBuild.session a)).
  - intros a. split; [done|]. intros Hcurrent.
    unfold VariantsBuild.handleSubmit. by rewrite Hcurrent.
  - intros a. split; [done|]. intros Hcurrent.
    unfold NightTourBuild.handleSubmit. by rewrite Hcurrent.
Qed.

Lemma X19_submission_restarts_sequencing_witness :
  let a := Scenario.variantsApp
             (setStepVisuals (λ _, {[ 1 := Scenario.img "OLD" ]})
                (Scenario.planned Scenario.twoStepPlan)) in
  let submitted := VariantsBuild.handleSubmit (Some "INSPIRATION") "3x4" "" a in
  (VariantsBuild.runEffect
     (VariantsBuild.handleSubmit_settled (Some Scenario.threeStepPlan)
        submitted.1)).2
  = [variantsRequest (Some "data:image/jpeg;base64,ROOM") Scenario.step1].
Proof.
  intros a submitted.
  destruct (X19_submission_restarts_sequencing "INSPIRATION"
              "data:image/jpeg;base64,ROOM" "3x4" "" Scenario.threeStepPlan
              Scenario.step1 [Scenario.step2; Scenario.step3] eq_refl)
    as (Hvariants & _).
  destruct (Hvariants a eq_refl) as (_ & _ & _ & _ & _ & _ & _ & Hfirst & _).
  exact (Hfirst eq_refl).
Defined.

(** ** Starting over *)

(** X20. After [reset] the application is at rest in both builds: the
    effect requests nothing, the video, night-tour, variant and summary
    handlers request nothing and change nothing, a submission is refused
    for want of images, and a second [reset] changes nothing. A step image
    or a video that was still in flight and settles after the [reset],
    whether it succeeded or not, does not make the effect request
    anything. *)
Theorem X20_reset_leaves_nothing_running :
  (∀ (a : VariantsBuild.App) (r := VariantsBuild.reset a),
     VariantsBuild.runEffect r = (r, []) ∧
     VariantsBuild.handleGenerateVideo r = Returned (r, []) ∧
     VariantsBuild.handleGenerateVariants r = (r, []) ∧
     (∀ inspiration dims styleNotes,
        VariantsBuild.handleSubmit inspiration dims styleNotes r = (r, None)) ∧
     VariantsBuild.reset r = r ∧
     (∀ step outcome,
        (VariantsBuild.runEffect
           (VariantsBuild.generateVisualForStep_settled step outcome r)).2 = []) ∧
     (∀ outcome,
        (VariantsBuild.runEffect
           (VariantsBuild.handleGenerateVideo_settled outcome r)).2 = [])) ∧
  (∀ (a : NightTourBuild.App) (r := NightTourBuild.reset a),
     NightTourBuild.runEffect r = (r, []) ∧
     NightTourBuild.handleGenerateNightTour r = Returned (r, []) ∧
     NightTourBuild.clickPlaySummary r = (r, []) ∧
     (∀ inspiration dims styleNotes,
        NightTourBuild.handleSubmit inspiration dims styleNotes r = (r, None)) ∧
     NightTourBuild.reset r = r ∧
     (∀ step outcome,
        (NightTourBuild.runEffect
           (NightTourBuild.generateVisualForStep_settled step outcome r)).2 = []) ∧
     (∀ outcome,
        (NightTourBuild.runEffect
           (NightTourBuild.handleGenerateNightTour_settled outcome r)).2 = [])).
Proof.
  split.
  - intros a r. split_and!; try reflexivity.
    + by intros [inspiration|] dims styleNotes.
    + by intros step [url|].
    + by intros [url|].
  - intros a r. split_and!; try reflexivity.
    + unfold NightTourBuild.clickPlaySummary. by destruct (_ r).
    + by intros [inspiration|] dims styleNotes.
    + by intros step [url|].
    + by intros [url|].
Qed.
